(** * Decor: the installation orchestrator of [models/downloadinstall.go]

    A shallow embedding of the Bubble Tea model [DownloadInstallModel]
    (its [Update] and the tracker side of its [View]), of the version
    probe, of the ten progress-reporting runners and of the worker
    goroutines that drive them, followed by the properties of the
    orchestration engine.

    Conventions.
    - Go strings are [string]; maps are [gmap]; [float64] is Rocq's
      primitive binary64 [float], so that [Progress < 1.0] is the IEEE
      comparison the program performs.
    - [*LanguageProgress] values are shared between the model, the worker
      goroutines and the renderer: they live in a heap (a list indexed by
      pointer) and maps hold pointers.
    - A run-time panic (index out of range, nil dereference, a negative
      count given to [strings.Repeat]) is the [Panic] result.
    - What Go's standard library, the operating system and the platform
      contribute ([strings.ToLower], [strings.TrimSpace], [runtime.GOOS],
      running an external command, the conversion to [int] of a float
      that [int] cannot hold) is the class [GoEnv]. *)

From Stdlib Require Import Floats.PrimFloat Floats.SpecFloat Floats.FloatOps.
From Stdlib Require Import Uint63 Ascii.
From stdpp Require Import gmap strings list fin_maps.

Local Open Scope string_scope.
Local Open Scope list_scope.

(** ** The Go environment *)

(** [exec.Command(name, args...)]. *)
Record exec_Cmd := Command { Path : string; Args : list string }.

(** A Go [error]: [None] is [nil], [Some e] an error whose [Error()] text
    is [e]. *)
Definition error := option string.

(** The environment of the program. The outcome of an external command is
    taken to depend on the command alone. *)
Class GoEnv := {
  GOOS : string;
  ToLower : string → string;
  TrimSpace : string → string;
  (** The method [CombinedOutput] of [exec.Cmd]: the output and the error. *)
  CombinedOutput : exec_Cmd → string * error;
  (** The method [Run] of [exec.Cmd]. *)
  Run : exec_Cmd → error;
  (** [int(f)] for a float [f] that [int] cannot hold (a NaN, an infinity,
      a value beyond its range): the conversion succeeds, with a result
      that Go leaves to the implementation. *)
  IntOutOfRange : float → Z
}.

(** The outcome of code that may panic. *)
Inductive Result (A : Type) :=
| Ok (a : A)
| Panic (reason : string).
Arguments Ok {A} a.
Arguments Panic {A} reason.

Definition newline : ascii := "010"%char.

(** [strings.Split(s, sep)] for a one-byte separator. *)
Fixpoint Split (s : string) (sep : ascii) : list string :=
  match s with
  | EmptyString => [EmptyString]
  | String c rest =>
      if Ascii.eqb c sep then EmptyString :: Split rest sep
      else match Split rest sep with
           | [] => [String c EmptyString]
           | line :: lines => String c line :: lines
           end
  end.

(** [fmt.Errorf("unsupported language: %s", language)]. *)
Definition unsupported (language : string) : string :=
  "unsupported language: " +:+ language.

(** [fmt.Sprintf("error: %v", err)]. *)
Definition errorResult (e : string) : string := "error: " +:+ e.

(** ** Data model *)

Record InstallationStatus := {
  Language : string;
  Installed : bool;
  Version : string;
  LatestVersion : string;
  Error : string
}.

(** [LanguageProgress]; the mutex [mu] is rendered by the atomicity of
    the locked sections (see [Action]). *)
Record LanguageProgress := {
  pLanguage : string;
  Progress : float;
  CurrentStep : string;
  TotalSteps : Z;
  CurrentStepNum : Z;
  ErrorMessage : string
}.

(** A [*LanguageProgress]: an index into the heap of trackers. A pointer
    outside the heap plays the nil pointer. *)
Abbreviation ptr := nat (only parsing).
Abbreviation Heap := (list LanguageProgress) (only parsing).

(** ** VersionProbe *)

Section Probe.
Context `{GoEnv}.

(** [getLatestVersion]. A missing key reads as the empty string. *)
Definition latestVersions : gmap string string :=
  list_to_map
    [("go", "1.25.5"); ("python", "3.13.0"); ("rust", "1.81.0");
     ("c++", "14"); ("java", "21")].

Definition getLatestVersion (language : string) : string :=
  default EmptyString (latestVersions !! ToLower language).

(** [parseVersion]. *)
Definition parseVersion (output language : string) : string :=
  match Split output newline with
  | line :: _ => TrimSpace line
  | [] => "unknown"
  end.

(** The [switch] of [checkLanguageInstallation]: the detection command
    of a language, [None] in the [default] case. *)
Definition detectionCommand (language : string) : option exec_Cmd :=
  let l := ToLower language in
  if l =? "go" then Some (Command "go" ["version"])
  else if l =? "python" then Some (Command "python3" ["--version"])
  else if l =? "rust" then Some (Command "rustc" ["--version"])
  else if l =? "c++" then
    if GOOS =? "darwin" then Some (Command "clang" ["--version"])
    else Some (Command "g++" ["--version"])
  else if l =? "java" then Some (Command "java" ["-version"])
  else None.

(** [checkLanguageInstallation]. *)
Definition checkLanguageInstallation (language : string)
  : bool * string * string :=
  match detectionCommand language with
  | None => (false, EmptyString, EmptyString)
  | Some cmd =>
      match CombinedOutput cmd with
      | (_, Some _) => (false, EmptyString, EmptyString)
      | (output, None) =>
          (true, parseVersion output language, getLatestVersion language)
      end
  end.

(** The body of the command [checkInstalledLanguages] returns: the
    status map carried by [InstallationStatusMsg]. *)
Definition probeStatus (lang : string) : InstallationStatus :=
  let '(installed, version, latest) := checkLanguageInstallation lang in
  {| Language := lang; Installed := installed; Version := version;
     LatestVersion := latest; Error := EmptyString |}.

Definition checkInstalledLanguages (languages : list string)
  : gmap string InstallationStatus :=
  foldl (λ status lang, <[lang := probeStatus lang]> status) ∅ languages.

End Probe.

(** [getDefaultChoice], on a non-nil status. *)
Definition getDefaultChoice (status : InstallationStatus) : string :=
  if negb (Installed status) then "install"
  else if negb (Version status =? LatestVersion status) then "update"
  else "skip".

(** ** ActionRunner *)

(** What a runner or a worker goroutine does to its tracker, one atomic
    action at a time. [Locked p s] is the critical section
    [mu.Lock(); Progress = p; CurrentStep = s; mu.Unlock()]; the three
    [Set...] writes are the unlocked assignments of the worker goroutine;
    [SetResult] is [results[language] = r], which a goroutine enters and
    leaves in two steps (see [work]). *)
Inductive Action :=
| Locked (progress : float) (step : string)
| Sleep (milliseconds : Z)
| Println (line : string)
| RunCommand (cmd : exec_Cmd)
| SetResult (language result : string)
| SetCurrentStep (step : string)
| SetErrorMessage (message : string)
| SetProgress (progress : float).

(** [float64(i)] for a slice index or length. *)
Definition float64 (i : nat) : float := of_uint63 (Uint63.of_Z (Z.of_nat i)).

(** The loop every runner starts with:
    [for i, step := range steps { lock; Progress = float64(i) /
    float64(len(steps)); CurrentStep = step; unlock; time.Sleep(500ms) }]. *)
Definition announce (steps : list string) : list Action :=
  concat (imap (λ i step,
                  [Locked (float64 i / float64 (length steps))%float step; Sleep 500])
               steps).

(** A runner: the actions it performs and the error it returns. *)
Definition Runner := (list Action * error)%type.

Section Runners.
Context `{GoEnv}.

(** [cmd := exec.Command(...); return cmd.Run()]. *)
Definition runCommand (cmd : exec_Cmd) : Runner := ([RunCommand cmd], Run cmd).

(** [fmt.Println(line)] before the rest of the function. *)
Definition println (line : string) (rest : Runner) : Runner :=
  (Println line :: rest.1, rest.2).

(** The shape shared by the ten runners: the step loop, the locked
    write of [Progress = 1.0] with the label the source repeats, and
    the rest of the function. *)
Definition withProgress (steps : list string) (label : string) (rest : Runner)
  : Runner :=
  (announce steps ++ Locked 1 label :: rest.1, rest.2).

Definition installGoWithProgress : Runner :=
  withProgress
    ["Downloading Go..."; "Extracting files..."; "Verifying installation..."]
    "Verifying installation..."
    (runCommand (Command "bash"
       ["-c"; "curl -L https://go.dev/dl/go1.25.5.darwin-arm64.tar.gz -o go1.25.5.tar.gz && tar -C /usr/local -xzf go1.25.5.tar.gz"])).

Definition installPythonWithProgress : Runner :=
  withProgress
    ["Preparing installation..."; "Installing Python..."; "Verifying installation..."]
    "Verifying installation..."
    (if GOOS =? "darwin" then
       let r := runCommand (Command "brew" ["install"; "python@3.13"]) in
       (Println "Installing Python using Homebrew..." :: r.1, r.2)
     else runCommand (Command "apt-get" ["install"; "-y"; "python3"])).

Definition installRustWithProgress : Runner :=
  withProgress
    ["Downloading Rust installer..."; "Running installation script...";
     "Configuring environment..."]
    "Configuring environment..."
    (runCommand (Command "bash"
       ["-c"; "curl --proto '=https' --tlsv1.2 -sSf https://sh.rustup.rs | sh -s -- -y"])).

Definition installCppWithProgress : Runner :=
  withProgress
    ["Preparing installation..."; "Installing C++ compiler...";
     "Setting up environment..."]
    "Setting up environment..."
    (if GOOS =? "darwin" then runCommand (Command "xcode-select" ["--install"])
     else runCommand (Command "apt-get" ["install"; "-y"; "build-essential"])).

Definition installJavaWithProgress : Runner :=
  withProgress
    ["Preparing installation..."; "Installing OpenJDK...";
     "Setting up environment..."]
    "Setting up environment..."
    (if GOOS =? "darwin" then runCommand (Command "brew" ["install"; "openjdk@21"])
     else runCommand (Command "apt-get" ["install"; "-y"; "openjdk-21-jdk"])).

Definition updateGoWithProgress : Runner :=
  withProgress
    ["Checking latest version..."; "Downloading Go..."; "Installing update..."]
    "Installing update..."
    installGoWithProgress.

Definition updatePythonWithProgress : Runner :=
  withProgress
    ["Fetching available updates..."; "Upgrading Python..."; "Verifying update..."]
    "Verifying update..."
    (if GOOS =? "darwin" then runCommand (Command "brew" ["upgrade"; "python@3.13"])
     else runCommand (Command "apt-get" ["upgrade"; "-y"; "python3"])).

Definition updateRustWithProgress : Runner :=
  withProgress
    ["Checking for updates..."; "Updating Rust..."; "Verifying update..."]
    "Verifying update..."
    (runCommand (Command "rustup" ["update"])).

Definition updateCppWithProgress : Runner :=
  withProgress
    ["Checking for system updates..."; "Installing updates..."; "Verifying..."]
    "Verifying..."
    (if GOOS =? "darwin" then runCommand (Command "softwareupdate" ["-i"; "-a"])
     else runCommand (Command "apt-get" ["upgrade"; "-y"])).

Definition updateJavaWithProgress : Runner :=
  withProgress
    ["Fetching available updates..."; "Upgrading OpenJDK..."; "Verifying update..."]
    "Verifying update..."
    (if GOOS =? "darwin" then runCommand (Command "brew" ["upgrade"; "openjdk@21"])
     else runCommand (Command "apt-get" ["upgrade"; "-y"; "openjdk-21-jdk"])).

(** [installLanguageWithProgress]. *)
Definition installLanguageWithProgress (language : string) : Runner :=
  let l := ToLower language in
  if l =? "go" then installGoWithProgress
  else if l =? "python" then installPythonWithProgress
  else if l =? "rust" then installRustWithProgress
  else if l =? "c++" then installCppWithProgress
  else if l =? "java" then installJavaWithProgress
  else ([], Some (unsupported language)).

(** [updateLanguageWithProgress]. *)
Definition updateLanguageWithProgress (language : string) : Runner :=
  let l := ToLower language in
  if l =? "go" then updateGoWithProgress
  else if l =? "python" then updatePythonWithProgress
  else if l =? "rust" then updateRustWithProgress
  else if l =? "c++" then updateCppWithProgress
  else if l =? "java" then updateJavaWithProgress
  else ([], Some (unsupported language)).

(** What the worker goroutine does once the runner has returned [err]. *)
Definition conclude (language done : string) (err : error) : list Action :=
  match err with
  | Some e =>
      [SetResult language (errorResult e); SetCurrentStep "error";
       SetErrorMessage e]
  | None =>
      [SetResult language done; SetCurrentStep "complete"; SetProgress 1]
  end.

(** The worker goroutine
    [go func(language, choiceType string, prog *LanguageProgress)]
    of [installSelectedLanguagesWithProgress]. *)
Definition worker (language choiceType : string) : list Action :=
  if choiceType =? "install" then
    let r := installLanguageWithProgress language in
    r.1 ++ conclude language "installed" r.2
  else if choiceType =? "update" then
    let r := updateLanguageWithProgress language in
    r.1 ++ conclude language "updated" r.2
  else [].

End Runners.

(** The effect of one action on the tracker it is performed on. *)
Definition setTracker (t : LanguageProgress) (p : float) (s e : string)
  : LanguageProgress :=
  {| pLanguage := pLanguage t; Progress := p; CurrentStep := s;
     TotalSteps := TotalSteps t; CurrentStepNum := CurrentStepNum t;
     ErrorMessage := e |}.

Definition applyAction (t : LanguageProgress) (a : Action) : LanguageProgress :=
  match a with
  | Locked p s => setTracker t p s (ErrorMessage t)
  | SetCurrentStep s => setTracker t (Progress t) s (ErrorMessage t)
  | SetErrorMessage e => setTracker t (Progress t) (CurrentStep t) e
  | SetProgress p => setTracker t p (CurrentStep t) (ErrorMessage t)
  | Sleep _ | Println _ | RunCommand _ | SetResult _ _ => t
  end.

(** The effect of one action on the [results] map of the background
    goroutine. *)
Definition applyResult (results : gmap string string) (a : Action)
  : gmap string string :=
  match a with
  | SetResult language r => <[language := r]> results
  | _ => results
  end.

(** The tracker a goroutine leaves when it runs alone to its end. *)
Definition runActions (t : LanguageProgress) (actions : list Action)
  : LanguageProgress :=
  foldl applyAction t actions.

(** [&LanguageProgress{Language: lang, Progress: 0.0, CurrentStep:
    "starting", TotalSteps: 3}]. *)
Definition newTracker (lang : string) : LanguageProgress :=
  {| pLanguage := lang; Progress := 0; CurrentStep := "starting";
     TotalSteps := 3; CurrentStepNum := 0; ErrorMessage := EmptyString |}.

(** ** InstallOrchestrator: the Bubble Tea model *)

(** [DownloadInstallModel]. The embedded [Decor] is never read by the
    orchestrator and is left out. [installationStatus] holds pointers to
    statuses that are never written after their creation, so the map holds
    the statuses themselves; a missing key is the nil pointer. *)
Record DownloadInstallModel := {
  selectedLanguages : list string;
  installationStatus : gmap string InstallationStatus;
  currentIndex : nat;
  state : string;
  userChoices : gmap string string;
  languageProgress : gmap string ptr
}.

(** The messages [Update] distinguishes; [OtherMsg] is any message of the
    runtime that matches no case of its type switch. *)
Inductive Msg :=
| KeyMsg (key : string)
| InstallationStatusMsg (Status : gmap string InstallationStatus)
| InitProgressMsg (Trackers : gmap string ptr)
| ProgressTickMsg
| ProgressUpdateMsg (language : string) (progress : float) (step : string)
| InstallCompleteMsg (Results : gmap string string)
| InstallErrorMsg (language err : string)
| OtherMsg.

(** The commands the model hands to the runtime, each producing one
    message when it completes. A [tea.Cmd] is the list of those it batches;
    [nil] is the empty list. *)
Inductive Command1 :=
| CmdQuit
| CmdCheck (languages : list string)
| CmdInstall (languages : list string) (choices : gmap string string)
             (status : gmap string InstallationStatus)
| CmdTicker.

Abbreviation Cmd := (list Command1) (only parsing).

(** [progressUpdateTicker]: a tick after 100 ms. *)
Definition progressUpdateTicker : Cmd := [CmdTicker].

(** [installSelectedLanguagesWithProgress]: the batch of the closure that
    creates the trackers and starts the workers, and of a ticker. *)
Definition installSelectedLanguagesWithProgress (languages : list string)
    (choices : gmap string string) (status : gmap string InstallationStatus)
  : Cmd :=
  [CmdInstall languages choices status; CmdTicker].

(** [NewDownloadInstallModel]. *)
Definition NewDownloadInstallModel (selected : list string)
  : DownloadInstallModel :=
  {| selectedLanguages := selected; installationStatus := ∅;
     currentIndex := 0; state := "checking"; userChoices := ∅;
     languageProgress := ∅ |}.

(** [Init]; the probe itself runs when the command does (see [deliver]). *)
Definition Init (m : DownloadInstallModel) : Cmd :=
  [CmdCheck (selectedLanguages m)].

Definition withState (m : DownloadInstallModel) (st : string)
  : DownloadInstallModel :=
  {| selectedLanguages := selectedLanguages m;
     installationStatus := installationStatus m;
     currentIndex := currentIndex m; state := st;
     userChoices := userChoices m; languageProgress := languageProgress m |}.

Definition withStatus (m : DownloadInstallModel)
    (status : gmap string InstallationStatus) : DownloadInstallModel :=
  {| selectedLanguages := selectedLanguages m; installationStatus := status;
     currentIndex := currentIndex m; state := state m;
     userChoices := userChoices m; languageProgress := languageProgress m |}.

Definition withTrackers (m : DownloadInstallModel) (trackers : gmap string ptr)
  : DownloadInstallModel :=
  {| selectedLanguages := selectedLanguages m;
     installationStatus := installationStatus m;
     currentIndex := currentIndex m; state := state m;
     userChoices := userChoices m; languageProgress := trackers |}.

(** [m.userChoices[lang] = choice; m.currentIndex++]. *)
Definition withChoice (m : DownloadInstallModel) (lang choice : string)
  : DownloadInstallModel :=
  {| selectedLanguages := selectedLanguages m;
     installationStatus := installationStatus m;
     currentIndex := S (currentIndex m); state := state m;
     userChoices := <[lang := choice]> (userChoices m);
     languageProgress := languageProgress m |}.

(** The common end of the three prompting handlers, entered once the
    choice is computed: record it, advance the cursor and, past the last
    item, enter the installing state. *)
Definition recordChoice (m : DownloadInstallModel) (lang choice : string)
  : DownloadInstallModel * Cmd :=
  let m1 := withChoice m lang choice in
  if (length (selectedLanguages m1) <=? currentIndex m1)%nat then
    (withState m1 "installing",
     installSelectedLanguagesWithProgress
       (selectedLanguages m1) (userChoices m1) (installationStatus m1))
  else (m1, []).

(** [getDefaultChoice(m.installationStatus[lang])]: a missing status is
    the nil pointer, which [getDefaultChoice] dereferences. *)
Definition defaultChoice (m : DownloadInstallModel) (lang : string)
  : Result string :=
  match installationStatus m !! lang with
  | Some status => Ok (getDefaultChoice status)
  | None => Panic "invalid memory address or nil pointer dereference"
  end.

(** The body shared by the cases ["y", "enter"], ["n"] and ["u"]:
    [if m.state == "prompting" { m.userChoices[m.selectedLanguages[
    m.currentIndex]] = choice; ... }], falling through to [return m, nil]
    in any other state. *)
Definition prompt (h : Heap) (m : DownloadInstallModel)
    (choose : string → Result string)
  : Result (Heap * DownloadInstallModel * Cmd) :=
  if state m =? "prompting" then
    match selectedLanguages m !! currentIndex m with
    | Some lang =>
        match choose lang with
        | Ok choice =>
            let '(m1, cmd) := recordChoice m lang choice in Ok (h, m1, cmd)
        | Panic reason => Panic reason
        end
    | None => Panic "index out of range"
    end
  else Ok (h, m, []).

(** The test of the poll tick on one tracker. *)
Definition stillInstalling (prog : LanguageProgress) : bool :=
  (Progress prog <? 1)%float && negb (CurrentStep prog =? "error").

(** The trackers a map of pointers gives access to; [None] when one of the
    pointers is nil. *)
Definition trackersOf (h : Heap) (trackers : gmap string ptr)
  : option (list LanguageProgress) :=
  mapM (λ entry, h !! entry.2) (map_to_list trackers).

(** [Update]. *)
Definition Update (h : Heap) (m : DownloadInstallModel) (msg : Msg)
  : Result (Heap * DownloadInstallModel * Cmd) :=
  match msg with
  | KeyMsg key =>
      if (key =? "ctrl+c") || (key =? "q") then Ok (h, m, [CmdQuit])
      else if (key =? "y") || (key =? "enter") then prompt h m (defaultChoice m)
      else if key =? "n" then prompt h m (λ _, Ok "skip")
      else if key =? "u" then prompt h m (λ _, Ok "update")
      else Ok (h, m, [])
  | InstallationStatusMsg status =>
      Ok (h, withState (withStatus m status) "prompting", [])
  | InitProgressMsg trackers =>
      Ok (h, withTrackers m trackers, progressUpdateTicker)
  | ProgressTickMsg =>
      match trackersOf h (languageProgress m) with
      | Some progs =>
          if forallb (λ prog, negb (stillInstalling prog)) progs
          then Ok (h, withState m "complete", [])
          else Ok (h, m, progressUpdateTicker)
      | None => Panic "invalid memory address or nil pointer dereference"
      end
  | ProgressUpdateMsg language progress step =>
      match languageProgress m !! language with
      | Some p =>
          match h !! p with
          | Some prog =>
              Ok (<[p := setTracker prog progress step (ErrorMessage prog)]> h,
                  m, progressUpdateTicker)
          | None => Panic "invalid memory address or nil pointer dereference"
          end
      | None => Ok (h, m, progressUpdateTicker)
      end
  | InstallCompleteMsg _ => Ok (h, withState m "complete", [])
  | InstallErrorMsg _ _ => Ok (h, m, [])
  | OtherMsg => Ok (h, m, [])
  end.

(** [m.userChoices[lang]]: a missing key reads as the empty string. *)
Definition choiceOf (choices : gmap string string) (lang : string) : string :=
  default EmptyString (choices !! lang).

(** The integer part of a float, when it is finite and an [int] of 64
    bits holds it: the value of the conversion [int(f)] in that case. *)
Definition truncate (f : float) : option Z :=
  match Prim2SF f with
  | S754_zero _ => Some 0%Z
  | S754_finite sign m e =>
      let magnitude :=
        if (0 <=? e)%Z then (Z.pos m * 2 ^ e)%Z else (Z.pos m / 2 ^ (- e))%Z in
      let z := if sign then (- magnitude)%Z else magnitude in
      if ((- 2 ^ 63 <=? z) && (z <? 2 ^ 63))%Z then Some z else None
  | S754_infinity _ | S754_nan => None
  end.

(** [int(f)], [int] being 64 bits wide. *)
Definition int `{GoEnv} (f : float) : Z :=
  match truncate f with
  | Some z => z
  | None => IntOutOfRange f
  end.

(** [renderProgressBar], for the two counts it gives to [strings.Repeat]:
    the filled and the empty part of the bar. [strings.Repeat] panics on a
    negative count. The percentage that follows the bar is formatted by
    [fmt.Sprintf], which does not panic. *)
Definition renderProgressBar `{GoEnv} (progress : float) (width : nat)
  : Result (Z * Z) :=
  let filled := int (float64 width * progress)%float in
  let filled := if (filled >? Z.of_nat width)%Z then Z.of_nat width else filled in
  let empty := (Z.of_nat width - filled)%Z in
  if (filled <? 0)%Z then Panic "strings: negative Repeat count"
  else if (empty <? 0)%Z then Panic "strings: negative Repeat count"
  else Ok (filled, empty).

(** The loop of [renderInstallationProgress], for what it does to the
    shared state and for its panics: a tracker is created for every
    non-skipped language that has none, each tracker is read under its
    lock, and a bar of width 30 is drawn for the progress read. *)
Fixpoint renderTrackers `{GoEnv} (langs : list string)
    (choices : gmap string string) (h : Heap) (trackers : gmap string ptr)
  : Result (Heap * gmap string ptr) :=
  match langs with
  | [] => Ok (h, trackers)
  | lang :: rest =>
      if choiceOf choices lang =? "skip" then
        renderTrackers rest choices h trackers
      else
        let '(h1, trackers1) :=
          match trackers !! lang with
          | Some _ => (h, trackers)
          | None => (h ++ [newTracker lang], <[lang := length h]> trackers)
          end in
        match trackers1 !! lang ≫= (h1 !!.) with
        | Some prog =>
            match renderProgressBar (Progress prog) 30 with
            | Ok _ => renderTrackers rest choices h1 trackers1
            | Panic reason => Panic reason
            end
        | None => Panic "invalid memory address or nil pointer dereference"
        end
  end.

Definition renderInstallationProgress `{GoEnv} (h : Heap)
    (m : DownloadInstallModel) : Result (Heap * DownloadInstallModel) :=
  match renderTrackers (selectedLanguages m) (userChoices m) h
          (languageProgress m) with
  | Ok (h1, trackers) => Ok (h1, withTrackers m trackers)
  | Panic reason => Panic reason
  end.

(** [View], for what it does to the shared state and for its panics
    (map and slice accesses, the counts of the progress bar); the text it
    returns is the business of the presentation layer. In the prompting
    state the status lines skip nil statuses, and the prompt dereferences
    the status of the item at the cursor. *)
Definition View `{GoEnv} (h : Heap) (m : DownloadInstallModel)
  : Result (Heap * DownloadInstallModel) :=
  if state m =? "checking" then Ok (h, m)
  else if state m =? "prompting" then
    match selectedLanguages m !! currentIndex m with
    | None => Ok (h, m)
    | Some lang =>
        match installationStatus m !! lang with
        | Some _ => Ok (h, m)
        | None => Panic "invalid memory address or nil pointer dereference"
        end
    end
  else if state m =? "installing" then renderInstallationProgress h m
  else Ok (h, m).

(** ** The program under the Bubble Tea runtime

    The runtime is not part of the repository; the program is run under
    it as its documentation describes. Messages are handled one at a time:
    the runtime calls [Update] on the model it holds, keeps the model
    [Update] returns, starts the commands it returns, and renders the new
    model with [View]. The commands of a batch run concurrently and each
    delivers its message when it completes, in any order; [tea.Quit] ends
    the program. Worker goroutines advance one action at a time, in any
    interleaving with the messages; a locked section is one action, and
    the poll tick reads the trackers in one step. The write of a result,
    [results[language] = r], is not one step: the map is shared by the
    workers of a run and written without a lock, and Go's runtime aborts
    the program when one goroutine enters the assignment while another is
    inside it. An unlocked write to a field of a tracker is taken to be
    seen whole, before or after, by a reader it races with. *)

(** A worker goroutine: the language and tracker it was started with, the
    [results] map it writes to, the actions it has still to perform, and
    whether it is inside the assignment [results[language] = r] that
    heads them. *)
Record Goroutine := {
  language : string;
  prog : ptr;
  job : nat;
  todo : list Action;
  writing : bool
}.

(** The running program: the model the runtime holds, the heap of
    trackers, the commands in flight, the worker goroutines, the [results]
    map of each background goroutine started so far, and whether the
    program has quit. *)
Record System := {
  model : DownloadInstallModel;
  heap : Heap;
  commands : list Command1;
  goroutines : list Goroutine;
  results : list (gmap string string);
  exited : bool
}.

(** What can happen next: a key press, the completion of the [i]th command
    in flight, a step of the [j]th goroutine, or a message of the runtime
    that [Update] has no case for. *)
Inductive Event :=
| EvKey (key : string)
| EvCommand (i : nat)
| EvWork (j : nat)
| EvOther.

(** What an event leads to: the program goes on, it crashes on a panic,
    or the event cannot happen in this state. *)
Inductive Outcome :=
| Running (s : System)
| Crashed (reason : string)
| Disabled.

(** The first loop of the closure in [installSelectedLanguagesWithProgress]:
    one fresh tracker for every language whose choice is not ["skip"]. *)
Definition createTrackers (languages : list string)
    (choices : gmap string string) (h : Heap) : Heap * gmap string ptr :=
  foldl (λ acc lang,
           if choiceOf choices lang =? "skip" then acc
           else (acc.1 ++ [newTracker lang], <[lang := length acc.1]> acc.2))
        (h, ∅) languages.

Section Runtime.
Context `{GoEnv}.

(** The second loop, run by the background goroutine: a skipped language
    is recorded as such, any other gets a worker goroutine on its
    tracker. A language without tracker would hand the worker a nil
    pointer, here the pointer past the heap. *)
Definition spawnWorkers (j : nat) (languages : list string)
    (choices : gmap string string) (h : Heap) (trackers : gmap string ptr)
  : list Goroutine :=
  flat_map (λ lang,
              let choice := choiceOf choices lang in
              if choice =? "skip" then []
              else [{| language := lang;
                       prog := default (length h) (trackers !! lang);
                       job := j; todo := worker lang choice;
                       writing := false |}])
           languages.

Definition skippedResults (languages : list string)
    (choices : gmap string string) : gmap string string :=
  foldl (λ res lang,
           if choiceOf choices lang =? "skip" then <[lang := "skipped"]> res
           else res)
        ∅ languages.

(** The runtime hands a message to [Update] and renders the new model. *)
Definition handle (s : System) (pending : list Command1) (msg : Msg)
  : Outcome :=
  match Update (heap s) (model s) msg with
  | Panic reason => Crashed reason
  | Ok (h1, m1, cmd) =>
      match View h1 m1 with
      | Panic reason => Crashed reason
      | Ok (h2, m2) =>
          Running {| model := m2; heap := h2; commands := pending ++ cmd;
                     goroutines := goroutines s; results := results s;
                     exited := false |}
      end
  end.

(** The completion of a command: [tea.Quit] ends the program, the probe
    delivers the status map, the install closure creates the trackers,
    starts the workers and delivers the trackers, the ticker delivers a
    tick. The loop that starts the workers, with its writes for the
    skipped languages, is taken as one step, before any worker moves. *)
Definition deliver (s : System) (pending : list Command1) (c : Command1)
  : Outcome :=
  match c with
  | CmdQuit =>
      Running {| model := model s; heap := heap s; commands := pending;
                 goroutines := goroutines s; results := results s;
                 exited := true |}
  | CmdCheck languages =>
      handle s pending (InstallationStatusMsg (checkInstalledLanguages languages))
  | CmdInstall languages choices status =>
      let '(h1, trackers) := createTrackers languages choices (heap s) in
      let started :=
        {| model := model s; heap := h1; commands := commands s;
           goroutines :=
             goroutines s ++
             spawnWorkers (length (results s)) languages choices h1 trackers;
           results := results s ++ [skippedResults languages choices];
           exited := false |} in
      handle started pending (InitProgressMsg trackers)
  | CmdTicker => handle s pending ProgressTickMsg
  end.

End Runtime.

(** Actions that do not touch the tracker. *)
Definition inert (a : Action) : bool :=
  match a with
  | Sleep _ | Println _ | RunCommand _ | SetResult _ _ => true
  | _ => false
  end.

(** The assignments to the [results] map. *)
Definition isResultWrite (a : Action) : bool :=
  match a with SetResult _ _ => true | _ => false end.

(** The flag [hashWriting] of the [results] map of job [j]. The map
    assignment of Go's runtime tests the flag on entry, aborts with
    "concurrent map writes" when it is set, sets it, does the assignment,
    and clears it on leaving: the flag is set exactly while a goroutine is
    inside an assignment to the map. The test and the setting of the flag
    are taken as one step. *)
Definition hashWriting (gs : list Goroutine) (j : nat) : bool :=
  existsb (λ g, (job g =? j)%nat && writing g) gs.

(** One step of a goroutine: one action, or one half of the assignment
    [results[language] = r]. A goroutine at such an assignment first
    enters it, which aborts the program when the flag of the map is set,
    and at its next step does the write and leaves. *)
Definition work (s : System) (j : nat) : Outcome :=
  match goroutines s !! j with
  | Some g =>
      match todo g with
      | [] => Disabled
      | a :: rest =>
          if isResultWrite a && negb (writing g) then
            if hashWriting (goroutines s) (job g)
            then Crashed "concurrent map writes"
            else
              let g1 := {| language := language g; prog := prog g;
                           job := job g; todo := todo g; writing := true |} in
              Running {| model := model s; heap := heap s;
                         commands := commands s;
                         goroutines := <[j := g1]> (goroutines s);
                         results := results s; exited := false |}
          else
            let g1 := {| language := language g; prog := prog g; job := job g;
                         todo := rest; writing := false |} in
            let res := alter (λ r, applyResult r a) (job g) (results s) in
            match heap s !! prog g with
            | Some t =>
                Running {| model := model s;
                           heap := <[prog g := applyAction t a]> (heap s);
                           commands := commands s;
                           goroutines := <[j := g1]> (goroutines s);
                           results := res; exited := false |}
            | None =>
                if inert a then
                  Running {| model := model s; heap := heap s;
                             commands := commands s;
                             goroutines := <[j := g1]> (goroutines s);
                             results := res; exited := false |}
                else Crashed "invalid memory address or nil pointer dereference"
            end
      end
  | None => Disabled
  end.

Section Steps.
Context `{GoEnv}.

Definition step (s : System) (e : Event) : Outcome :=
  if exited s then Disabled
  else match e with
       | EvKey key => handle s (commands s) (KeyMsg key)
       | EvOther => handle s (commands s) OtherMsg
       | EvCommand i =>
           match commands s !! i with
           | Some c => deliver s (delete i (commands s)) c
           | None => Disabled
           end
       | EvWork j => work s j
       end.

(** A run: the events in the order in which they happen. *)
Fixpoint exec (s : System) (events : list Event) : Outcome :=
  match events with
  | [] => Running s
  | e :: rest =>
      match step s e with
      | Running s1 => exec s1 rest
      | stop => stop
      end
  end.


(** The program started on a selection: the new model and the command of
    its [Init]. *)
Definition start (selected : list string) : System :=
  let m := NewDownloadInstallModel selected in
  {| model := m; heap := []; commands := Init m; goroutines := [];
     results := []; exited := false |}.

End Steps.



(** ** A concrete environment

    An instance of [GoEnv] to run the model on: a Linux machine on which
    Go 1.20 is installed and nothing else is, and on which every
    installation command succeeds but those of [apt-get]. The string
    functions are those of Go on ASCII text, and the conversion of a float
    that [int] cannot hold gives the least [int], as on amd64. *)
Module Linux.

Definition lowerByte (c : ascii) : ascii :=
  let n := nat_of_ascii c in
  if (65 <=? n)%nat && (n <=? 90)%nat then ascii_of_nat (n + 32) else c.

Fixpoint lower (s : string) : string :=
  match s with
  | EmptyString => EmptyString
  | String c rest => String (lowerByte c) (lower rest)
  end.

Definition isSpace (c : ascii) : bool :=
  let n := nat_of_ascii c in
  ((9 <=? n)%nat && (n <=? 13)%nat) || (n =? 32)%nat.

Fixpoint trimLeft (s : string) : string :=
  match s with
  | String c rest => if isSpace c then trimLeft rest else s
  | EmptyString => EmptyString
  end.

Definition trim (s : string) : string :=
  String.rev (trimLeft (String.rev (trimLeft s))).

Definition output (cmd : exec_Cmd) : string * error :=
  if Path cmd =? "go" then
    ("go version go1.20 linux/amd64" +:+ String newline EmptyString, None)
  else (EmptyString, Some "executable file not found in $PATH").

Definition run (cmd : exec_Cmd) : error :=
  if Path cmd =? "apt-get" then Some "exit status 100" else None.

Definition env : GoEnv :=
  {| GOOS := "linux"; ToLower := lower; TrimSpace := trim;
     CombinedOutput := output; Run := run;
     IntOutOfRange := λ _, (- 2 ^ 63)%Z |}.

End Linux.

(** ** Vocabulary of the properties *)

(** The first line of a text: what precedes its first newline. *)
Fixpoint firstLine (s : string) : string :=
  match s with
  | EmptyString => EmptyString
  | String c rest =>
      if Ascii.eqb c newline then EmptyString else String c (firstLine rest)
  end.

(** The toolchains that have runners, as the dispatchers spell them. *)
Definition toolchains : list string := ["go"; "python"; "rust"; "c++"; "java"].

(** The result a worker records on success. *)
Definition doneWord (choice : string) : string :=
  if choice =? "install" then "installed" else "updated".

(** A tracker that ends the polling: its progress is 1.0 (as every tracker
    the worker marks complete has it) or its step is the error step. *)
Definition terminal (t : LanguageProgress) : Prop :=
  Progress t = 1%float ∨ CurrentStep t = "error".

(** The trackers the model holds pointers to, and the absence of nil
    pointers among them. *)
Definition tracked (h : Heap) (m : DownloadInstallModel) (t : LanguageProgress)
  : Prop :=
  ∃ lang p, languageProgress m !! lang = Some p ∧ h !! p = Some t.

Definition noNilTracker (h : Heap) (m : DownloadInstallModel) : Prop :=
  ∀ lang p, languageProgress m !! lang = Some p → is_Some (h !! p).

(** [n] poll ticks in a row: the final heap and model, and the command
    each tick returned. *)
Fixpoint pollAll (n : nat) (h : Heap) (m : DownloadInstallModel)
  : Result (Heap * DownloadInstallModel * list Cmd) :=
  match n with
  | 0 => Ok (h, m, [])
  | S k =>
      match Update h m ProgressTickMsg with
      | Ok (h1, m1, cmd) =>
          match pollAll k h1 m1 with
          | Ok (h2, m2, cmds) => Ok (h2, m2, cmd :: cmds)
          | Panic reason => Panic reason
          end
      | Panic reason => Panic reason
      end
  end.

(** The choice a prompting key records for an item of given status. *)
Definition decision (key : string) (status : InstallationStatus) : string :=
  if (key =? "y") || (key =? "enter") then getDefaultChoice status
  else if key =? "n" then "skip"
  else "update".

Definition promptKeys : list string := ["y"; "enter"; "n"; "u"].

(** What a run lets one see: the state, the trackers the model points
    to (progress, step and error message of each) and what every
    goroutine has still to do. *)
Definition trackerView (h : Heap) (entry : string * ptr)
  : string * option (float * string * string) :=
  (entry.1, (λ t, (Progress t, CurrentStep t, ErrorMessage t)) <$> h !! entry.2).

Definition observe (o : Outcome)
  : option (string * list (string * option (float * string * string)) *
            list (list Action)) :=
  match o with
  | Running s =>
      Some (state (model s),
            trackerView (heap s) <$> map_to_list (languageProgress (model s)),
            todo <$> goroutines s)
  | _ => None
  end.

(** A run on the Linux machine with Rust selected: the probe completes,
    the default (install) is confirmed, the install closure and the first
    ticker complete, and the worker performs its first seven actions,
    up to the write that follows the step loop. *)
Definition rustAlmostInstalled : list Event :=
  [EvCommand 0; EvKey "y"; EvCommand 0; EvCommand 0] ++ repeat (EvWork 0) 7.

(** A tracker as the Rust runner leaves it before it runs its command, and
    a model in the installing state that points to it. *)
Definition configuring : LanguageProgress :=
  setTracker (newTracker "Rust") 1 "Configuring environment..." EmptyString.

Definition installingRust : DownloadInstallModel :=
  {| selectedLanguages := ["Rust"]; installationStatus := ∅;
     currentIndex := 1; state := "installing";
     userChoices := {["Rust" := "install"]};
     languageProgress := {["Rust" := 0]} |}.

(** The runner the worker calls for a choice. *)
Definition runnerOf `{GoEnv} (language choice : string) : Runner :=
  if choice =? "install" then installLanguageWithProgress language
  else updateLanguageWithProgress language.

(** The contract of the worker of a supported toolchain. There are three
    named [steps], the last of them [label], and a
    command [cmd] such that the worker announces step [i] by writing
    progress [i/3] and the step's name under the tracker's lock, marks
    progress 1.0 under the lock once the loop is over, runs [cmd] (on
    macOS the Python installer prints a line [before] it), and then
    concludes: on an error [e] of the command the result of the language
    is the error, the step is the error step and the error message is [e];
    on success the result is the word for the choice, the step is the
    complete step and progress is 1.0. The update of Go alone first goes
    through three steps [steps0] of its own, in the same manner, and then
    through those of the Go installer. *)
Definition workerSpec `{GoEnv} (language choice : string) : Prop :=
  ∃ (steps : list string) (label : string) (before : list Action)
    (cmd : exec_Cmd),
    length steps = 3 ∧ last steps = Some label ∧
    Forall (λ a, ∃ line, a = Println line) before ∧
    (∀ i step, steps !! i = Some step →
       announce steps !! (2 * i) =
         Some (Locked (float64 i / float64 3)%float step)) ∧
    (if (ToLower language =? "go") && (choice =? "update") then
       ∃ (steps0 : list string) (label0 : string),
         length steps0 = 3 ∧ last steps0 = Some label0 ∧
         (∀ i step, steps0 !! i = Some step →
            announce steps0 !! (2 * i) =
              Some (Locked (float64 i / float64 3)%float step)) ∧
         worker language choice =
           announce steps0 ++ Locked 1 label0 ::
           announce steps ++ Locked 1 label ::
           before ++ RunCommand cmd ::
           conclude language (doneWord choice) (Run cmd)
     else
       worker language choice =
         announce steps ++ Locked 1 label ::
         before ++ RunCommand cmd ::
         conclude language (doneWord choice) (Run cmd)) ∧
    (runnerOf language choice).2 = Run cmd ∧
    (∀ e, Run cmd = Some e →
       conclude language (doneWord choice) (Run cmd) =
         [SetResult language (errorResult e); SetCurrentStep "error";
          SetErrorMessage e]) ∧
    (Run cmd = None →
       conclude language (doneWord choice) (Run cmd) =
         [SetResult language (doneWord choice); SetCurrentStep "complete";
          SetProgress 1]) ∧
    (∀ t, let t' := runActions t (worker language choice) in
          match Run cmd with
          | Some e => CurrentStep t' = "error" ∧ ErrorMessage t' = e
          | None => Progress t' = 1%float ∧ CurrentStep t' = "complete"
          end).

(** One state follows another when it is the same or the next one of the
    lifecycle. *)
Definition follows (a b : string) : Prop :=
  a = b ∨
  (a = "checking" ∧ b = "prompting") ∨
  (a = "prompting" ∧ b = "installing") ∨
  (a = "installing" ∧ b = "complete").


Definition isQuit (c : Command1) : Prop := c = CmdQuit.

Definition notCheck (c : Command1) : Prop :=
  match c with CmdCheck _ => False | _ => True end.

(** What holds of the model and of the commands in flight all along a run
    on the selection [languages]. While checking, the probe is the one
    command in flight besides quits, and nothing is decided. While
    prompting, only quits are in flight, the statuses are those of the
    probe, the cursor is within the selection (on it, when there is one)
    and the languages decided are those before the cursor. From then on no
    probe is in flight. *)
Definition Inv `{GoEnv} (languages : list string) (m : DownloadInstallModel)
    (cmds : list Command1) : Prop :=
  selectedLanguages m = languages ∧
  ((state m = "checking" ∧
    (∃ quits, cmds = CmdCheck languages :: quits ∧ Forall isQuit quits) ∧
    currentIndex m = 0 ∧ userChoices m = ∅) ∨
   (state m = "prompting" ∧ Forall isQuit cmds ∧
    installationStatus m = checkInstalledLanguages languages ∧
    (currentIndex m ≤ length languages)%nat ∧
    (languages ≠ [] → (currentIndex m < length languages)%nat) ∧
    dom (userChoices m) = list_to_set (take (currentIndex m) languages)) ∨
   ((state m = "installing" ∨ state m = "complete") ∧ Forall notCheck cmds)).

(** The program while it prompts for the item at [i], with no command in
    flight, and once it has entered the installing state with the
    decisions [choices]. *)
Definition promptingAt (languages : list string)
    (status : gmap string InstallationStatus) (i : nat)
    (choices : gmap string string) : System :=
  {| model := {| selectedLanguages := languages; installationStatus := status;
                 currentIndex := i; state := "prompting";
                 userChoices := choices; languageProgress := ∅ |};
     heap := []; commands := []; goroutines := []; results := [];
     exited := false |}.



(** ** The variant without progress: [downloadinstall.go] of package main

    The same orchestrator with one install command that runs the
    installations one after the other and reports when all are done. *)
Module Plain.

Section Installers.
Context `{GoEnv}.

Definition installGo : Runner :=
  runCommand (Command "bash"
    ["-c"; "curl -L https://go.dev/dl/go1.25.5.darwin-arm64.tar.gz -o go1.25.5.tar.gz && tar -C /usr/local -xzf go1.25.5.tar.gz"]).

Definition installPython : Runner :=
  if GOOS =? "darwin" then runCommand (Command "brew" ["install"; "python@3.13"])
  else runCommand (Command "apt-get" ["install"; "-y"; "python3"]).

Definition installRust : Runner :=
  runCommand (Command "bash"
    ["-c"; "curl --proto '=https' --tlsv1.2 -sSf https://sh.rustup.rs | sh -s -- -y"]).

Definition installCpp : Runner :=
  if GOOS =? "darwin" then runCommand (Command "xcode-select" ["--install"])
  else runCommand (Command "apt-get" ["install"; "-y"; "build-essential"]).

Definition installJava : Runner :=
  if GOOS =? "darwin" then runCommand (Command "brew" ["install"; "openjdk@21"])
  else runCommand (Command "apt-get" ["install"; "-y"; "openjdk-21-jdk"]).

(** [updateGo]: "Go update is similar to install". *)
Definition updateGo : Runner := installGo.

Definition updatePython : Runner :=
  if GOOS =? "darwin" then runCommand (Command "brew" ["upgrade"; "python@3.13"])
  else runCommand (Command "apt-get" ["upgrade"; "-y"; "python3"]).

Definition updateRust : Runner := runCommand (Command "rustup" ["update"]).

Definition updateCpp : Runner :=
  if GOOS =? "darwin" then runCommand (Command "softwareupdate" ["-i"; "-a"])
  else runCommand (Command "apt-get" ["upgrade"; "-y"]).

Definition updateJava : Runner :=
  if GOOS =? "darwin" then runCommand (Command "brew" ["upgrade"; "openjdk@21"])
  else runCommand (Command "apt-get" ["upgrade"; "-y"; "openjdk-21-jdk"]).

(** [installLanguage]. *)
Definition installLanguage (language : string) : Runner :=
  let l := ToLower language in
  if l =? "go" then installGo
  else if l =? "python" then installPython
  else if l =? "rust" then installRust
  else if l =? "c++" then installCpp
  else if l =? "java" then installJava
  else ([], Some (unsupported language)).

(** [updateLanguage]. *)
Definition updateLanguage (language : string) : Runner :=
  let l := ToLower language in
  if l =? "go" then updateGo
  else if l =? "python" then updatePython
  else if l =? "rust" then updateRust
  else if l =? "c++" then updateCpp
  else if l =? "java" then updateJava
  else ([], Some (unsupported language)).

(** The result recorded for a runner that returned [err]. *)
Definition resultOf (done : string) (err : error) : string :=
  match err with
  | Some e => errorResult e
  | None => done
  end.

(** One round of the loop of [installSelectedLanguages]: the actions
    performed so far and the [results] map. *)
Definition installOne (choices : gmap string string)
    (acc : list Action * gmap string string) (lang : string)
  : list Action * gmap string string :=
  let choice := choiceOf choices lang in
  if choice =? "skip" then (acc.1, <[lang := "skipped"]> acc.2)
  else if choice =? "install" then
    let r := installLanguage lang in
    (acc.1 ++ r.1, <[lang := resultOf "installed" r.2]> acc.2)
  else if choice =? "update" then
    let r := updateLanguage lang in
    (acc.1 ++ r.1, <[lang := resultOf "updated" r.2]> acc.2)
  else acc.

(** The body of the command [installSelectedLanguages] returns: the
    commands it runs, in order, and the results carried by its
    [InstallCompleteMsg]. *)
Definition installSelectedLanguages (languages : list string)
    (choices : gmap string string) : list Action * gmap string string :=
  foldl (installOne choices) ([], ∅) languages.

End Installers.

(** [DownloadInstallModel] of package main: no trackers. *)
Record DownloadInstallModel := {
  selectedLanguages : list string;
  installationStatus : gmap string InstallationStatus;
  currentIndex : nat;
  state : string;
  userChoices : gmap string string
}.

Inductive Msg :=
| KeyMsg (key : string)
| InstallationStatusMsg (Status : gmap string InstallationStatus)
| InstallCompleteMsg (Results : gmap string string)
| InstallErrorMsg (language err : string)
| OtherMsg.

Inductive Command1 :=
| CmdQuit
| CmdCheck (languages : list string)
| CmdInstall (languages : list string) (choices : gmap string string)
             (status : gmap string InstallationStatus).

Definition NewDownloadInstallModel (selected : list string)
  : DownloadInstallModel :=
  {| selectedLanguages := selected; installationStatus := ∅;
     currentIndex := 0; state := "checking"; userChoices := ∅ |}.

(** The body shared by the three prompting cases of [Update]. *)
Definition prompt (m : DownloadInstallModel) (choose : string → Result string)
  : Result (DownloadInstallModel * list Command1) :=
  if state m =? "prompting" then
    match selectedLanguages m !! currentIndex m with
    | Some lang =>
        match choose lang with
        | Ok choice =>
            let choices := <[lang := choice]> (userChoices m) in
            let next := S (currentIndex m) in
            if (length (selectedLanguages m) <=? next)%nat then
              Ok ({| selectedLanguages := selectedLanguages m;
                     installationStatus := installationStatus m;
                     currentIndex := next; state := "installing";
                     userChoices := choices |},
                  [CmdInstall (selectedLanguages m) choices
                     (installationStatus m)])
            else
              Ok ({| selectedLanguages := selectedLanguages m;
                     installationStatus := installationStatus m;
                     currentIndex := next; state := state m;
                     userChoices := choices |}, [])
        | Panic reason => Panic reason
        end
    | None => Panic "index out of range"
    end
  else Ok (m, []).

(** [Update] of package main. *)
Definition Update (m : DownloadInstallModel) (msg : Msg)
  : Result (DownloadInstallModel * list Command1) :=
  match msg with
  | KeyMsg key =>
      if (key =? "ctrl+c") || (key =? "q") then Ok (m, [CmdQuit])
      else if (key =? "y") || (key =? "enter") then
        prompt m (λ lang,
                    match installationStatus m !! lang with
                    | Some st => Ok (getDefaultChoice st)
                    | None =>
                        Panic "invalid memory address or nil pointer dereference"
                    end)
      else if key =? "n" then prompt m (λ _, Ok "skip")
      else if key =? "u" then prompt m (λ _, Ok "update")
      else Ok (m, [])
  | InstallationStatusMsg st =>
      Ok ({| selectedLanguages := selectedLanguages m; installationStatus := st;
             currentIndex := currentIndex m; state := "prompting";
             userChoices := userChoices m |}, [])
  | InstallCompleteMsg _ =>
      Ok ({| selectedLanguages := selectedLanguages m;
             installationStatus := installationStatus m;
             currentIndex := currentIndex m; state := "complete";
             userChoices := userChoices m |}, [])
  | InstallErrorMsg _ _ => Ok (m, [])
  | OtherMsg => Ok (m, [])
  end.

End Plain.




(** [formatPrompt], on a non-nil status. *)
Definition formatPrompt (language : string) (status : InstallationStatus)
  : string :=
  let nl := String newline EmptyString in
  if negb (Installed status) then
    language +:+ " is not installed." +:+ nl +:+ "(i) Install" +:+ nl +:+
    "(s) Skip" +:+ nl
  else if Version status =? LatestVersion status then
    language +:+ " is installed (version: " +:+ Version status +:+ ")." +:+ nl +:+
    "(s) Skip" +:+ nl +:+ "(r) Reinstall" +:+ nl
  else
    language +:+ " is installed (current: " +:+ Version status +:+
    ", latest: " +:+ LatestVersion status +:+ ")." +:+ nl +:+
    "(u) Update" +:+ nl +:+ "(s) Skip" +:+ nl.

(** ** The menu and the main model

    A [tea.Model] of the program is the menu ([Decor]) or the
    orchestrator. *)
Module Menu.

(** [Decor]: the choices, the cursor and the set of selected indices (the
    keys of the map [Selected]). The embedded [tea.Model] is never set. *)
Record Decor := {
  choices : list string;
  cursor : Z;
  Selected : gset Z
}.

(** [InitialModel]. *)
Definition InitialModel : Decor :=
  {| choices := ["Go"; "Python"; "Rust"; "C++"; "Java"]; cursor := 0;
     Selected := ∅ |}.

(** [m.choices[index]]. *)
Definition choiceAt (m : Decor) (index : Z) : Result string :=
  if (index <? 0)%Z then Panic "index out of range"
  else match choices m !! Z.to_nat index with
       | Some choice => Ok choice
       | None => Panic "index out of range"
       end.

(** [Selections]. Go ranges over the map [Selected] in an order of its
    own choosing, which is the argument [order]: some arrangement of the
    keys of the map. *)
Fixpoint Selections (order : list Z) (m : Decor) : Result (list string) :=
  match order with
  | [] => Ok []
  | index :: rest =>
      match choiceAt m index with
      | Ok choice =>
          match Selections rest m with
          | Ok selected => Ok (choice :: selected)
          | Panic reason => Panic reason
          end
      | Panic reason => Panic reason
      end
  end.

Definition withCursor (m : Decor) (c : Z) : Decor :=
  {| choices := choices m; cursor := c; Selected := Selected m |}.

Definition withSelected (m : Decor) (sel : gset Z) : Decor :=
  {| choices := choices m; cursor := cursor m; Selected := sel |}.

End Menu.

(** The two models a [tea.Model] of the program can be. *)
Inductive Screen :=
| MenuScreen (d : Menu.Decor)
| InstallScreen (m : DownloadInstallModel).

(** [Update] of [Decor]. The key "n" prints the selection and hands over
    to a new orchestrator, with no command. *)
Definition menuUpdate (order : list Z) (m : Menu.Decor) (msg : Msg)
  : Result (Screen * Cmd) :=
  match msg with
  | KeyMsg key =>
      if (key =? "ctrl+c") || (key =? "q") then Ok (MenuScreen m, [CmdQuit])
      else if (key =? "up") || (key =? "k") then
        if (Menu.cursor m >? 0)%Z
        then Ok (MenuScreen (Menu.withCursor m (Menu.cursor m - 1)), [])
        else Ok (MenuScreen m, [])
      else if (key =? "down") || (key =? "j") then
        if (Menu.cursor m <? Z.of_nat (length (Menu.choices m)) - 1)%Z
        then Ok (MenuScreen (Menu.withCursor m (Menu.cursor m + 1)), [])
        else Ok (MenuScreen m, [])
      else if key =? "n" then
        match Menu.Selections order m with
        | Ok selected => Ok (InstallScreen (NewDownloadInstallModel selected), [])
        | Panic reason => Panic reason
        end
      else if (key =? "enter") || (key =? " ") then
        if bool_decide (Menu.cursor m ∈ Menu.Selected m)
        then Ok (MenuScreen
                   (Menu.withSelected m (Menu.Selected m ∖ {[Menu.cursor m]})),
                 [])
        else Ok (MenuScreen
                   (Menu.withSelected m ({[Menu.cursor m]} ∪ Menu.Selected m)),
                 [])
      else Ok (MenuScreen m, [])
  | _ => Ok (MenuScreen m, [])
  end.

Module App.

(** [MainModel]. *)
Record MainModel := {
  activeModel : Screen;
  models : list Screen;
  currentModelIdx : Z
}.

(** [InitialModel]: the menu alone. *)
Definition InitialModel : MainModel :=
  {| activeModel := MenuScreen Menu.InitialModel;
     models := [MenuScreen Menu.InitialModel]; currentModelIdx := 0 |}.

(** [m.activeModel.Update(msg)]. *)
Definition activeUpdate (order : list Z) (h : Heap) (active : Screen)
    (msg : Msg) : Result (Heap * Screen * Cmd) :=
  match active with
  | MenuScreen d =>
      match menuUpdate order d msg with
      | Ok (updated, cmd) => Ok (h, updated, cmd)
      | Panic reason => Panic reason
      end
  | InstallScreen m =>
      match Update h m msg with
      | Ok (h1, m1, cmd) => Ok (h1, InstallScreen m1, cmd)
      | Panic reason => Panic reason
      end
  end.

(** [m.models[i]] for an [int] index. *)
Definition modelAt (l : list Screen) (i : Z) : option Screen :=
  if (i <? 0)%Z then None else l !! Z.to_nat i.

(** The end of [Update]: the message goes to the active model, which is
    replaced, in the list as well, by the model it returns. *)
Definition forward (order : list Z) (h : Heap) (m : MainModel) (msg : Msg)
  : Result (Heap * MainModel * Cmd) :=
  match activeUpdate order h (activeModel m) msg with
  | Ok (h1, updated, cmd) =>
      match modelAt (models m) (currentModelIdx m) with
      | Some _ =>
          Ok (h1,
              {| activeModel := updated;
                 models := <[Z.to_nat (currentModelIdx m) := updated]> (models m);
                 currentModelIdx := currentModelIdx m |},
              cmd)
      | None => Panic "index out of range"
      end
  | Panic reason => Panic reason
  end.

(** [Update] of [MainModel]. On "n" with no next model, the active model
    is asserted to be a [Decor]; its selection makes the orchestrator,
    whose [Init] is returned. *)
Definition Update (order : list Z) (h : Heap) (m : MainModel) (msg : Msg)
  : Result (Heap * MainModel * Cmd) :=
  match msg with
  | KeyMsg key =>
      if (key =? "ctrl+c") || (key =? "q") then Ok (h, m, [CmdQuit])
      else if key =? "n" then
        if (currentModelIdx m + 1 >? Z.of_nat (length (models m)) - 1)%Z then
          match activeModel m with
          | MenuScreen d =>
              match Menu.Selections order d with
              | Ok selected =>
                  let newModel := NewDownloadInstallModel selected in
                  let all := models m ++ [InstallScreen newModel] in
                  Ok (h,
                      {| activeModel := InstallScreen newModel; models := all;
                         currentModelIdx := Z.of_nat (length all) - 1 |},
                      Init newModel)
              | Panic reason => Panic reason
              end
          | InstallScreen _ =>
              Panic "interface conversion: tea.Model is models.DownloadInstallModel, not models.Decor"
          end
        else
          match modelAt (models m) (currentModelIdx m + 1) with
          | Some next =>
              forward order h
                {| activeModel := next; models := models m;
                   currentModelIdx := currentModelIdx m + 1 |} msg
          | None => Panic "index out of range"
          end
      else forward order h m msg
  | _ => forward order h m msg
  end.

End App.

(** ** Vocabulary of the further properties *)

(** The decisions the prompting handlers record. *)
Definition decisions : list string := ["install"; "update"; "skip"].

Definition isInstallCmd (c : Command1) : bool :=
  match c with CmdInstall _ _ _ => true | _ => false end.

(** The number of install closures among the commands in flight. *)
Fixpoint installsIn (cmds : list Command1) : nat :=
  match cmds with
  | [] => 0
  | c :: rest => (if isInstallCmd c then 1 else 0) + installsIn rest
  end.

(** The languages of a selection that are not skipped. *)
Definition nonSkipped (choices : gmap string string) (languages : list string)
  : list string :=
  filter (λ l, choiceOf choices l ≠ "skip") languages.

(** The progress values of one step loop and of the write that follows. *)
Definition thirds : list float :=
  [float64 0 / float64 3; float64 1 / float64 3; float64 2 / float64 3; 1]%float.

(** A tracker whose progress is one of those values, and a tracker whose
    progress bar can be drawn. *)
Definition steady (t : LanguageProgress) : Prop := Progress t ∈ thirds.

Definition drawable `{GoEnv} (t : LanguageProgress) : Prop :=
  ∃ counts, renderProgressBar (Progress t) 30 = Ok counts.

(** A goroutine in good standing: its tracker exists, its language is one
    of the selection, and what it has still to do is the rest of the
    worker of its language for the decision taken on it, an install or an
    update. *)
Definition goroutineOk `{GoEnv} (languages : list string)
    (choices : gmap string string) (h : Heap) (g : Goroutine) : Prop :=
  (prog g < length h)%nat ∧ language g ∈ languages ∧
  choiceOf choices (language g) ∈ ["install"; "update"] ∧
  todo g `suffix_of` worker (language g) (choiceOf choices (language g)).

(** An install closure in flight carries the selection and the decisions
    of the model. *)
Definition installOk (languages : list string) (m : DownloadInstallModel)
    (c : Command1) : Prop :=
  match c with
  | CmdInstall l choices _ => l = languages ∧ choices = userChoices m
  | _ => True
  end.

(** Decisions are among the three and are decisions on selected
    languages. *)
Definition choicesOk (languages : list string) (choices : gmap string string)
  : Prop :=
  ∀ l c, choices !! l = Some c → l ∈ languages ∧ c ∈ decisions.

(** Nothing is started before the installing state. From then on every
    selected language is decided, and either the install closure is in
    flight, once, and no worker runs, or it has run, once, and the
    workers are those of the languages not skipped, in the order of the
    selection, each on a tracker of its own when the selection has no
    repetition. *)
Definition phaseOk (languages : list string) (m : DownloadInstallModel)
    (cmds : list Command1) (gs : list Goroutine)
    (res : list (gmap string string)) : Prop :=
  ((state m = "checking" ∨ state m = "prompting") ∧
   installsIn cmds = 0 ∧ res = [] ∧ gs = []) ∨
  ((state m = "installing" ∨ state m = "complete") ∧
   dom (userChoices m) = list_to_set languages ∧
   ((installsIn cmds = 1 ∧ res = [] ∧ gs = []) ∨
    (installsIn cmds = 0 ∧ length res = 1 ∧
     language <$> gs = nonSkipped (userChoices m) languages ∧
     (NoDup languages → NoDup (prog <$> gs))))).

(** What holds of the whole program along a run on the selection
    [languages], besides [Inv]; in particular every tracker stands at one
    of the progress values the runners write, and every worker writes to
    the one [results] map of the run. *)
Definition Wf `{GoEnv} (languages : list string) (m : DownloadInstallModel)
    (h : Heap) (cmds : list Command1) (gs : list Goroutine)
    (res : list (gmap string string)) : Prop :=
  choicesOk languages (userChoices m) ∧
  (∀ l p, languageProgress m !! l = Some p → (p < length h)%nat) ∧
  Forall (goroutineOk languages (userChoices m) h) gs ∧
  Forall (installOk languages m) cmds ∧
  phaseOk languages m cmds gs res ∧
  Forall steady h ∧
  Forall (λ g, job g = 0) gs.

Definition Sound `{GoEnv} (languages : list string) (s : System) : Prop :=
  Inv languages (model s) (commands s) ∧
  Wf languages (model s) (heap s) (commands s) (goroutines s) (results s).

(** The progress values an action sequence writes, in order, and the
    commands it runs. *)
Definition progressWrites (actions : list Action) : list float :=
  omap (λ a, match a with
             | Locked p _ | SetProgress p => Some p
             | _ => None
             end) actions.

Definition commandsOf (actions : list Action) : list exec_Cmd :=
  omap (λ a, match a with RunCommand c => Some c | _ => None end) actions.

(** The options a prompt ends with, by default decision. *)
Definition promptOptions (choice : string) : string :=
  let nl := String newline EmptyString in
  if choice =? "install" then "(i) Install" +:+ nl +:+ "(s) Skip" +:+ nl
  else if choice =? "update" then "(u) Update" +:+ nl +:+ "(s) Skip" +:+ nl
  else "(s) Skip" +:+ nl +:+ "(r) Reinstall" +:+ nl.

(** A menu in good standing: distinct choices, the cursor on one of them,
    and only indices of choices selected. *)
Definition menuOk (m : Menu.Decor) : Prop :=
  NoDup (Menu.choices m) ∧
  (0 ≤ Menu.cursor m < Z.of_nat (length (Menu.choices m)))%Z ∧
  ∀ i, i ∈ Menu.Selected m →
       (0 ≤ i < Z.of_nat (length (Menu.choices m)))%Z.

(** A main model in good standing: the current model is the last of the
    list and is the active one, and a menu among its models is in good
    standing. *)
Definition appOk (m : App.MainModel) : Prop :=
  App.currentModelIdx m = (Z.of_nat (length (App.models m)) - 1)%Z ∧
  App.modelAt (App.models m) (App.currentModelIdx m) = Some (App.activeModel m) ∧
  match App.activeModel m with
  | MenuScreen d => menuOk d
  | InstallScreen _ => True
  end.

(** The results an action sequence records, in order. *)
Definition resultsOf (actions : list Action) : list (string * string) :=
  omap (λ a, match a with SetResult l r => Some (l, r) | _ => None end) actions.

(** The runner package main dispatches a language and a decision to. *)
Definition plainRunnerOf `{GoEnv} (language choice : string) : Runner :=
  if choice =? "install" then Plain.installLanguage language
  else Plain.updateLanguage language.

(** The result package main records for a language, by its decision. *)
Definition plainResult `{GoEnv} (choices : gmap string string) (lang : string)
  : option string :=
  let choice := choiceOf choices lang in
  if choice =? "skip" then Some "skipped"
  else if (choice =? "install") || (choice =? "update") then
    Some (Plain.resultOf (doneWord choice) (plainRunnerOf lang choice).2)
  else None.

(** The commands package main runs for a language, by its decision. *)
Definition plainCommands `{GoEnv} (choices : gmap string string) (lang : string)
  : list exec_Cmd :=
  let choice := choiceOf choices lang in
  if (choice =? "install") || (choice =? "update") then
    commandsOf (plainRunnerOf lang choice).1
  else [].


(** An order in which Go may range over the map [Selected] of the menu
    on screen: every key once. *)
Definition ranges (order : list Z) (screen : Screen) : Prop :=
  match screen with
  | MenuScreen d => order ≡ₚ elements (Menu.Selected d)
  | InstallScreen _ => True
  end.

(** Pointers of a tracker map that all point into the heap. *)
Definition valid (h : Heap) (trackers : gmap string ptr) : Prop :=
  ∀ l p, trackers !! l = Some p → (p < length h)%nat.

(** The one way a step of the program aborts on a selection that is not
    empty: a worker enters the assignment of its result while another
    worker of the run is inside its own. *)
Definition collision (s : System) (e : Event) : Prop :=
  ∃ j g l r rest,
    e = EvWork j ∧ goroutines s !! j = Some g ∧
    todo g = SetResult l r :: rest ∧ writing g = false ∧
    hashWriting (goroutines s) (job g) = true.

(** ** VersionProbe: properties *)

Lemma Split_firstLine (s : string) :
  ∃ lines, Split s newline = firstLine s :: lines.
Proof.
  induction s as [|c rest [lines IH]]; simpl.
  - by exists [].
  - destruct (Ascii.eqb c newline).
    + by exists (Split rest newline).
    + rewrite IH. by exists lines.
Qed.

Lemma parseVersion_firstLine `{GoEnv} (output language : string) :
  parseVersion output language = TrimSpace (firstLine output).
Proof.
  unfold parseVersion. by destruct (Split_firstLine output) as [lines ->].
Qed.

(** C5. The default decision: Install when the toolchain is not
    installed, Update when it is installed and its version differs from
    the latest one, Skip when it is installed and the two versions are
    equal. *)
Theorem getDefaultChoice_spec (status : InstallationStatus) :
  (Installed status = false → getDefaultChoice status = "install") ∧
  (Installed status = true → Version status ≠ LatestVersion status →
   getDefaultChoice status = "update") ∧
  (Installed status = true → Version status = LatestVersion status →
   getDefaultChoice status = "skip").
Proof.
  unfold getDefaultChoice. repeat split.
  - by intros ->.
  - intros -> Hne. simpl. by apply String.eqb_neq in Hne as ->.
  - intros -> Heq. simpl. by apply String.eqb_eq in Heq as ->.
Qed.

(** The stale-version scenario: Go 1.20 installed, 1.25.5 the latest. *)
Lemma getDefaultChoice_stale :
  getDefaultChoice
    {| Language := "go"; Installed := true; Version := "1.20";
       LatestVersion := "1.25.5"; Error := EmptyString |} = "update".
Proof.
  destruct (getDefaultChoice_spec
              {| Language := "go"; Installed := true; Version := "1.20";
                 LatestVersion := "1.25.5"; Error := EmptyString |})
    as (_ & Hstale & _).
  apply Hstale; [reflexivity | discriminate].
Defined.

(** C6. The probe is a total function whose status never carries an
    error. A language without detection command, and a detection command
    that fails, give [installed = false] and two empty versions. A
    detection command that succeeds gives the trimmed first line of its
    output as installed version, whatever that line is, and the entry of
    the static table as latest version, the empty string when the table
    has no entry. *)
Theorem checkLanguageInstallation_spec `{GoEnv} (language : string) :
  Error (probeStatus language) = EmptyString ∧
  (detectionCommand language = None →
   checkLanguageInstallation language = (false, EmptyString, EmptyString)) ∧
  (∀ cmd output e,
     detectionCommand language = Some cmd →
     CombinedOutput cmd = (output, Some e) →
     checkLanguageInstallation language = (false, EmptyString, EmptyString)) ∧
  (∀ cmd output,
     detectionCommand language = Some cmd →
     CombinedOutput cmd = (output, None) →
     checkLanguageInstallation language =
       (true, TrimSpace (firstLine output), getLatestVersion language)) ∧
  getLatestVersion language =
    default EmptyString (latestVersions !! ToLower language) ∧
  (latestVersions !! ToLower language = None →
   getLatestVersion language = EmptyString).
Proof.
  repeat split.
  - unfold probeStatus. by destruct (checkLanguageInstallation language) as [[??]?].
  - unfold checkLanguageInstallation. by intros ->.
  - unfold checkLanguageInstallation. by intros cmd output e -> ->.
  - unfold checkLanguageInstallation. intros cmd output -> ->.
    by rewrite parseVersion_firstLine.
  - unfold getLatestVersion. by intros ->.
Qed.

(** On the Linux machine: Go is found with the first line of its output as
    version, Python is not found, and Ruby has no detection command. *)
Lemma checkLanguageInstallation_linux :
  @checkLanguageInstallation Linux.env "Go" =
    (true, "go version go1.20 linux/amd64", "1.25.5") ∧
  @checkLanguageInstallation Linux.env "Python" =
    (false, EmptyString, EmptyString) ∧
  @checkLanguageInstallation Linux.env "Ruby" =
    (false, EmptyString, EmptyString) ∧
  @getLatestVersion Linux.env "Ruby" = EmptyString.
Proof.
  destruct (@checkLanguageInstallation_spec Linux.env "Go")
    as (_ & _ & _ & Hgo & _).
  destruct (@checkLanguageInstallation_spec Linux.env "Python")
    as (_ & _ & Hpython & _).
  destruct (@checkLanguageInstallation_spec Linux.env "Ruby")
    as (_ & Hruby & _ & _ & _ & Hlatest).
  split; [|split; [|split]].
  - rewrite (Hgo (Command "go" ["version"])
               ("go version go1.20 linux/amd64" +:+ String newline EmptyString));
      reflexivity.
  - eapply (Hpython (Command "python3" ["--version"])); reflexivity.
  - apply Hruby. reflexivity.
  - apply Hlatest. reflexivity.
Defined.

(** ** The poll tick *)

Lemma trackersOf_spec (h : Heap) (m : DownloadInstallModel) :
  noNilTracker h m →
  ∃ progs, trackersOf h (languageProgress m) = Some progs ∧
           ∀ t, t ∈ progs ↔ tracked h m t.
Proof.
  intros Hnil. unfold trackersOf.
  set (f := λ entry : string * ptr, h !! entry.2).
  assert (is_Some (mapM f (map_to_list (languageProgress m)))) as [progs Hp].
  { apply mapM_is_Some, Forall_forall. intros [lang p] Hin.
    apply elem_of_map_to_list in Hin. by apply (Hnil lang). }
  exists progs. split; [done|].
  apply mapM_Some in Hp. intros t. split.
  - intros Hin. apply list_elem_of_lookup in Hin as [i Hi].
    destruct (Forall2_lookup_r _ _ _ _ _ Hp Hi) as ([lang p] & Hl & Hf).
    exists lang, p. split; [|done].
    apply elem_of_map_to_list. by eapply list_elem_of_lookup_2.
  - intros (lang & p & Hl & Hh).
    apply elem_of_map_to_list, list_elem_of_lookup in Hl as [i Hi].
    destruct (Forall2_lookup_l _ _ _ _ _ Hp Hi) as (t' & Ht' & Hf).
    unfold f in Hf. simpl in Hf. rewrite Hh in Hf. injection Hf as ->.
    by eapply list_elem_of_lookup_2.
Qed.

Lemma stillInstalling_true (t : LanguageProgress) :
  stillInstalling t = true ↔
  (Progress t <? 1)%float = true ∧ CurrentStep t ≠ "error".
Proof.
  unfold stillInstalling. rewrite andb_true_iff, negb_true_iff.
  by rewrite String.eqb_neq.
Qed.

Lemma terminal_not_stillInstalling (t : LanguageProgress) :
  terminal t → stillInstalling t = false.
Proof.
  unfold stillInstalling. intros [-> | ->]; [done|].
  by rewrite andb_false_r.
Qed.

Lemma tick_all (h : Heap) (m : DownloadInstallModel) :
  noNilTracker h m →
  (∀ t, tracked h m t → stillInstalling t = false) →
  Update h m ProgressTickMsg = Ok (h, withState m "complete", []).
Proof.
  intros Hnil Hall. destruct (trackersOf_spec h m Hnil) as (progs & Hp & Hin).
  simpl. rewrite Hp.
  assert (forallb (λ prog, negb (stillInstalling prog)) progs = true) as ->; [|done].
  apply Is_true_true, forallb_True, Forall_forall. intros t Ht.
  apply Hin, Hall in Ht. by rewrite Ht.
Qed.

Lemma tick_some (h : Heap) (m : DownloadInstallModel) (t : LanguageProgress) :
  noNilTracker h m → tracked h m t → stillInstalling t = true →
  Update h m ProgressTickMsg = Ok (h, m, progressUpdateTicker).
Proof.
  intros Hnil Ht Hstill.
  destruct (trackersOf_spec h m Hnil) as (progs & Hp & Hin).
  simpl. rewrite Hp.
  destruct (forallb _ progs) eqn:Hall; [|done].
  apply Is_true_true, forallb_True in Hall.
  rewrite Forall_forall in Hall. apply Hin, Hall in Ht.
  by rewrite Hstill in Ht.
Qed.

Lemma withState_idem (m : DownloadInstallModel) (st : string) :
  withState (withState m st) st = withState m st.
Proof. done. Qed.

Lemma withState_same (m : DownloadInstallModel) :
  withState m (state m) = m.
Proof. by destruct m. Qed.

(** C1, as the code has it. On a poll tick over trackers none of which is
    nil, the orchestrator moves to the complete state if and only if no
    tracker has progress below 1.0 together with a step other than the
    error step; while such a tracker exists the tick leaves the model as
    it is and schedules the next tick. *)
Theorem tick_complete_iff (h : Heap) (m : DownloadInstallModel) :
  noNilTracker h m →
  (Update h m ProgressTickMsg = Ok (h, withState m "complete", []) ↔
   ∀ t, tracked h m t →
        ¬ ((Progress t <? 1)%float = true ∧ CurrentStep t ≠ "error")) ∧
  ((∃ t, tracked h m t ∧
         (Progress t <? 1)%float = true ∧ CurrentStep t ≠ "error") →
   Update h m ProgressTickMsg = Ok (h, m, progressUpdateTicker)).
Proof.
  intros Hnil. split.
  - split.
    + intros Hup t Ht Hstill. apply stillInstalling_true in Hstill.
      by rewrite (tick_some h m t Hnil Ht Hstill) in Hup.
    + intros Hall. apply tick_all; [done|]. intros t Ht.
      destruct (stillInstalling t) eqn:Hstill; [|done].
      apply stillInstalling_true in Hstill. by destruct (Hall t Ht).
  - intros (t & Ht & Hstill). apply stillInstalling_true in Hstill.
    by apply (tick_some h m t).
Qed.

Lemma pollAll_S (n : nat) (h : Heap) (m : DownloadInstallModel) :
  pollAll (S n) h m =
    match Update h m ProgressTickMsg with
    | Ok (h1, m1, cmd) =>
        match pollAll n h1 m1 with
        | Ok (h2, m2, cmds) => Ok (h2, m2, cmd :: cmds)
        | Panic reason => Panic reason
        end
    | Panic reason => Panic reason
    end.
Proof. done. Qed.

(** C9. When every tracker the model points to is terminal, any number of
    poll ticks leaves the heap of trackers as it is, returns no command,
    and leaves the model in the complete state with nothing else changed;
    a model that is already complete is left as it is. *)
Theorem poll_idempotent (h : Heap) (m : DownloadInstallModel) :
  (∀ lang p, languageProgress m !! lang = Some p →
             ∃ t, h !! p = Some t ∧ terminal t) →
  ∀ n, pollAll (S n) h m = Ok (h, withState m "complete", repeat [] (S n)) ∧
       (state m = "complete" → pollAll n h m = Ok (h, m, repeat [] n)).
Proof.
  intros Hterm.
  assert (∀ m', languageProgress m' = languageProgress m →
                Update h m' ProgressTickMsg = Ok (h, withState m' "complete", []))
    as Htick.
  { intros m' Hlp. apply tick_all.
    - intros lang p Hl. rewrite Hlp in Hl.
      destruct (Hterm lang p Hl) as (t & -> & _). by eexists.
    - intros t (lang & p & Hl & Hh). rewrite Hlp in Hl.
      destruct (Hterm lang p Hl) as (t' & Hh' & Ht').
      rewrite Hh in Hh'. injection Hh' as <-.
      by apply terminal_not_stillInstalling. }
  assert (∀ n m', languageProgress m' = languageProgress m →
                  pollAll (S n) h m' =
                    Ok (h, withState m' "complete", repeat [] (S n))) as Hpoll.
  { induction n as [|n IH]; intros m' Hlp.
    - rewrite pollAll_S, (Htick m' Hlp). done.
    - rewrite pollAll_S, (Htick m' Hlp), (IH (withState m' "complete") Hlp).
      by rewrite withState_idem. }
  intros n. split; [by apply Hpoll|].
  intros Hst. destruct n as [|n]; [done|].
  rewrite (Hpoll n m eq_refl), <- Hst. by rewrite withState_same.
Qed.

Lemma installingRust_tracked (lang : string) (p : ptr) :
  languageProgress installingRust !! lang = Some p →
  lang = "Rust" ∧ p = 0 ∧ [configuring] !! p = Some configuring.
Proof.
  unfold installingRust. simpl. intros Hl.
  apply lookup_singleton_Some in Hl as [<- <-]. done.
Qed.

(** The tick on the tracker the Rust runner leaves before its command:
    progress is 1.0, so the model moves to the complete state. *)
Lemma tick_complete_configuring :
  Update [configuring] installingRust ProgressTickMsg =
    Ok ([configuring], withState installingRust "complete", []).
Proof.
  assert (noNilTracker [configuring] installingRust) as Hnil.
  { intros lang p Hl. apply installingRust_tracked in Hl as (_ & _ & ->).
    by eexists. }
  apply (tick_complete_iff [configuring] installingRust Hnil).
  intros t (lang & p & Hl & Hh) [Hlt _].
  apply installingRust_tracked in Hl as (_ & _ & Hc).
  rewrite Hh in Hc. injection Hc as ->. discriminate Hlt.
Defined.

(** C1 fails as stated: on the Linux machine, with Rust selected and its
    installation confirmed, a tick that arrives once the worker has left
    its step loop moves the orchestrator to the complete state, although
    the only tracker is at the step "Configuring environment...", neither
    complete nor error, and the worker has not yet run its command. *)
Lemma complete_before_command :
  observe (@exec Linux.env (start ["Rust"])
             (rustAlmostInstalled ++ [EvCommand 0])) =
    Some ("complete",
          [("Rust", Some (1%float, "Configuring environment...", EmptyString))],
          [[RunCommand (Command "bash"
              ["-c"; "curl --proto '=https' --tlsv1.2 -sSf https://sh.rustup.rs | sh -s -- -y"]);
            SetResult "Rust" "installed"; SetCurrentStep "complete";
            SetProgress 1]]).
Proof. vm_compute. reflexivity. Qed.

(** Three ticks on the terminal tracker of [installingRust]. *)
Lemma poll_idempotent_configuring :
  pollAll 3 [configuring] installingRust =
    Ok ([configuring], withState installingRust "complete", [[]; []; []]).
Proof.
  refine (proj1 (poll_idempotent [configuring] installingRust _ 2)).
  intros lang p Hl. apply installingRust_tracked in Hl as (_ & _ & ->).
  exists configuring. split; [done|]. by left.
Defined.

(** ** ActionRunner: properties *)

#[local] Arguments announce : simpl never.
#[local] Arguments conclude : simpl never.
#[local] Arguments runActions : simpl never.

Lemma announce_three (s0 s1 s2 : string) :
  announce [s0; s1; s2] =
    [Locked (float64 0 / float64 3)%float s0; Sleep 500;
     Locked (float64 1 / float64 3)%float s1; Sleep 500;
     Locked (float64 2 / float64 3)%float s2; Sleep 500].
Proof. reflexivity. Qed.

Lemma announce_three_lookup (s0 s1 s2 : string) (i : nat) (step : string) :
  [s0; s1; s2] !! i = Some step →
  announce [s0; s1; s2] !! (2 * i) =
    Some (Locked (float64 i / float64 3)%float step).
Proof.
  destruct i as [|[|[|i]]]; simpl; intros Hi; try discriminate;
    by injection Hi as <-.
Qed.

Lemma conclude_tracker `{GoEnv} (language done : string) (err : error)
    (t : LanguageProgress) (actions : list Action) :
  let t' := runActions t (actions ++ conclude language done err) in
  match err with
  | Some e => CurrentStep t' = "error" ∧ ErrorMessage t' = e
  | None => Progress t' = 1%float ∧ CurrentStep t' = "complete"
  end.
Proof.
  unfold runActions. rewrite foldl_app. by destruct err.
Qed.

Lemma toolchains_cases (l : string) :
  l ∈ toolchains →
  l = "go" ∨ l = "python" ∨ l = "rust" ∨ l = "c++" ∨ l = "java".
Proof.
  unfold toolchains. rewrite !elem_of_cons, elem_of_nil. tauto.
Qed.

Lemma choice_cases (choice : string) :
  choice ∈ ["install"; "update"] → choice = "install" ∨ choice = "update".
Proof. rewrite !elem_of_cons, elem_of_nil. tauto. Qed.

Lemma worker_runnerOf `{GoEnv} (language choice : string) :
  choice ∈ ["install"; "update"] →
  worker language choice =
    (runnerOf language choice).1 ++
    conclude language (doneWord choice) (runnerOf language choice).2.
Proof. intros Hc. by destruct (choice_cases _ Hc) as [-> | ->]. Qed.

Lemma trace_assoc (a b d : list Action) (x c : Action) :
  (a ++ x :: b ++ [c]) ++ d = a ++ x :: b ++ c :: d.
Proof. rewrite <- app_assoc. simpl. by rewrite <- app_assoc. Qed.

(** A runner of the common shape makes its worker satisfy [workerSpec]. *)
Lemma standard_worker `{GoEnv} (language choice s0 s1 s2 : string)
    (before : list Action) (cmd : exec_Cmd) :
  choice ∈ ["install"; "update"] →
  runnerOf language choice =
    withProgress [s0; s1; s2] s2 (before ++ [RunCommand cmd], Run cmd) →
  Forall (λ a, ∃ line, a = Println line) before →
  (ToLower language =? "go") && (choice =? "update") = false →
  workerSpec language choice.
Proof.
  intros Hc Hr Hbefore Hgo. unfold workerSpec.
  exists [s0; s1; s2], s2, before, cmd.
  rewrite Hgo, (worker_runnerOf _ _ Hc), Hr. unfold withProgress. cbn [fst snd].
  split; [done|]. split; [done|]. split; [done|].
  split; [apply announce_three_lookup|].
  split; [apply trace_assoc|]. split; [done|].
  split; [by intros e ->|]. split; [by intros ->|].
  intros t. apply conclude_tracker.
Qed.

(** The update of Go: its own three steps, then the Go installer. *)
Lemma go_update_worker `{GoEnv} (language : string) :
  ToLower language = "go" → workerSpec language "update".
Proof.
  intros Hl. unfold workerSpec.
  exists ["Downloading Go..."; "Extracting files..."; "Verifying installation..."],
    "Verifying installation...", [],
    (Command "bash"
       ["-c"; "curl -L https://go.dev/dl/go1.25.5.darwin-arm64.tar.gz -o go1.25.5.tar.gz && tar -C /usr/local -xzf go1.25.5.tar.gz"]).
  assert (runnerOf language "update" = updateGoWithProgress) as Hr.
  { unfold runnerOf, updateLanguageWithProgress. by rewrite Hl. }
  rewrite Hl, (worker_runnerOf language "update"), Hr by set_solver.
  unfold updateGoWithProgress, installGoWithProgress, withProgress, runCommand.
  cbn [fst snd].
  split; [done|]. split; [done|]. split; [done|].
  split; [apply announce_three_lookup|].
  split.
  { exists ["Checking latest version..."; "Downloading Go..."; "Installing update..."],
      "Installing update...".
    split; [done|]. split; [done|]. split; [apply announce_three_lookup|].
    rewrite <- app_assoc. cbn [app]. by rewrite <- app_assoc. }
  split; [done|]. split; [by intros e ->|]. split; [by intros ->|].
  intros t. apply conclude_tracker.
Qed.

Ltac dispatch_runner :=
  unfold runnerOf, installLanguageWithProgress, updateLanguageWithProgress;
  match goal with Hl : ToLower _ = _ |- _ => rewrite Hl end;
  cbn [String.eqb Ascii.eqb Bool.eqb];
  unfold installPythonWithProgress, installCppWithProgress,
    installJavaWithProgress, updatePythonWithProgress, updateCppWithProgress,
    updateJavaWithProgress;
  match goal with Hos : (GOOS =? _) = _ |- _ => rewrite ?Hos end;
  reflexivity.

Ltac finish_runner :=
  lazymatch goal with
  | |- _ ∈ _ => set_solver
  | |- runnerOf _ _ = _ => dispatch_runner
  | |- Forall _ [] => constructor
  | |- Forall _ [_] => constructor; [by eexists | constructor]
  | |- _ = false =>
      match goal with Hl : ToLower _ = _ |- _ => by rewrite Hl end
  end.

(** C4, as the code has it: the worker of every supported toolchain, for
    the install and for the update choice, satisfies [workerSpec]. *)
Theorem worker_spec `{GoEnv} (language choice : string) :
  ToLower language ∈ toolchains → choice ∈ ["install"; "update"] →
  workerSpec language choice.
Proof.
  intros Hl Hc.
  apply toolchains_cases in Hl. apply choice_cases in Hc.
  destruct (GOOS =? "darwin") eqn:Hos.
  all: destruct Hc as [-> | ->];
    destruct Hl as [Hl | [Hl | [Hl | [Hl | Hl]]]];
    try (by apply go_update_worker).
  all: first [ eapply (standard_worker _ _ _ _ _ []); finish_runner
             | eapply (standard_worker _ _ _ _ _ [Println _]); finish_runner ].
Qed.

(** On the Linux machine the Python installer is a runner of the common
    shape: three steps, then [apt-get], which fails there. *)
Lemma worker_spec_python_linux : @workerSpec Linux.env "Python" "install".
Proof.
  apply (@worker_spec Linux.env "Python" "install").
  - simpl. unfold toolchains. set_solver.
  - set_solver.
Defined.

(** C4 fails as stated for the update of Go: its worker writes the three
    steps of the updater, then starts over from progress 0 with the three
    steps of the installer, and only then runs the command. The action
    that follows the updater's last step and its write of progress 1.0 is
    a step announcement, not the command. *)
Lemma go_update_six_steps :
  @worker Linux.env "Go" "update" =
    announce ["Checking latest version..."; "Downloading Go...";
              "Installing update..."] ++
    Locked 1 "Installing update..." ::
    announce ["Downloading Go..."; "Extracting files...";
              "Verifying installation..."] ++
    Locked 1 "Verifying installation..." ::
    [RunCommand (Command "bash"
       ["-c"; "curl -L https://go.dev/dl/go1.25.5.darwin-arm64.tar.gz -o go1.25.5.tar.gz && tar -C /usr/local -xzf go1.25.5.tar.gz"]);
     SetResult "Go" "updated"; SetCurrentStep "complete"; SetProgress 1] ∧
  @worker Linux.env "Go" "update" !! 4 =
    Some (Locked (float64 2 / float64 3)%float "Installing update...") ∧
  @worker Linux.env "Go" "update" !! 6 =
    Some (Locked 1 "Installing update...") ∧
  @worker Linux.env "Go" "update" !! 7 =
    Some (Locked 0 "Downloading Go...").
Proof. repeat split. Qed.

(** Every worker, whatever its toolchain, leaves its tracker terminal:
    complete with progress 1.0, or in the error step. *)
Lemma worker_ends_terminal `{GoEnv} (lang choice : string)
    (t : LanguageProgress) :
  choice ∈ ["install"; "update"] →
  terminal (runActions t (worker lang choice)).
Proof.
  intros Hc. rewrite (worker_runnerOf _ _ Hc).
  pose proof (conclude_tracker lang (doneWord choice)
                (runnerOf lang choice).2 t (runnerOf lang choice).1) as Hend.
  simpl in Hend. unfold terminal.
  destruct (runnerOf lang choice).2; [right | left]; by destruct Hend.
Qed.

(** ** Unsupported toolchains *)

Lemma unsupported_runner `{GoEnv} (lang choice : string) :
  ToLower lang ∉ toolchains →
  runnerOf lang choice = ([], Some (unsupported lang)).
Proof.
  intros Hno.
  assert (∀ l, l ∈ toolchains → (ToLower lang =? l) = false) as Hne.
  { intros l Hl. apply String.eqb_neq. by intros <-. }
  unfold runnerOf, installLanguageWithProgress, updateLanguageWithProgress.
  rewrite !Hne by (unfold toolchains; set_solver).
  by destruct (choice =? "install").
Qed.

(** The trackers [createTrackers] allocates: every language of the map
    points into the new heap, at a tracker of its own. *)
Lemma createTrackers_fresh (languages : list string)
    (choices : gmap string string) (h : Heap) (trackers : gmap string ptr) :
  (∀ l p, trackers !! l = Some p → p < length h) →
  (∀ l1 l2 p, trackers !! l1 = Some p → trackers !! l2 = Some p → l1 = l2) →
  let r := foldl (λ acc lang,
                    if choiceOf choices lang =? "skip" then acc
                    else (acc.1 ++ [newTracker lang],
                          <[lang := length acc.1]> acc.2))
                 (h, trackers) languages in
  (∀ l p, r.2 !! l = Some p → p < length r.1) ∧
  (∀ l1 l2 p, r.2 !! l1 = Some p → r.2 !! l2 = Some p → l1 = l2).
Proof.
  revert h trackers. induction languages as [|lang rest IH];
    intros h trackers Hlt Hinj; [done|].
  simpl. destruct (choiceOf choices lang =? "skip"); [by apply IH|].
  apply IH; simpl.
  - intros l p. rewrite length_app. simpl. rewrite lookup_insert.
    case_decide; [intros [= <-]; lia|]. intros Hl. apply Hlt in Hl. lia.
  - intros l1 l2 p. rewrite !lookup_insert.
    repeat case_decide; subst; try done.
    + intros [= <-] Hl. apply Hlt in Hl. lia.
    + intros Hl [= <-]. apply Hlt in Hl. lia.
    + apply Hinj.
Qed.

Lemma createTrackers_distinct (languages : list string)
    (choices : gmap string string) (h : Heap) (l1 l2 : string) (p q : ptr) :
  l1 ≠ l2 →
  (createTrackers languages choices h).2 !! l1 = Some p →
  (createTrackers languages choices h).2 !! l2 = Some q → p ≠ q.
Proof.
  intros Hne H1 H2 <-.
  destruct (createTrackers_fresh languages choices h ∅) as [_ Hinj]; [done..|].
  by apply Hne, (Hinj l1 l2 p).
Qed.

Lemma spawnWorkers_todo `{GoEnv} (j : nat) (languages : list string)
    (choices : gmap string string) (h : Heap) (trackers : gmap string ptr)
    (g : Goroutine) :
  g ∈ spawnWorkers j languages choices h trackers →
  language g ∈ languages ∧
  todo g = worker (language g) (choiceOf choices (language g)).
Proof.
  unfold spawnWorkers. rewrite list_elem_of_In, in_flat_map.
  intros (lang & Hlang & Hg). apply list_elem_of_In in Hlang.
  destruct (choiceOf choices lang =? "skip"); [done|].
  destruct Hg as [<- | []]. done.
Qed.

(** ** The orchestrator along a run *)

Lemma withTrackers_same (m : DownloadInstallModel) :
  withTrackers m (languageProgress m) = m.
Proof. by destruct m. Qed.

Lemma View_fields `{GoEnv} (h h' : Heap) (m m' : DownloadInstallModel) :
  View h m = Ok (h', m') → m' = withTrackers m (languageProgress m').
Proof.
  unfold View, renderInstallationProgress. intros Hview.
  repeat match type of Hview with
         | (if ?c then _ else _) = _ => destruct c
         | match ?x with _ => _ end = _ => destruct x
         end;
    try discriminate; injection Hview as <- <-;
    by rewrite ?withTrackers_same.
Qed.

Lemma Inv_withTrackers `{GoEnv} (languages : list string)
    (m : DownloadInstallModel) (trackers : gmap string ptr)
    (cmds : list Command1) :
  Inv languages (withTrackers m trackers) cmds ↔ Inv languages m cmds.
Proof. done. Qed.

Lemma checkInstalledLanguages_total `{GoEnv} (languages : list string)
    (lang : string) :
  lang ∈ languages → is_Some (checkInstalledLanguages languages !! lang).
Proof.
  unfold checkInstalledLanguages.
  assert (∀ acc : gmap string InstallationStatus,
            lang ∈ languages ∨ is_Some (acc !! lang) →
            is_Some (foldl (λ status l, <[l := probeStatus l]> status)
                       acc languages !! lang)) as Hfold.
  { induction languages as [|l rest IH]; intros acc Hin; simpl.
    - destruct Hin as [Hin | Hin]; [by apply elem_of_nil in Hin | done].
    - apply IH. rewrite lookup_insert_is_Some.
      destruct Hin as [Hin | Hin].
      + apply elem_of_cons in Hin as [-> | Hin]; [right; by left | by left].
      + destruct (decide (l = lang)); right; [by left | by right]. }
  intros Hin. apply Hfold. by left.
Qed.


Lemma isQuit_notCheck (cmds : list Command1) :
  Forall isQuit cmds → Forall notCheck cmds.
Proof. intros Hq. eapply Forall_impl; [done|]. by intros c ->. Qed.

Lemma Inv_quit `{GoEnv} (languages : list string) (m : DownloadInstallModel)
    (cmds : list Command1) :
  Inv languages m cmds → Inv languages m (cmds ++ [CmdQuit]).
Proof.
  intros [Hsel [(Hst & (quits & -> & Hq) & Hrest) | [(Hst & Hq & Hrest) | [Hst Hq]]]];
    (split; [done|]).
  - left. split; [done|]. split; [|done].
    exists (quits ++ [CmdQuit]). split; [done|].
    apply Forall_app. split; [done|]. by constructor.
  - right. left. split; [done|]. split; [|done].
    apply Forall_app. split; [done|]. by constructor.
  - right. right. split; [done|].
    apply Forall_app. split; [done|]. by constructor.
Qed.

Lemma Inv_delete_quit `{GoEnv} (languages : list string)
    (m : DownloadInstallModel) (cmds : list Command1) (i : nat) :
  Inv languages m cmds → cmds !! i = Some CmdQuit →
  Inv languages m (delete i cmds).
Proof.
  intros [Hsel [(Hst & (quits & -> & Hq) & Hrest) | [(Hst & Hq & Hrest) | [Hst Hq]]]] Hi;
    (split; [done|]).
  - left. split; [done|]. split; [|done].
    destruct i as [|i]; [done|]. exists (delete i quits).
    split; [done|]. by apply Forall_delete.
  - right. left. split; [done|]. split; [|done]. by apply Forall_delete.
  - right. right. split; [done|]. by apply Forall_delete.
Qed.

Lemma prompt_inv `{GoEnv} (languages : list string) (h h' : Heap)
    (m m' : DownloadInstallModel) (cmds cmd : list Command1)
    (choose : string → Result string) :
  Inv languages m cmds → prompt h m choose = Ok (h', m', cmd) →
  Inv languages m' (cmds ++ cmd) ∧ follows (state m) (state m').
Proof.
  intros HInv. unfold prompt.
  destruct (state m =? "prompting") eqn:Hst; cycle 1.
  { intros [= <- <- <-]. rewrite app_nil_r. split; [done | by left]. }
  apply String.eqb_eq in Hst.
  destruct HInv as [Hsel [(Hst' & _) | [(_ & Hq & Hstatus & Hle & Hlt & Hdom) | [Hst' _]]]];
    [by rewrite Hst in Hst' | | by destruct Hst' as [Hst' | Hst']; rewrite Hst in Hst'].
  destruct (selectedLanguages m !! currentIndex m) as [lang|] eqn:Hlang; [|done].
  destruct (choose lang) as [choice|]; [|done].
  unfold recordChoice. simpl.
  destruct (length (selectedLanguages m) <=? S (currentIndex m))%nat eqn:Hlen;
    intros [= <- <- <-]; simpl.
  - split; [|right; right; left; by rewrite Hst].
    split; [done|]. right. right. split; [by left|].
    apply Forall_app. split; [by apply isQuit_notCheck|].
    by repeat constructor.
  - apply Nat.leb_gt in Hlen. rewrite Hsel in Hlen, Hlang.
    split; [|by left].
    split; [done|]. right. left. simpl. rewrite app_nil_r.
    split; [done|]. split; [done|]. split; [done|]. split; [lia|].
    split; [done|].
    rewrite dom_insert_L, Hdom, (take_S_r _ _ _ Hlang), list_to_set_app_L.
    simpl. rewrite union_empty_r_L. apply (comm_L (∪)).
Qed.

Lemma Update_key_inv `{GoEnv} (languages : list string) (h h' : Heap)
    (m m' : DownloadInstallModel) (cmds cmd : list Command1) (key : string) :
  Inv languages m cmds → Update h m (KeyMsg key) = Ok (h', m', cmd) →
  Inv languages m' (cmds ++ cmd) ∧ follows (state m) (state m').
Proof.
  intros HInv. simpl.
  destruct ((key =? "ctrl+c") || (key =? "q")).
  { intros [= <- <- <-]. split; [by apply Inv_quit | by left]. }
  destruct ((key =? "y") || (key =? "enter")); [by apply prompt_inv|].
  destruct (key =? "n"); [by apply prompt_inv|].
  destruct (key =? "u"); [by apply prompt_inv|].
  intros [= <- <- <-]. rewrite app_nil_r. split; [done | by left].
Qed.

Lemma handle_Running `{GoEnv} (s s' : System) (pending : list Command1)
    (msg : Msg) :
  handle s pending msg = Running s' →
  ∃ h1 m1 cmd,
    Update (heap s) (model s) msg = Ok (h1, m1, cmd) ∧
    View h1 m1 = Ok (heap s', model s') ∧
    commands s' = pending ++ cmd ∧ goroutines s' = goroutines s ∧
    results s' = results s ∧ exited s' = false.
Proof.
  unfold handle. destruct (Update (heap s) (model s) msg) as [[[h1 m1] cmd]|];
    [|done].
  destruct (View h1 m1) as [[h2 m2]|] eqn:Hview; [|done].
  intros [= <-]. by exists h1, m1, cmd.
Qed.

(** What a message does to the invariant, once [Update] is known to
    preserve it: the rendering that follows changes the trackers only. *)
Lemma handle_inv `{GoEnv} (languages : list string) (s s' : System)
    (pending : list Command1) (msg : Msg) :
  (∀ h1 m1 cmd, Update (heap s) (model s) msg = Ok (h1, m1, cmd) →
                Inv languages m1 (pending ++ cmd) ∧
                follows (state (model s)) (state m1)) →
  handle s pending msg = Running s' →
  Inv languages (model s') (commands s') ∧
  follows (state (model s)) (state (model s')).
Proof.
  intros HUpdate Hhandle.
  apply handle_Running in Hhandle
    as (h1 & m1 & cmd & Hup & Hview & -> & _).
  apply HUpdate in Hup as [HInv Hfollows].
  apply View_fields in Hview. rewrite Hview.
  split; [by apply Inv_withTrackers | done].
Qed.

Lemma work_Running (s s' : System) (j : nat) :
  work s j = Running s' →
  model s' = model s ∧ commands s' = commands s.
Proof.
  unfold work. destruct (goroutines s !! j) as [g|]; [|done].
  destruct (todo g) as [|a rest]; [done|].
  destruct (isResultWrite a && negb (writing g)).
  { destruct (hashWriting (goroutines s) (job g)); [done | by intros [= <-]]. }
  destruct (heap s !! prog g); [by intros [= <-]|].
  destruct (inert a); [by intros [= <-] | done].
Qed.

Lemma Inv_lookup `{GoEnv} (languages : list string) (m : DownloadInstallModel)
    (cmds : list Command1) (i : nat) (c : Command1) :
  Inv languages m cmds → cmds !! i = Some c →
  match c with
  | CmdQuit => True
  | CmdCheck l =>
      l = languages ∧ i = 0 ∧ state m = "checking" ∧
      Forall isQuit (delete i cmds)
  | _ => (state m = "installing" ∨ state m = "complete") ∧
         Forall notCheck (delete i cmds)
  end.
Proof.
  intros [Hsel [(Hst & (quits & -> & Hq) & Hrest) | [(Hst & Hq & Hrest) | [Hst Hq]]]] Hi.
  - destruct i as [|i]; [by injection Hi as <-|]. simpl in Hi.
    rewrite Forall_lookup in Hq. apply Hq in Hi. by rewrite Hi.
  - rewrite Forall_lookup in Hq. apply Hq in Hi. by rewrite Hi.
  - pose proof (Forall_delete _ _ i Hq) as Hd.
    rewrite Forall_lookup in Hq. apply Hq in Hi. by destruct c.
Qed.

Lemma Inv_later `{GoEnv} (languages : list string) (m : DownloadInstallModel)
    (cmds : list Command1) :
  selectedLanguages m = languages →
  state m = "installing" ∨ state m = "complete" →
  Forall notCheck cmds → Inv languages m cmds.
Proof. intros Hsel Hst Hcmds. split; [done|]. right. by right. Qed.

Lemma follows_later (a b : string) :
  a = "installing" ∨ a = "complete" → b = a ∨ b = "complete" → follows a b.
Proof.
  intros [-> | ->] [-> | ->]; unfold follows; auto.
Qed.

(** Every step of the program keeps the invariant and moves the
    orchestrator to the same or to the next state. *)
Lemma step_inv `{GoEnv} (languages : list string) (s s' : System) (e : Event) :
  Inv languages (model s) (commands s) → step s e = Running s' →
  Inv languages (model s') (commands s') ∧
  follows (state (model s)) (state (model s')).
Proof.
  intros HInv. unfold step. destruct (exited s); [done|].
  destruct e as [key | i | j |].
  - apply handle_inv. intros h1 m1 cmd. by apply Update_key_inv.
  - destruct (commands s !! i) as [c|] eqn:Hi; [|done].
    pose proof (Inv_lookup _ _ _ _ _ HInv Hi) as Hc.
    pose proof HInv as [Hsel _].
    destruct c as [| l | l choices status |]; simpl.
    + intros [= <-]. simpl. split; [by apply Inv_delete_quit | by left].
    + destruct Hc as (-> & -> & Hst & Hq).
      apply handle_inv. intros h1 m1 cmd [= <- <- <-]. simpl.
      rewrite app_nil_r, Hst. split; [|right; by left].
      split; [done|]. right. left. simpl.
      destruct HInv as [_ [(_ & _ & -> & ->) | [(Hst' & _) | [Hst' _]]]];
        [ | by rewrite Hst in Hst'
          | by destruct Hst' as [Hst' | Hst']; rewrite Hst in Hst' ].
      repeat split; try done; try lia.
      intros Hne. destruct languages; [done | simpl; lia].
    + destruct Hc as [Hst Hcmds].
      destruct (createTrackers l choices (heap s)) as [h1 trackers].
      intros Hhandle. eapply (handle_inv languages) in Hhandle; [exact Hhandle|].
      simpl. intros h2 m1 cmd [= <- <- <-]. simpl.
      split; [|by left]. apply Inv_later; [done..|].
      apply Forall_app. split; [done | by repeat constructor].
    + destruct Hc as [Hst Hcmds].
      apply handle_inv. simpl. intros h1 m1 cmd.
      destruct (trackersOf (heap s) (languageProgress (model s))); [|done].
      destruct (forallb _ _); intros [= <- <- <-]; simpl.
      * rewrite app_nil_r. split; [apply Inv_later; auto|].
        apply follows_later; auto.
      * split; [|by left]. apply Inv_later; [done..|].
        apply Forall_app. split; [done | by repeat constructor].
  - intros Hwork. apply work_Running in Hwork as [-> ->].
    split; [done | by left].
  - apply handle_inv. intros h1 m1 cmd [= <- <- <-].
    rewrite app_nil_r. split; [done | by left].
Qed.

Lemma start_inv `{GoEnv} (languages : list string) :
  Inv languages (model (start languages)) (commands (start languages)).
Proof.
  split; [done|]. left. repeat split; try done. by exists [].
Qed.

(** The invariant holds wherever a run arrives. *)
Lemma exec_inv `{GoEnv} (languages : list string) (events : list Event)
    (s s' : System) :
  Inv languages (model s) (commands s) → exec s events = Running s' →
  Inv languages (model s') (commands s').
Proof.
  revert s. induction events as [|e rest IH]; intros s HInv; simpl.
  - by intros [= <-].
  - destruct (step s e) as [s1| |] eqn:Hstep; [|done..].
    apply IH. by apply (step_inv languages s s1 e).
Qed.

(** ** The order of the states *)













#[local] Arguments checkInstalledLanguages : simpl never.

Lemma probe_step `{GoEnv} (languages : list string) :
  step (start languages) (EvCommand 0) =
    Running (promptingAt languages (checkInstalledLanguages languages) 0 ∅).
Proof.
  unfold step, start, promptingAt. simpl. unfold handle. simpl.
  destruct languages as [|lang rest]; [done|]. unfold View. simpl.
  destruct (checkInstalledLanguages_total (lang :: rest) lang) as [st ->];
    [by left | done].
Qed.





(** ** Prompting *)

Lemma promptKeys_cases (key : string) :
  key ∈ promptKeys → key = "y" ∨ key = "enter" ∨ key = "n" ∨ key = "u".
Proof. unfold promptKeys. rewrite !elem_of_cons, elem_of_nil. tauto. Qed.

(** A prompting key on the item at the cursor, when its status is known. *)
Lemma prompt_key (h : Heap) (m : DownloadInstallModel)
    (key lang : string) (status : InstallationStatus) :
  state m = "prompting" →
  selectedLanguages m !! currentIndex m = Some lang →
  installationStatus m !! lang = Some status →
  key ∈ promptKeys →
  Update h m (KeyMsg key) =
    Ok (h, (recordChoice m lang (decision key status)).1,
        (recordChoice m lang (decision key status)).2).
Proof.
  intros Hst Hlang Hstatus Hkey.
  apply promptKeys_cases in Hkey as [-> | [-> | [-> | ->]]];
    cbn [Update String.eqb Ascii.eqb Bool.eqb orb];
    unfold prompt, defaultChoice, decision;
    rewrite Hst, Hlang, ?Hstatus; simpl;
    by destruct (recordChoice m lang _).
Qed.

(** A prompting key when the cursor is past the selection. *)
Lemma prompt_key_out_of_range (h : Heap) (m : DownloadInstallModel)
    (key : string) :
  state m = "prompting" →
  selectedLanguages m !! currentIndex m = None →
  key ∈ promptKeys →
  Update h m (KeyMsg key) = Panic "index out of range".
Proof.
  intros Hst Hlang Hkey.
  apply promptKeys_cases in Hkey as [-> | [-> | [-> | ->]]];
    cbn [Update String.eqb Ascii.eqb Bool.eqb orb];
    unfold prompt; by rewrite Hst, Hlang.
Qed.

(** What the invariant says of a prompting model. *)
Lemma Inv_prompting `{GoEnv} (languages : list string)
    (m : DownloadInstallModel) (cmds : list Command1) :
  Inv languages m cmds → state m = "prompting" →
  selectedLanguages m = languages ∧ Forall isQuit cmds ∧
  installationStatus m = checkInstalledLanguages languages ∧
  (languages ≠ [] → (currentIndex m < length languages)%nat) ∧
  (currentIndex m ≤ length languages)%nat ∧
  dom (userChoices m) = list_to_set (take (currentIndex m) languages).
Proof.
  intros [Hsel [(Hst' & _) | [(_ & Hq & Hstatus & Hle & Hlt & Hdom) | [Hst' _]]]] Hst.
  - by rewrite Hst in Hst'.
  - done.
  - by destruct Hst' as [Hst' | Hst']; rewrite Hst in Hst'.
Qed.

Lemma reachable_inv `{GoEnv} (languages : list string) (events : list Event)
    (s : System) :
  exec (start languages) events = Running s →
  Inv languages (model s) (commands s).
Proof. apply exec_inv, start_inv. Qed.

(** C7. Wherever a run has arrived, while the orchestrator prompts, the
    languages that have a decision are exactly the items before the
    cursor; and each of the keys "y", "enter", "n" and "u" records the
    decision it stands for on the item at the cursor, on that item only,
    and moves the cursor by one, so that the decided languages are again
    the items before the cursor. *)
Theorem decisions_in_order `{GoEnv} (languages : list string)
    (events : list Event) (s : System) :
  exec (start languages) events = Running s →
  state (model s) = "prompting" →
  dom (userChoices (model s)) =
    list_to_set (take (currentIndex (model s)) languages) ∧
  ∀ lang, languages !! currentIndex (model s) = Some lang →
    ∃ status, installationStatus (model s) !! lang = Some status ∧
      ∀ key, key ∈ promptKeys →
        ∃ m' cmd,
          Update (heap s) (model s) (KeyMsg key) = Ok (heap s, m', cmd) ∧
          userChoices m' =
            <[lang := decision key status]> (userChoices (model s)) ∧
          currentIndex m' = S (currentIndex (model s)) ∧
          dom (userChoices m') =
            list_to_set (take (currentIndex m') languages).
Proof.
  intros Hexec Hst.
  destruct (Inv_prompting languages _ _ (reachable_inv _ _ _ Hexec) Hst)
    as (Hsel & _ & Hstatus & _ & _ & Hdom).
  split; [done|]. intros lang Hlang.
  destruct (checkInstalledLanguages_total languages lang) as [status Hs];
    [by eapply list_elem_of_lookup_2|].
  exists status. rewrite Hstatus. split; [done|]. intros key Hkey.
  eexists _, _. split.
  { apply prompt_key; [done | by rewrite Hsel | by rewrite Hstatus | done]. }
  unfold recordChoice.
  destruct (_ <=? _)%nat; simpl; (split; [done|]); (split; [done|]);
    rewrite dom_insert_L, Hdom, (take_S_r _ _ _ Hlang), list_to_set_app_L;
    simpl; rewrite union_empty_r_L; apply (comm_L (∪)).
Qed.

(** C10. On a non-empty selection, wherever a run has arrived, a
    prompting orchestrator has its cursor on an item of the selection, so
    that the four prompting keys index the selection in bounds; each of
    them moves the cursor by one and either leaves it on an item, still
    prompting, or takes it to the length of the selection and, in the same
    step, to the installing state. On the empty selection the orchestrator
    prompts as well, with the cursor at the length of the selection, and
    each of the four keys panics on its index. *)
Theorem cursor_in_bounds `{GoEnv} :
  (∀ languages events s,
     languages ≠ [] →
     exec (start languages) events = Running s →
     state (model s) = "prompting" →
     currentIndex (model s) < length (selectedLanguages (model s)) ∧
     ∀ key, key ∈ promptKeys →
       ∃ lang m' cmd,
         selectedLanguages (model s) !! currentIndex (model s) = Some lang ∧
         Update (heap s) (model s) (KeyMsg key) = Ok (heap s, m', cmd) ∧
         selectedLanguages m' = selectedLanguages (model s) ∧
         currentIndex m' = S (currentIndex (model s)) ∧
         ((currentIndex m' < length (selectedLanguages m') ∧
           state m' = "prompting") ∨
          (currentIndex m' = length (selectedLanguages m') ∧
           state m' = "installing"))) ∧
  (∃ s, exec (start []) [EvCommand 0] = Running s ∧
        state (model s) = "prompting" ∧
        currentIndex (model s) = length (selectedLanguages (model s)) ∧
        ∀ key, key ∈ promptKeys →
          Update (heap s) (model s) (KeyMsg key) = Panic "index out of range").
Proof.
  split.
  - intros languages events s Hne Hexec Hst.
    destruct (Inv_prompting languages _ _ (reachable_inv _ _ _ Hexec) Hst)
      as (Hsel & _ & Hstatus & Hlt & _ & _).
    specialize (Hlt Hne). rewrite Hsel. split; [done|]. intros key Hkey.
    destruct (lookup_lt_is_Some_2 languages _ Hlt) as [lang Hlang].
    destruct (checkInstalledLanguages_total languages lang) as [status Hs];
      [by eapply list_elem_of_lookup_2|].
    exists lang. eexists _, _. split; [done|]. split.
    { apply prompt_key; [done | by rewrite Hsel | by rewrite Hstatus | done]. }
    unfold recordChoice. rewrite <- Hsel in Hlt |- *.
    destruct (_ <=? _)%nat eqn:Hlen; simpl in *.
    + apply Nat.leb_le in Hlen. split; [done|]. split; [done|]. right.
      split; [lia | done].
    + apply Nat.leb_gt in Hlen. split; [done|]. split; [done|]. by left.
  - exists (promptingAt [] (checkInstalledLanguages []) 0 ∅).
    split; [cbn [exec]; by rewrite probe_step|].
    split; [done|]. split; [done|]. intros key Hkey.
    by apply prompt_key_out_of_range.
Qed.

(** With Go alone selected, once the probe has completed. *)
Lemma cursor_in_bounds_go :
  currentIndex
    (model (promptingAt ["Go"] (@checkInstalledLanguages Linux.env ["Go"]) 0 ∅)) <
  length
    (selectedLanguages
       (model (promptingAt ["Go"] (@checkInstalledLanguages Linux.env ["Go"]) 0 ∅))).
Proof.
  refine (proj1 (proj1 (@cursor_in_bounds Linux.env) ["Go"] [EvCommand 0] _ _ _ _));
    [done | | done].
  cbn [exec]. by rewrite probe_step.
Defined.

(** With Go alone selected, once the probe has completed, nothing is
    decided. *)
Lemma decisions_in_order_go :
  dom (userChoices
         (model (promptingAt ["Go"] (@checkInstalledLanguages Linux.env ["Go"]) 0 ∅))) =
    list_to_set (take 0 ["Go"]).
Proof.
  refine (proj1 (@decisions_in_order Linux.env ["Go"] [EvCommand 0] _ _ _));
    [|done].
  cbn [exec]. by rewrite probe_step.
Defined.

(** ** The empty selection *)

Lemma empty_prompting_stays `{GoEnv} (s s' : System) (e : Event) :
  Inv [] (model s) (commands s) → state (model s) = "prompting" →
  step s e = Running s' → state (model s') = "prompting".
Proof.
  intros HInv Hst.
  destruct (Inv_prompting [] _ _ HInv Hst) as (Hsel & Hq & _).
  assert (∀ msg,
            (∀ h1 m1 cmd, Update (heap s) (model s) msg = Ok (h1, m1, cmd) →
                          state m1 = "prompting") →
            handle s (commands s) msg = Running s' →
            state (model s') = "prompting") as Hhandle.
  { intros msg Hup Hh.
    apply handle_Running in Hh as (h1 & m1 & cmd & Hu & Hview & _).
    apply View_fields in Hview. rewrite Hview. simpl. by eapply Hup. }
  unfold step. destruct (exited s); [done|].
  destruct e as [key | i | j |].
  - apply Hhandle. intros h1 m1 cmd. simpl.
    unfold prompt. rewrite Hst, Hsel. simpl.
    repeat match goal with
           | |- context [if ?c then _ else _] => destruct c
           end; try done; by intros [= <- <- <-].
  - destruct (commands s !! i) as [c|] eqn:Hi; [|done].
    rewrite Forall_lookup in Hq. rewrite (Hq i c Hi). simpl.
    by intros [= <-].
  - intros Hwork. by apply work_Running in Hwork as [-> _].
  - apply Hhandle. by intros h1 m1 cmd [= <- <- <-].
Qed.

Lemma empty_step `{GoEnv} (s s' : System) (e : Event) :
  Inv [] (model s) (commands s) →
  state (model s) = "checking" ∨ state (model s) = "prompting" →
  step s e = Running s' →
  Inv [] (model s') (commands s') ∧
  (state (model s') = "checking" ∨ state (model s') = "prompting").
Proof.
  intros HInv Hst Hstep.
  destruct (step_inv [] s s' e HInv Hstep) as [HInv' Hfollows].
  split; [done|]. destruct Hst as [Hst | Hst].
  - rewrite Hst in Hfollows.
    destruct Hfollows as [Heq | [[_ Heq] | [[Heq _] | [Heq _]]]];
      [left; by rewrite <- Heq | by right | discriminate Heq | discriminate Heq].
  - right. by apply (empty_prompting_stays s s' e).
Qed.

(** C3, on the code. With the empty selection, the completion of the probe
    leaves the orchestrator prompting, with no command in flight; each of
    the four prompting keys then crashes the program on its index into
    the selection; and no run ever arrives in the installing or in the
    complete state. *)
Theorem empty_selection_never_completes `{GoEnv} :
  exec (start []) [EvCommand 0] = Running (promptingAt [] ∅ 0 ∅) ∧
  (∀ key, key ∈ promptKeys →
          step (promptingAt [] ∅ 0 ∅) (EvKey key) =
            Crashed "index out of range") ∧
  (∀ events s,
     exec (start []) events = Running s →
     state (model s) = "checking" ∨ state (model s) = "prompting").
Proof.
  split; [cbn [exec]; by rewrite probe_step|]. split.
  - intros key Hkey. unfold step, handle, promptingAt.
    cbn [exited heap model commands].
    by rewrite (prompt_key_out_of_range [] _ key).
  - assert (∀ events s s',
              Inv [] (model s) (commands s) →
              state (model s) = "checking" ∨ state (model s) = "prompting" →
              exec s events = Running s' →
              state (model s') = "checking" ∨ state (model s') = "prompting")
      as Hrun.
    { induction events as [|e rest IH]; intros s s' HInv Hst; simpl.
      - by intros [= <-].
      - destruct (step s e) as [s1| |] eqn:Hstep; [|done..].
        destruct (empty_step s s1 e HInv Hst Hstep) as [HInv1 Hst1].
        by apply IH. }
    intros events s. apply Hrun; [apply start_inv | by left].
Qed.

(** The empty selection, a stray message, and the key "y". *)
Lemma empty_selection_crashes :
  @exec Linux.env (start []) [EvCommand 0; EvOther; EvKey "y"] =
    Crashed "index out of range".
Proof.
  destruct (@empty_selection_never_completes Linux.env) as (_ & Hkey & _).
  cbn [exec]. rewrite probe_step.
  change (step (promptingAt [] (checkInstalledLanguages []) 0 ∅) EvOther)
    with (Running (promptingAt [] ∅ 0 ∅)).
  cbn iota. rewrite (Hkey "y"); [done|]. unfold promptKeys. by left.
Defined.

(** ** Further properties: the probe and the prompt *)

Lemma probe_fold `{GoEnv} (languages : list string) (lang : string)
    (acc : gmap string InstallationStatus) :
  foldl (λ status l, <[l := probeStatus l]> status) acc languages !! lang =
    if decide (lang ∈ languages) then Some (probeStatus lang) else acc !! lang.
Proof.
  revert acc. induction languages as [|l rest IH]; intros acc; simpl.
  - done.
  - rewrite IH. destruct (decide (lang ∈ rest)) as [Hin | Hout].
    + by rewrite decide_True by (by right).
    + destruct (decide (l = lang)) as [-> | Hne].
      * rewrite decide_True by (by left). by rewrite lookup_insert_eq.
      * rewrite decide_False by (by intros [-> | Hin]%elem_of_cons).
        by rewrite lookup_insert_ne.
Qed.

(** X1. The status map the probe delivers has an entry for exactly the
    selected languages; the entry of a language is the result of probing
    it, labelled with that language and with no error, however often the
    language occurs in the selection. *)
Theorem checkInstalledLanguages_lookup `{GoEnv} (languages : list string)
    (lang : string) :
  checkInstalledLanguages languages !! lang =
    (if decide (lang ∈ languages) then Some (probeStatus lang) else None) ∧
  dom (checkInstalledLanguages languages) = list_to_set languages ∧
  Language (probeStatus lang) = lang ∧
  Error (probeStatus lang) = EmptyString ∧
  (Installed (probeStatus lang), Version (probeStatus lang),
   LatestVersion (probeStatus lang)) = checkLanguageInstallation lang.
Proof.
  split; [|split; [|split; [|split]]].
  - unfold checkInstalledLanguages. by rewrite probe_fold, lookup_empty.
  - apply set_eq. intros l. rewrite elem_of_dom, elem_of_list_to_set.
    unfold checkInstalledLanguages. rewrite probe_fold, lookup_empty.
    destruct (decide (l ∈ languages)) as [Hin | Hout].
    + split; [done | by eexists].
    + split; [by intros [? ?] | done].
  - unfold probeStatus. by destruct (checkLanguageInstallation lang) as [[? ?] ?].
  - unfold probeStatus. by destruct (checkLanguageInstallation lang) as [[? ?] ?].
  - unfold probeStatus. by destruct (checkLanguageInstallation lang) as [[? ?] ?].
Qed.

Lemma detectionCommand_cases `{GoEnv} (language : string) :
  (ToLower language ∈ toolchains ∧ is_Some (detectionCommand language) ∧
   is_Some (latestVersions !! ToLower language)) ∨
  ((ToLower language ∉ toolchains) ∧ detectionCommand language = None ∧
   latestVersions !! ToLower language = None).
Proof.
  unfold detectionCommand, toolchains.
  destruct (String.eqb_spec (ToLower language) "go") as [-> | Hgo];
    [left; repeat split; [set_solver | by eexists..] |].
  destruct (String.eqb_spec (ToLower language) "python") as [-> | Hpython];
    [left; repeat split; [set_solver | by eexists..] |].
  destruct (String.eqb_spec (ToLower language) "rust") as [-> | Hrust];
    [left; repeat split; [set_solver | by eexists..] |].
  destruct (String.eqb_spec (ToLower language) "c++") as [-> | Hcpp];
    [left; repeat split; [set_solver | destruct (GOOS =? "darwin"); by eexists
                          | by eexists] |].
  destruct (String.eqb_spec (ToLower language) "java") as [-> | Hjava];
    [left; repeat split; [set_solver | by eexists..] |].
  right. split; [|split; [done|]].
  - rewrite !elem_of_cons, elem_of_nil.
    by intros [Hl | [Hl | [Hl | [Hl | [Hl | []]]]]].
  - unfold latestVersions. simpl.
    rewrite !lookup_insert_ne by done. apply lookup_empty.
Qed.

(** X2. The probe has a detection command for exactly the languages the
    table of latest versions has an entry for. So a toolchain reported
    installed always comes with a non-empty latest version, the entry of
    its lower-cased name; and a toolchain reported not installed comes
    with two empty versions. *)
Theorem probe_installed_latest `{GoEnv} (language : string) :
  (is_Some (detectionCommand language) ↔
   is_Some (latestVersions !! ToLower language)) ∧
  (∀ version latest,
     checkLanguageInstallation language = (true, version, latest) →
     ToLower language ∈ toolchains ∧
     latestVersions !! ToLower language = Some latest ∧
     latest ≠ EmptyString) ∧
  (∀ version latest,
     checkLanguageInstallation language = (false, version, latest) →
     version = EmptyString ∧ latest = EmptyString).
Proof.
  split; [|split].
  - destruct (detectionCommand_cases language)
      as [(_ & Hd & Hl) | (_ & -> & ->)]; [done|].
    split; by intros [? ?].
  - intros version latest.
    destruct (detectionCommand_cases language)
      as [(Hin & _ & [v Hv]) | (_ & Hd & _)].
    + unfold checkLanguageInstallation, getLatestVersion. rewrite Hv. simpl.
      destruct (detectionCommand language) as [cmd|]; [|done].
      destruct (CombinedOutput cmd) as [output [e|]]; [done|].
      intros [= _ <-]. split; [done|]. split; [done|].
      apply toolchains_cases in Hin.
      unfold latestVersions in Hv.
      destruct Hin as [Hl | [Hl | [Hl | [Hl | Hl]]]]; rewrite Hl in Hv;
        vm_compute in Hv; by injection Hv as <-.
    + unfold checkLanguageInstallation. by rewrite Hd.
  - intros version latest. unfold checkLanguageInstallation.
    destruct (detectionCommand language) as [cmd|]; [|by intros [= <- <-]].
    destruct (CombinedOutput cmd) as [output [e|]]; [by intros [= <- <-] | done].
Qed.

(** Go on the Linux machine: installed, with latest version 1.25.5. *)
Lemma probe_installed_latest_go :
  latestVersions !! @ToLower Linux.env "Go" = Some "1.25.5".
Proof.
  destruct (@probe_installed_latest Linux.env "Go") as (_ & Hin & _).
  by destruct (Hin "go version go1.20 linux/amd64" "1.25.5") as (_ & Hl & _).
Defined.

(** X3. A language for which the probe has no detection command is
    reported not installed, so that its default decision is install; it is
    one of the languages the dispatchers have no runner for, and the
    worker of the default decision fails with "unsupported language". *)
Theorem unprobed_default_fails `{GoEnv} (language : string) :
  detectionCommand language = None →
  Installed (probeStatus language) = false ∧
  getDefaultChoice (probeStatus language) = "install" ∧
  (ToLower language ∉ toolchains) ∧
  worker language (getDefaultChoice (probeStatus language)) =
    [SetResult language (errorResult (unsupported language));
     SetCurrentStep "error"; SetErrorMessage (unsupported language)].
Proof.
  intros Hd.
  assert (getDefaultChoice (probeStatus language) = "install") as Hdefault.
  { unfold probeStatus, checkLanguageInstallation. by rewrite Hd. }
  split; [unfold probeStatus, checkLanguageInstallation; by rewrite Hd|].
  split; [done|].
  destruct (detectionCommand_cases language)
    as [(_ & [cmd Hcmd] & _) | (Hout & _ & _)]; [by rewrite Hd in Hcmd|].
  split; [done|]. rewrite Hdefault.
  rewrite (worker_runnerOf language "install") by set_solver.
  by rewrite (unsupported_runner _ _ Hout).
Qed.

(** Ruby on the Linux machine. *)
Lemma unprobed_default_fails_ruby :
  getDefaultChoice (@probeStatus Linux.env "Ruby") = "install".
Proof.
  by destruct (@unprobed_default_fails Linux.env "Ruby" eq_refl) as (_ & Hd & _).
Defined.

Lemma append_assoc (a b c : string) : (a +:+ b) +:+ c = a +:+ b +:+ c.
Proof.
  induction a as [|x a IH]; [done|].
  change (String x ((a +:+ b) +:+ c) = String x (a +:+ b +:+ c)).
  by rewrite IH.
Qed.

(** X4. The prompt of an item ends with the options of its default
    decision: Install and Skip when the default is install, Update and
    Skip when it is update, Skip and Reinstall when it is skip. Of the
    four keys the prompts offer, "i", "s" and "r" are ignored by [Update]
    in every state: only "u" is handled. *)
Theorem prompt_options (language : string) (status : InstallationStatus) :
  (∃ header,
     formatPrompt language status =
       header +:+ promptOptions (getDefaultChoice status)) ∧
  (∀ h m key, key ∈ ["i"; "s"; "r"] →
              Update h m (KeyMsg key) = Ok (h, m, [])).
Proof.
  split.
  - unfold formatPrompt, getDefaultChoice, promptOptions.
    destruct (Installed status); cbn [negb].
    + destruct (Version status =? LatestVersion status); cbn [negb].
      * exists (language +:+ " is installed (version: " +:+ Version status +:+
                ")." +:+ String newline EmptyString).
        by rewrite !append_assoc.
      * exists (language +:+ " is installed (current: " +:+ Version status +:+
                ", latest: " +:+ LatestVersion status +:+ ")." +:+
                String newline EmptyString).
        by rewrite !append_assoc.
    + exists (language +:+ " is not installed." +:+ String newline EmptyString).
      by rewrite !append_assoc.
  - intros h m key. rewrite !elem_of_cons, elem_of_nil.
    by intros [-> | [-> | [-> | []]]].
Qed.

(** The prompt of a toolchain that is not installed. *)
Lemma prompt_options_not_installed :
  Update [] (NewDownloadInstallModel ["Go"]) (KeyMsg "s") =
    Ok ([], NewDownloadInstallModel ["Go"], []).
Proof.
  refine (proj2 (prompt_options "Go"
                   {| Language := "Go"; Installed := false;
                      Version := EmptyString; LatestVersion := EmptyString;
                      Error := EmptyString |}) [] _ "s" _).
  rewrite !elem_of_cons. auto.
Defined.

(** ** Further properties: the runners *)

Lemma progressWrites_app (a b : list Action) :
  progressWrites (a ++ b) = progressWrites a ++ progressWrites b.
Proof. apply omap_app. Qed.

Lemma commandsOf_app (a b : list Action) :
  commandsOf (a ++ b) = commandsOf a ++ commandsOf b.
Proof. apply omap_app. Qed.

Lemma resultsOf_app (a b : list Action) :
  resultsOf (a ++ b) = resultsOf a ++ resultsOf b.
Proof. apply omap_app. Qed.

Lemma runActions_app (t : LanguageProgress) (a b : list Action) :
  runActions t (a ++ b) = runActions (runActions t a) b.
Proof. apply foldl_app. Qed.

(** Lines printed to the terminal touch neither the tracker nor the
    results, and run nothing. *)
Lemma printed_silent (before : list Action) :
  Forall (λ a, ∃ line, a = Println line) before →
  progressWrites before = [] ∧ commandsOf before = [] ∧
  resultsOf before = [] ∧ ∀ t, runActions t before = t.
Proof.
  induction 1 as [|a before [line ->] _ (Hp & Hc & Hr & Ht)]; [done|].
  repeat split; [done.. |]. intros t. apply Ht.
Qed.

(** The runner of a supported toolchain: three steps, the write of
    progress 1.0 under the last step's name, possibly a printed line, and
    one command whose error it returns. The update of Go has three steps
    of its own before those of the Go installer. *)
Lemma runnerOf_shape `{GoEnv} (language choice : string) :
  ToLower language ∈ toolchains → choice ∈ ["install"; "update"] →
  ∃ (s0 s1 s2 : string) (before : list Action) (cmd : exec_Cmd),
    Forall (λ a, ∃ line, a = Println line) before ∧
    ((runnerOf language choice =
        withProgress [s0; s1; s2] s2 (before ++ [RunCommand cmd], Run cmd) ∧
      (ToLower language =? "go") && (choice =? "update") = false) ∨
     (∃ r0 r1 r2 : string,
        runnerOf language choice =
          withProgress [r0; r1; r2] r2
            (withProgress [s0; s1; s2] s2 (before ++ [RunCommand cmd], Run cmd)) ∧
        ToLower language = "go" ∧ choice = "update")).
Proof.
  intros Hl Hc.
  apply toolchains_cases in Hl. apply choice_cases in Hc.
  destruct (GOOS =? "darwin") eqn:Hos.
  all: destruct Hc as [-> | ->];
    destruct Hl as [Hl | [Hl | [Hl | [Hl | Hl]]]].
  all: first
    [ eexists _, _, _, [], _; split; [constructor|];
      left; split; finish_runner
    | eexists _, _, _, [Println _], _;
      split; [constructor; [by eexists | constructor]|];
      left; split; finish_runner
    | eexists _, _, _, [], _; split; [constructor|];
      right; eexists _, _, _; split; [dispatch_runner | done] ].
Qed.

(** X5. Package main and package models dispatch every language and
    decision to runners that run the same commands and return the same
    error, on every operating system: the runners of package models only
    add the progress writes, of which those of package main have none.
    No runner runs more than one command. *)
Theorem runners_agree `{GoEnv} (language choice : string) :
  commandsOf (runnerOf language choice).1 =
    commandsOf (plainRunnerOf language choice).1 ∧
  (runnerOf language choice).2 = (plainRunnerOf language choice).2 ∧
  progressWrites (plainRunnerOf language choice).1 = [] ∧
  (length (commandsOf (runnerOf language choice).1) ≤ 1)%nat.
Proof.
  unfold runnerOf, plainRunnerOf, installLanguageWithProgress,
    updateLanguageWithProgress, Plain.installLanguage, Plain.updateLanguage.
  cbv zeta.
  destruct (choice =? "install");
    destruct (ToLower language =? "go"); [by repeat split | | by repeat split |];
    destruct (ToLower language =? "python");
    [ unfold installPythonWithProgress, updatePythonWithProgress,
        Plain.installPython, Plain.updatePython;
      destruct (GOOS =? "darwin"); by repeat split
    | | unfold installPythonWithProgress, updatePythonWithProgress,
        Plain.installPython, Plain.updatePython;
      destruct (GOOS =? "darwin"); by repeat split | ];
    destruct (ToLower language =? "rust"); [by repeat split | | by repeat split |];
    destruct (ToLower language =? "c++");
    [ unfold installCppWithProgress, updateCppWithProgress,
        Plain.installCpp, Plain.updateCpp;
      destruct (GOOS =? "darwin"); by repeat split
    | | unfold installCppWithProgress, updateCppWithProgress,
        Plain.installCpp, Plain.updateCpp;
      destruct (GOOS =? "darwin"); by repeat split | ];
    (destruct (ToLower language =? "java");
     [ unfold installJavaWithProgress, updateJavaWithProgress,
         Plain.installJava, Plain.updateJava;
       destruct (GOOS =? "darwin"); by repeat split
     | repeat split; simpl; lia ]).
Qed.

(** X6. The progress values the worker of a supported toolchain writes
    to its tracker are, in order, 0/3, 1/3, 2/3 and 1.0, followed by a
    last 1.0 when the command succeeded; the update of Go writes the four
    values twice, so that its progress falls from 1.0 back to 0. Every
    value written lies between 0 and 1. *)
Theorem worker_progress_writes `{GoEnv} (language choice : string) :
  ToLower language ∈ toolchains → choice ∈ ["install"; "update"] →
  progressWrites (worker language choice) =
    (if (ToLower language =? "go") && (choice =? "update") then thirds else []) ++
    thirds ++
    match (runnerOf language choice).2 with
    | None => [1%float]
    | Some _ => []
    end ∧
  Forall (λ p, (0 <=? p)%float && (p <=? 1)%float = true)
         (progressWrites (worker language choice)).
Proof.
  intros Hl Hc.
  assert (progressWrites (worker language choice) =
    (if (ToLower language =? "go") && (choice =? "update") then thirds else []) ++
    thirds ++
    match (runnerOf language choice).2 with
    | None => [1%float]
    | Some _ => []
    end) as Hwrites.
  { rewrite (worker_runnerOf _ _ Hc).
    destruct (runnerOf_shape language choice Hl Hc)
      as (s0 & s1 & s2 & before & cmd & Hbefore &
          [[Hr Hgo] | (r0 & r1 & r2 & Hr & Hgo & ->)]).
    - rewrite Hr, Hgo. unfold withProgress. cbn [fst snd].
      destruct (printed_silent _ Hbefore) as (Hp & _).
      rewrite !progressWrites_app, announce_three. cbn [app].
      change (Locked 1 s2 :: before ++ [RunCommand cmd])
        with ([Locked 1 s2] ++ before ++ [RunCommand cmd]).
      rewrite !progressWrites_app, Hp. by destruct (Run cmd).
    - rewrite Hr, Hgo. unfold withProgress. cbn [fst snd].
      destruct (printed_silent _ Hbefore) as (Hp & _).
      change (Locked 1 r2 :: announce [s0; s1; s2] ++
                Locked 1 s2 :: before ++ [RunCommand cmd])
        with ([Locked 1 r2] ++ announce [s0; s1; s2] ++
                [Locked 1 s2] ++ before ++ [RunCommand cmd]).
      rewrite !progressWrites_app, !announce_three, Hp.
      by destruct (Run cmd). }
  split; [done|]. rewrite Hwrites.
  destruct ((ToLower language =? "go") && (choice =? "update"));
    destruct (runnerOf language choice).2; by repeat constructor.
Qed.

(** Installing Python on the Linux machine, where the command fails. *)
Lemma worker_progress_writes_python :
  progressWrites (@worker Linux.env "Python" "install") = thirds.
Proof.
  refine (proj1 (@worker_progress_writes Linux.env "Python" "install" _ _)).
  - unfold toolchains. rewrite !elem_of_cons. right. by left.
  - rewrite !elem_of_cons. by left.
Defined.

(** X7. The worker of a supported toolchain runs exactly one command,
    and has written progress 1.0 to its tracker before it runs it: at
    that moment the poll tick no longer counts the tracker as installing.
    After the command only the outcome is written. *)
Theorem command_after_full_progress `{GoEnv} (language choice : string) :
  ToLower language ∈ toolchains → choice ∈ ["install"; "update"] →
  ∃ (pre : list Action) (cmd : exec_Cmd),
    worker language choice =
      pre ++ RunCommand cmd :: conclude language (doneWord choice) (Run cmd) ∧
    commandsOf (worker language choice) = [cmd] ∧
    ∀ t, Progress (runActions t pre) = 1%float ∧
         stillInstalling (runActions t pre) = false.
Proof.
  intros Hl Hc. rewrite (worker_runnerOf _ _ Hc).
  assert (∀ t, Progress t = 1%float →
               Progress t = 1%float ∧ stillInstalling t = false) as Hfull.
  { intros t Ht. split; [done|].
    apply terminal_not_stillInstalling. by left. }
  destruct (runnerOf_shape language choice Hl Hc)
    as (s0 & s1 & s2 & before & cmd & Hbefore &
        [[Hr Hgo] | (r0 & r1 & r2 & Hr & Hgo & ->)]);
    destruct (printed_silent _ Hbefore) as (_ & Hcmds & _ & Hsame).
  - exists (announce [s0; s1; s2] ++ Locked 1 s2 :: before), cmd.
    rewrite Hr. unfold withProgress. cbn [fst snd].
    split; [by rewrite <- !app_assoc; cbn [app]; rewrite <- app_assoc|].
    split.
    + change (Locked 1 s2 :: before ++ [RunCommand cmd])
        with ([Locked 1 s2] ++ before ++ [RunCommand cmd]).
      rewrite !commandsOf_app, Hcmds. by destruct (Run cmd).
    + intros t.
      change (Locked 1 s2 :: before) with ([Locked 1 s2] ++ before).
      rewrite !runActions_app, Hsame. by apply Hfull.
  - exists (announce [r0; r1; r2] ++ Locked 1 r2 ::
            announce [s0; s1; s2] ++ Locked 1 s2 :: before), cmd.
    rewrite Hr. unfold withProgress. cbn [fst snd].
    split.
    { rewrite <- !app_assoc. cbn [app]. rewrite <- !app_assoc. cbn [app].
      by rewrite <- app_assoc. }
    split.
    + change (Locked 1 r2 :: announce [s0; s1; s2] ++
                Locked 1 s2 :: before ++ [RunCommand cmd])
        with ([Locked 1 r2] ++ announce [s0; s1; s2] ++
                [Locked 1 s2] ++ before ++ [RunCommand cmd]).
      rewrite !commandsOf_app, Hcmds. by destruct (Run cmd).
    + intros t.
      change (Locked 1 r2 :: announce [s0; s1; s2] ++ Locked 1 s2 :: before)
        with ([Locked 1 r2] ++ announce [s0; s1; s2] ++ [Locked 1 s2] ++ before).
      rewrite !runActions_app, Hsame. by apply Hfull.
Qed.

(** Updating Rust on the Linux machine. *)
Lemma command_after_full_progress_rust :
  ∃ (pre : list Action) (cmd : exec_Cmd),
    @worker Linux.env "Rust" "update" =
      pre ++ RunCommand cmd ::
        @conclude "Rust" (doneWord "update") (@Run Linux.env cmd) ∧
    commandsOf (@worker Linux.env "Rust" "update") = [cmd] ∧
    ∀ t, Progress (runActions t pre) = 1%float ∧
         stillInstalling (runActions t pre) = false.
Proof.
  apply (@command_after_full_progress Linux.env "Rust" "update").
  - unfold toolchains. rewrite !elem_of_cons. right. right. by left.
  - rewrite !elem_of_cons. right. by left.
Defined.

(** X8. Whatever the language, supported or not, the worker of an
    install or update decision records exactly one result, for its own
    language, and leaves its tracker in agreement with it: on success the
    word for the decision, step "complete" and progress 1.0; on failure
    "error: " and the error, step "error" and the error as message. Either
    way the poll tick counts the tracker as finished. *)
Theorem worker_outcome `{GoEnv} (language choice : string)
    (t : LanguageProgress) :
  choice ∈ ["install"; "update"] →
  let err := (runnerOf language choice).2 in
  let t' := runActions t (worker language choice) in
  resultsOf (worker language choice) =
    [(language, Plain.resultOf (doneWord choice) err)] ∧
  stillInstalling t' = false ∧
  match err with
  | None => Progress t' = 1%float ∧ CurrentStep t' = "complete"
  | Some e => CurrentStep t' = "error" ∧ ErrorMessage t' = e
  end.
Proof.
  intros Hc err t'.
  assert (resultsOf (runnerOf language choice).1 = []) as Hnone.
  { destruct (decide (ToLower language ∈ toolchains)) as [Hl | Hl].
    - destruct (runnerOf_shape language choice Hl Hc)
        as (s0 & s1 & s2 & before & cmd & Hbefore &
            [[Hr Hgo] | (r0 & r1 & r2 & Hr & Hgo & ->)]);
        destruct (printed_silent _ Hbefore) as (_ & _ & Hres & _);
        rewrite Hr; unfold withProgress; cbn [fst snd].
      + change (Locked 1 s2 :: before ++ [RunCommand cmd])
          with ([Locked 1 s2] ++ before ++ [RunCommand cmd]).
        by rewrite !resultsOf_app, Hres.
      + change (Locked 1 r2 :: announce [s0; s1; s2] ++
                  Locked 1 s2 :: before ++ [RunCommand cmd])
          with ([Locked 1 r2] ++ announce [s0; s1; s2] ++
                  [Locked 1 s2] ++ before ++ [RunCommand cmd]).
        by rewrite !resultsOf_app, Hres.
    - by rewrite (unsupported_runner _ _ Hl). }
  pose proof (conclude_tracker language (doneWord choice) err t
                (runnerOf language choice).1) as Hend.
  cbv zeta in Hend. fold err in Hend.
  subst t'. rewrite (worker_runnerOf _ _ Hc). fold err.
  split; [|split; [|done]].
  - rewrite resultsOf_app, Hnone. by destruct err.
  - apply terminal_not_stillInstalling. unfold terminal.
    destruct err; [right | left]; by destruct Hend.
Qed.

(** Ruby, which has no runner, on the Linux machine. *)
Lemma worker_outcome_ruby :
  resultsOf (@worker Linux.env "Ruby" "install") =
    [("Ruby", "error: unsupported language: Ruby")].
Proof.
  refine (proj1 (@worker_outcome Linux.env "Ruby" "install" (newTracker "Ruby") _)).
  rewrite !elem_of_cons. by left.
Defined.

(** ** Further properties: package main *)


Lemma elem_of_cons_dec (lang l : string) (rest : list string) :
  (if decide (lang ∈ l :: rest) then true else false) =
  (if decide (l = lang) then true
   else if decide (lang ∈ rest) then true else false).
Proof.
  destruct (decide (l = lang)) as [-> | Hne].
  - by rewrite decide_True by (by left).
  - destruct (decide (lang ∈ rest)) as [Hin | Hout].
    + by rewrite decide_True by (by right).
    + by rewrite decide_False by (by intros [-> | Hin]%elem_of_cons).
Qed.

Lemma installOne_lookup `{GoEnv} (choices : gmap string string)
    (acc : list Action * gmap string string) (l lang : string) :
  (Plain.installOne choices acc l).2 !! lang =
    if decide (l = lang) then
      match plainResult choices lang with
      | Some r => Some r
      | None => acc.2 !! lang
      end
    else acc.2 !! lang.
Proof.
  unfold Plain.installOne, plainResult, plainRunnerOf, doneWord. cbv zeta.
  destruct (decide (l = lang)) as [-> | Hne].
  - destruct (choiceOf choices lang =? "skip");
      [by cbn [snd]; rewrite lookup_insert_eq|].
    destruct (choiceOf choices lang =? "install");
      [by cbn [snd orb]; rewrite lookup_insert_eq|].
    destruct (choiceOf choices lang =? "update");
      [by cbn [snd orb]; rewrite lookup_insert_eq | done].
  - destruct (choiceOf choices l =? "skip");
      [by cbn [snd]; rewrite lookup_insert_ne|].
    destruct (choiceOf choices l =? "install");
      [by cbn [snd]; rewrite lookup_insert_ne|].
    destruct (choiceOf choices l =? "update");
      [by cbn [snd]; rewrite lookup_insert_ne | done].
Qed.

Lemma installOne_commands `{GoEnv} (choices : gmap string string)
    (acc : list Action * gmap string string) (l : string) :
  commandsOf (Plain.installOne choices acc l).1 =
    commandsOf acc.1 ++ plainCommands choices l.
Proof.
  unfold Plain.installOne, plainCommands, plainRunnerOf. cbv zeta.
  destruct (choiceOf choices l =? "skip") eqn:Hskip.
  - apply String.eqb_eq in Hskip. rewrite Hskip. cbn. by rewrite app_nil_r.
  - destruct (choiceOf choices l =? "install");
      [by cbn [fst orb]; rewrite commandsOf_app|].
    destruct (choiceOf choices l =? "update");
      [by cbn [fst orb]; rewrite commandsOf_app|].
    cbn [orb]. by rewrite app_nil_r.
Qed.

Lemma installSelected_fold `{GoEnv} (languages : list string)
    (choices : gmap string string) (acc : list Action * gmap string string)
    (lang : string) :
  let r := foldl (Plain.installOne choices) acc languages in
  r.2 !! lang =
    (if decide (lang ∈ languages) then
       match plainResult choices lang with
       | Some res => Some res
       | None => acc.2 !! lang
       end
     else acc.2 !! lang) ∧
  commandsOf r.1 = commandsOf acc.1 ++ mjoin (plainCommands choices <$> languages).
Proof.
  revert acc. induction languages as [|l rest IH]; intros acc; cbn [foldl].
  - split; [done|]. cbn. by rewrite app_nil_r.
  - destruct (IH (Plain.installOne choices acc l)) as [IHres IHcmd].
    cbv zeta. split.
    + rewrite IHres, installOne_lookup.
      pose proof (elem_of_cons_dec lang l rest) as Hdec.
      destruct (decide (lang ∈ l :: rest)), (decide (l = lang)),
        (decide (lang ∈ rest)), (plainResult choices lang); done.
    + rewrite IHcmd, installOne_commands. cbn. by rewrite <- app_assoc.
Qed.

(** X10. Package main installs the selection in one pass: the results
    of its completion message have an entry for exactly the selected
    languages decided skip, install or update, which is "skipped", or the
    word for the decision, or "error: " and the error of the runner; the
    commands are run one after the other in the order of the selection,
    none for a skipped language, and the failure of one does not keep the
    following ones from running. *)
Theorem plain_install_results `{GoEnv} (languages : list string)
    (choices : gmap string string) (lang : string) :
  (Plain.installSelectedLanguages languages choices).2 !! lang =
    (if decide (lang ∈ languages) then plainResult choices lang else None) ∧
  commandsOf (Plain.installSelectedLanguages languages choices).1 =
    mjoin (plainCommands choices <$> languages).
Proof.
  destruct (installSelected_fold languages choices ([], ∅) lang) as [Hres Hcmd].
  split; [|done]. unfold Plain.installSelectedLanguages. rewrite Hres.
  destruct (decide (lang ∈ languages)); [|done].
  by destruct (plainResult choices lang).
Qed.

Lemma applyResult_fold (res : gmap string string) (actions : list Action) :
  foldl applyResult res actions =
    foldl (λ r p, <[p.1 := p.2]> r) res (resultsOf actions).
Proof.
  revert res. induction actions as [|a rest IH]; intros res; [done|].
  destruct a; cbn; apply IH.
Qed.

(** The error of a runner is that of its counterpart in package main. *)
Lemma runner_error_agree `{GoEnv} (language choice : string) :
  (runnerOf language choice).2 = (plainRunnerOf language choice).2.
Proof.
  unfold runnerOf, plainRunnerOf, installLanguageWithProgress,
    updateLanguageWithProgress, Plain.installLanguage, Plain.updateLanguage.
  cbv zeta.
  unfold installPythonWithProgress, updatePythonWithProgress,
    installCppWithProgress, updateCppWithProgress, installJavaWithProgress,
    updateJavaWithProgress, Plain.installPython, Plain.updatePython,
    Plain.installCpp, Plain.updateCpp, Plain.installJava, Plain.updateJava.
  destruct (choice =? "install"), (ToLower language =? "go"),
    (ToLower language =? "python"), (ToLower language =? "rust"),
    (ToLower language =? "c++"), (ToLower language =? "java"),
    (GOOS =? "darwin"); reflexivity.
Qed.

(** The results the workers of a selection record. *)
Lemma worker_results `{GoEnv} (language choice : string) :
  resultsOf (worker language choice) =
    if (choice =? "install") || (choice =? "update") then
      [(language, Plain.resultOf (doneWord choice) (plainRunnerOf language choice).2)]
    else [].
Proof.
  assert (∀ c, c ∈ ["install"; "update"] →
    resultsOf (worker language c) =
      [(language, Plain.resultOf (doneWord c) (plainRunnerOf language c).2)])
    as Hone.
  { intros c Hc. rewrite <- runner_error_agree, (worker_runnerOf _ _ Hc).
    assert (resultsOf (runnerOf language c).1 = []) as Hnone.
    { destruct (decide (ToLower language ∈ toolchains)) as [Hl | Hl].
      - destruct (runnerOf_shape language c Hl Hc)
          as (s0 & s1 & s2 & before & cmd & Hbefore &
              [[Hr Hgo] | (r0 & r1 & r2 & Hr & Hgo & ->)]);
          destruct (printed_silent _ Hbefore) as (_ & _ & Hres & _);
          rewrite Hr; unfold withProgress; cbn [fst snd].
        + change (Locked 1 s2 :: before ++ [RunCommand cmd])
            with ([Locked 1 s2] ++ before ++ [RunCommand cmd]).
          by rewrite !resultsOf_app, Hres.
        + change (Locked 1 r2 :: announce [s0; s1; s2] ++
                    Locked 1 s2 :: before ++ [RunCommand cmd])
            with ([Locked 1 r2] ++ announce [s0; s1; s2] ++
                    [Locked 1 s2] ++ before ++ [RunCommand cmd]).
          by rewrite !resultsOf_app, Hres.
      - by rewrite (unsupported_runner _ _ Hl). }
    rewrite resultsOf_app, Hnone. by destruct (runnerOf language c).2. }
  destruct (choice =? "install") eqn:Hi.
  { apply String.eqb_eq in Hi as ->. apply Hone. set_solver. }
  destruct (choice =? "update") eqn:Hu.
  { apply String.eqb_eq in Hu as ->. apply Hone. set_solver. }
  unfold worker. by rewrite Hi, Hu.
Qed.

Lemma skippedResults_fold (languages : list string)
    (choices : gmap string string) (acc : gmap string string) (lang : string) :
  foldl (λ res l,
           if choiceOf choices l =? "skip" then <[l := "skipped"]> res else res)
        acc languages !! lang =
    if decide (lang ∈ languages) then
      if choiceOf choices lang =? "skip" then Some "skipped" else acc !! lang
    else acc !! lang.
Proof.
  revert acc. induction languages as [|l rest IH]; intros acc; cbn [foldl];
    [done|].
  rewrite IH. destruct (decide (l = lang)) as [-> | Hne].
  - rewrite (decide_True (P := lang ∈ lang :: rest)) by (by left).
    destruct (choiceOf choices lang =? "skip").
    + rewrite lookup_insert_eq. by destruct (decide (lang ∈ rest)).
    + by destruct (decide (lang ∈ rest)).
  - assert ((if choiceOf choices l =? "skip" then <[l := "skipped"]> acc
             else acc) !! lang = acc !! lang) as ->.
    { destruct (choiceOf choices l =? "skip"); [by rewrite lookup_insert_ne | done]. }
    destruct (decide (lang ∈ rest)) as [Hin | Hout].
    + by rewrite (decide_True (P := lang ∈ l :: rest)) by (by right).
    + by rewrite (decide_False (P := lang ∈ l :: rest))
        by (by intros [-> | Hin]%elem_of_cons).
Qed.

Lemma spawned_results `{GoEnv} (j : nat) (languages : list string)
    (choices : gmap string string) (h : Heap) (trackers : gmap string ptr)
    (acc : gmap string string) (lang : string) :
  foldl (λ r p, <[p.1 := p.2]> r) acc
        (resultsOf (mjoin (todo <$> spawnWorkers j languages choices h trackers)))
    !! lang =
    if decide (lang ∈ languages) then
      if choiceOf choices lang =? "skip" then acc !! lang
      else match plainResult choices lang with
           | Some r => Some r
           | None => acc !! lang
           end
    else acc !! lang.
Proof.
  revert acc. induction languages as [|l rest IH]; intros acc; [done|].
  unfold spawnWorkers. cbn [flat_map]. rewrite fmap_app, join_app, resultsOf_app.
  rewrite foldl_app. fold (spawnWorkers j rest choices h trackers).
  rewrite IH. pose proof (elem_of_cons_dec lang l rest) as Hdec.
  assert (foldl (λ r p, <[p.1 := p.2]> r) acc
            (resultsOf (mjoin (todo <$>
               (if choiceOf choices l =? "skip" then []
                else [{| language := l;
                         prog := default (length h) (trackers !! l);
                         job := j; todo := worker l (choiceOf choices l);
                         writing := false |}]))))
            !! lang =
          if decide (l = lang) then
            if choiceOf choices lang =? "skip" then acc !! lang
            else match plainResult choices lang with
                 | Some r => Some r
                 | None => acc !! lang
                 end
          else acc !! lang) as Hhead.
  { unfold plainResult. cbv zeta.
    destruct (decide (l = lang)) as [-> | Hne].
    - destruct (choiceOf choices lang =? "skip"); [done|].
      cbn [fmap list_fmap mjoin list_join todo]. rewrite app_nil_r, worker_results.
      destruct ((choiceOf choices lang =? "install") ||
                (choiceOf choices lang =? "update")); [|done].
      cbn. by rewrite lookup_insert_eq.
    - destruct (choiceOf choices l =? "skip"); [done|].
      cbn [fmap list_fmap mjoin list_join todo]. rewrite app_nil_r, worker_results.
      destruct ((choiceOf choices l =? "install") ||
                (choiceOf choices l =? "update")); [|done].
      cbn. by rewrite lookup_insert_ne. }
  rewrite Hhead.
  destruct (decide (lang ∈ l :: rest)), (decide (lang ∈ rest)),
    (decide (l = lang)); try done;
    destruct (choiceOf choices lang =? "skip"); try done;
    by destruct (plainResult choices lang).
Qed.

(** X11. The results the two packages collect are the same. When the
    workers the install closure starts run to their end, in the order
    they were started, the results of the background goroutine are those
    of the completion message of package main, entry by entry. *)
Theorem variants_same_results `{GoEnv} (j : nat) (languages : list string)
    (choices : gmap string string) (h : Heap) (trackers : gmap string ptr)
    (lang : string) :
  foldl applyResult (skippedResults languages choices)
        (mjoin (todo <$> spawnWorkers j languages choices h trackers)) !! lang =
  (Plain.installSelectedLanguages languages choices).2 !! lang.
Proof.
  destruct (installSelected_fold languages choices ([], ∅) lang) as [Hres _].
  unfold Plain.installSelectedLanguages. rewrite Hres.
  rewrite applyResult_fold, spawned_results. unfold skippedResults.
  rewrite skippedResults_fold. cbn [snd]. rewrite lookup_empty.
  destruct (decide (lang ∈ languages)); [|done].
  unfold plainResult. cbv zeta.
  by destruct (choiceOf choices lang =? "skip").
Qed.

(** ** Further properties: the menu and the main model *)

Lemma choiceAt_some (m : Menu.Decor) (i : Z) :
  (0 ≤ i < Z.of_nat (length (Menu.choices m)))%Z →
  ∃ name, Menu.choiceAt m i = Ok name ∧
          Menu.choices m !! Z.to_nat i = Some name.
Proof.
  intros Hi. unfold Menu.choiceAt.
  destruct (Z.ltb_spec i 0) as [Hneg | _]; [lia|].
  destruct (lookup_lt_is_Some_2 (Menu.choices m) (Z.to_nat i)) as [name Hname];
    [lia|].
  exists name. by rewrite Hname.
Qed.

(** [Selections] on indices of choices: one name for each index ranged
    over, in that order. *)
Lemma Selections_names (order : list Z) (m : Menu.Decor) :
  (∀ i, i ∈ order → (0 ≤ i < Z.of_nat (length (Menu.choices m)))%Z) →
  ∃ selected,
    Menu.Selections order m = Ok selected ∧
    Forall2 (λ i name, Menu.choices m !! Z.to_nat i = Some name) order selected.
Proof.
  induction order as [|i rest IH]; intros Hin; [by exists []|].
  destruct (choiceAt_some m i) as (name & Hname & Hlookup);
    [apply Hin; by left|].
  destruct IH as (selected & Hsel & Hall); [intros k Hk; apply Hin; by right|].
  exists (name :: selected). cbn [Menu.Selections].
  rewrite Hname, Hsel. split; [done | by constructor].
Qed.

Lemma ranges_in_bounds (order : list Z) (m : Menu.Decor) :
  menuOk m → order ≡ₚ elements (Menu.Selected m) →
  ∀ i, i ∈ order → (0 ≤ i < Z.of_nat (length (Menu.choices m)))%Z.
Proof.
  intros (_ & _ & Hsel) Horder i Hi. apply Hsel.
  apply elem_of_elements. by rewrite <- Horder.
Qed.

(** The menu keeps its good standing, and does not panic. *)
Lemma menuUpdate_ok (order : list Z) (m : Menu.Decor) (msg : Msg) :
  menuOk m → order ≡ₚ elements (Menu.Selected m) →
  ∃ screen cmd,
    menuUpdate order m msg = Ok (screen, cmd) ∧
    match screen with
    | MenuScreen m' => menuOk m' ∧ Menu.choices m' = Menu.choices m
    | InstallScreen d =>
        msg = KeyMsg "n" ∧ cmd = [] ∧
        ∃ selected, Menu.Selections order m = Ok selected ∧
                    d = NewDownloadInstallModel selected
    end.
Proof.
  intros Hok Horder. pose proof Hok as (Hdup & Hcursor & Hsel).
  destruct msg as [key| | | | | | |]; try by eexists _, _.
  unfold menuUpdate.
  destruct ((key =? "ctrl+c") || (key =? "q")); [by eexists _, _|].
  destruct ((key =? "up") || (key =? "k")).
  { destruct (Z.gtb_spec (Menu.cursor m) 0) as [Hup | _]; [|by eexists _, _].
    eexists _, _. split; [done|]. split; [|done].
    split; [done|]. split; [cbn; lia | done]. }
  destruct ((key =? "down") || (key =? "j")).
  { destruct (Z.ltb_spec (Menu.cursor m) (Z.of_nat (length (Menu.choices m)) - 1))
      as [Hdown | _]; [|by eexists _, _].
    eexists _, _. split; [done|]. split; [|done].
    split; [done|]. split; [cbn; lia | done]. }
  destruct (key =? "n") eqn:Hn.
  { apply String.eqb_eq in Hn as ->.
    destruct (Selections_names order m (ranges_in_bounds order m Hok Horder))
      as (selected & Hselected & _).
    rewrite Hselected. eexists _, _. split; [done|].
    split; [done|]. split; [done|]. by exists selected. }
  destruct ((key =? "enter") || (key =? " ")); [|by eexists _, _].
  destruct (bool_decide (Menu.cursor m ∈ Menu.Selected m)).
  - eexists _, _. split; [done|]. split; [|done].
    split; [done|]. split; [done|]. cbn. intros i Hi. apply Hsel.
    apply elem_of_difference in Hi. by destruct Hi.
  - eexists _, _. split; [done|]. split; [|done].
    split; [done|]. split; [done|]. cbn. intros i Hi.
    apply elem_of_union in Hi as [Hi | Hi]; [|by apply Hsel].
    apply elem_of_singleton in Hi. by subst i.
Qed.

(** X12. The menu never panics and keeps its good standing: whatever
    the message, the cursor stays on one of the choices, moving by one
    place at most, the choices stay the same, and the selection changes
    at the cursor only, and only when the cursor stays. The one message
    that leaves the menu is the key "n", which hands the selection over to
    a new orchestrator, with no command. *)
Theorem menu_update_spec (order : list Z) (m : Menu.Decor) (msg : Msg) :
  menuOk m → order ≡ₚ elements (Menu.Selected m) →
  ∃ screen cmd,
    menuUpdate order m msg = Ok (screen, cmd) ∧
    match screen with
    | MenuScreen m' =>
        menuOk m' ∧ Menu.choices m' = Menu.choices m ∧
        (Menu.cursor m - 1 ≤ Menu.cursor m' ≤ Menu.cursor m + 1)%Z ∧
        (∀ i, i ≠ Menu.cursor m →
              i ∈ Menu.Selected m' ↔ i ∈ Menu.Selected m) ∧
        (Menu.cursor m' ≠ Menu.cursor m →
         Menu.Selected m' = Menu.Selected m)
    | InstallScreen d =>
        msg = KeyMsg "n" ∧ cmd = [] ∧
        ∃ selected, Menu.Selections order m = Ok selected ∧
                    d = NewDownloadInstallModel selected
    end.
Proof.
  intros Hok Horder.
  destruct (menuUpdate_ok order m msg Hok Horder) as (screen & cmd & Hu & Hs).
  exists screen, cmd. split; [done|].
  destruct screen as [m' | d]; [|done].
  destruct Hs as [Hok' Hchoices]. split; [done|]. split; [done|].
  revert Hu. destruct msg as [key| | | | | | |];
    try (intros [= <- _]; split; [lia|]; split; done).
  unfold menuUpdate.
  destruct ((key =? "ctrl+c") || (key =? "q"));
    [intros [= <- _]; split; [lia|]; split; done|].
  destruct ((key =? "up") || (key =? "k")).
  { destruct (Menu.cursor m >? 0)%Z; intros [= <- _]; cbn;
      (split; [lia|]; split; done). }
  destruct ((key =? "down") || (key =? "j")).
  { destruct (Menu.cursor m <? Z.of_nat (length (Menu.choices m)) - 1)%Z;
      intros [= <- _]; cbn; (split; [lia|]; split; done). }
  destruct (key =? "n").
  { by destruct (Menu.Selections order m). }
  destruct ((key =? "enter") || (key =? " "));
    [|intros [= <- _]; split; [lia|]; split; done].
  destruct (bool_decide (Menu.cursor m ∈ Menu.Selected m));
    intros [= <- _]; cbn; (split; [lia|]; split; [|done]); intros i Hi.
  - rewrite elem_of_difference, elem_of_singleton. tauto.
  - rewrite elem_of_union, elem_of_singleton. tauto.
Qed.

(** The initial menu with its first choice selected. *)
Lemma menu_update_spec_down :
  ∃ screen cmd,
    menuUpdate [0%Z] (Menu.withSelected Menu.InitialModel {[0%Z]})
      (KeyMsg "down") = Ok (screen, cmd).
Proof.
  destruct (menu_update_spec [0%Z] (Menu.withSelected Menu.InitialModel {[0%Z]})
              (KeyMsg "down")) as (screen & cmd & Hu & _).
  - split; [|split].
    + cbn. repeat (constructor; [rewrite ?elem_of_cons, ?elem_of_nil; intuition discriminate|]).
      constructor.
    + cbn. lia.
    + cbn. intros i Hi. apply elem_of_singleton in Hi. lia.
  - cbn. by rewrite elements_singleton.
  - by exists screen, cmd.
Defined.

(** X13. [Selections] of a menu in good standing does not panic and
    returns one name for each selected index: as many names as there are
    selected indices, each the choice at a selected index, none twice, in
    the order in which the map was ranged over and not in that of the
    menu. *)
Theorem Selections_spec (order : list Z) (m : Menu.Decor) :
  menuOk m → order ≡ₚ elements (Menu.Selected m) →
  ∃ selected,
    Menu.Selections order m = Ok selected ∧
    Forall2 (λ i name, Menu.choices m !! Z.to_nat i = Some name) order selected ∧
    length selected = size (Menu.Selected m) ∧
    NoDup selected ∧
    ∀ name, name ∈ selected ↔
            ∃ i, i ∈ Menu.Selected m ∧
                 Menu.choices m !! Z.to_nat i = Some name.
Proof.
  intros Hok Horder. pose proof Hok as (Hdup & _ & Hsel).
  pose proof (ranges_in_bounds order m Hok Horder) as Hbounds.
  destruct (Selections_names order m Hbounds) as (selected & Hselected & Hall).
  exists selected. split; [done|]. split; [done|].
  assert (NoDup order) as Hnodup.
  { rewrite Horder. apply NoDup_elements. }
  split; [|split].
  - rewrite <- (Forall2_length _ _ _ Hall). unfold size, set_size. cbn.
    by rewrite Horder.
  - apply NoDup_alt. intros a b name Ha Hb.
    destruct (Forall2_lookup_r _ _ _ _ _ Hall Ha) as (i & Hi & Hni).
    destruct (Forall2_lookup_r _ _ _ _ _ Hall Hb) as (k & Hk & Hnk).
    pose proof (proj1 (NoDup_alt _) Hdup _ _ _ Hni Hnk) as Hik.
    assert (i = k) as ->.
    { pose proof (Hbounds i (list_elem_of_lookup_2 _ _ _ Hi)).
      pose proof (Hbounds k (list_elem_of_lookup_2 _ _ _ Hk)). lia. }
    apply (proj1 (NoDup_alt _) Hnodup _ _ _ Hi Hk).
  - intros name. split.
    + intros Hname. apply list_elem_of_lookup in Hname as [a Ha].
      destruct (Forall2_lookup_r _ _ _ _ _ Hall Ha) as (i & Hi & Hni).
      exists i. split; [|done]. apply elem_of_elements. rewrite <- Horder.
      by apply list_elem_of_lookup_2 in Hi.
    + intros (i & Hi & Hni). apply elem_of_elements in Hi.
      rewrite <- Horder in Hi. apply list_elem_of_lookup in Hi as [a Ha].
      destruct (Forall2_lookup_l _ _ _ _ _ Hall Ha) as (name' & Hname' & Hni').
      rewrite Hni in Hni'. injection Hni' as <-.
      by apply list_elem_of_lookup_2 in Hname'.
Qed.

(** The initial menu with its first choice selected. *)
Lemma Selections_spec_go :
  Menu.Selections [0%Z] (Menu.withSelected Menu.InitialModel {[0%Z]}) = Ok ["Go"].
Proof.
  destruct (Selections_spec [0%Z] (Menu.withSelected Menu.InitialModel {[0%Z]}))
    as (selected & Hselected & _).
  - split; [|split].
    + cbn. repeat (constructor; [rewrite ?elem_of_cons, ?elem_of_nil; intuition discriminate|]).
      constructor.
    + cbn. lia.
    + cbn. intros i Hi. apply elem_of_singleton in Hi. lia.
  - cbn. by rewrite elements_singleton.
  - reflexivity.
Defined.

(** X14. Toggling the choice under the cursor twice gives the menu back
    as it was. *)
Theorem toggle_twice (order : list Z) (m : Menu.Decor) (key : string) :
  key ∈ ["enter"; " "] →
  ∃ m1, menuUpdate order m (KeyMsg key) = Ok (MenuScreen m1, []) ∧
        (Menu.cursor m ∈ Menu.Selected m1 ↔ Menu.cursor m ∉ Menu.Selected m) ∧
        menuUpdate order m1 (KeyMsg key) = Ok (MenuScreen m, []).
Proof.
  intros Hkey.
  assert (menuUpdate order m (KeyMsg key) =
          if bool_decide (Menu.cursor m ∈ Menu.Selected m)
          then Ok (MenuScreen
                     (Menu.withSelected m (Menu.Selected m ∖ {[Menu.cursor m]})),
                   [])
          else Ok (MenuScreen
                     (Menu.withSelected m ({[Menu.cursor m]} ∪ Menu.Selected m)),
                   [])) as Hu.
  { revert Hkey. rewrite !elem_of_cons, elem_of_nil. by intros [-> | [-> | []]]. }
  assert (∀ m', menuUpdate order m' (KeyMsg key) =
          if bool_decide (Menu.cursor m' ∈ Menu.Selected m')
          then Ok (MenuScreen
                     (Menu.withSelected m' (Menu.Selected m' ∖ {[Menu.cursor m']})),
                   [])
          else Ok (MenuScreen
                     (Menu.withSelected m' ({[Menu.cursor m']} ∪ Menu.Selected m')),
                   [])) as Hu'.
  { intros m'. revert Hkey. rewrite !elem_of_cons, elem_of_nil.
    by intros [-> | [-> | []]]. }
  clear Hu. rewrite (Hu' m).
  destruct m as [names c sel]. cbn [Menu.cursor Menu.Selected].
  destruct (decide (c ∈ sel)) as [Hin | Hout].
  - rewrite bool_decide_true by done.
    eexists. split; [done|]. split.
    + cbn. rewrite elem_of_difference, elem_of_singleton. tauto.
    + rewrite Hu'. cbn. rewrite bool_decide_false
        by (rewrite elem_of_difference, elem_of_singleton; tauto).
      assert ({[c]} ∪ sel ∖ {[c]} = sel) as Hset.
      { apply set_eq. intros i.
        rewrite elem_of_union, elem_of_difference, elem_of_singleton.
        destruct (decide (i = c)) as [-> | Hne]; tauto. }
      unfold Menu.withSelected. cbn. by rewrite Hset.
  - rewrite bool_decide_false by done.
    eexists. split; [done|]. split.
    + cbn. rewrite elem_of_union, elem_of_singleton. tauto.
    + rewrite Hu'. cbn. rewrite bool_decide_true
        by (rewrite elem_of_union, elem_of_singleton; tauto).
      assert (({[c]} ∪ sel) ∖ {[c]} = sel) as Hset.
      { apply set_eq. intros i.
        rewrite elem_of_difference, elem_of_union, elem_of_singleton.
        split; [tauto|]. intros Hi. split; [tauto|]. by intros ->. }
      unfold Menu.withSelected. cbn. by rewrite Hset.
Qed.

(** Toggling the first choice of the initial menu with the space bar. *)
Lemma toggle_twice_space :
  ∃ m1, menuUpdate [] Menu.InitialModel (KeyMsg " ") = Ok (MenuScreen m1, []) ∧
        (Menu.cursor Menu.InitialModel ∈ Menu.Selected m1 ↔
         Menu.cursor Menu.InitialModel ∉ Menu.Selected Menu.InitialModel) ∧
        menuUpdate [] m1 (KeyMsg " ") = Ok (MenuScreen Menu.InitialModel, []).
Proof.
  apply (toggle_twice [] Menu.InitialModel " ").
  rewrite !elem_of_cons. right. by left.
Defined.

Lemma modelAt_insert (l : list Screen) (i : Z) (old new : Screen) :
  App.modelAt l i = Some old →
  App.modelAt (<[Z.to_nat i := new]> l) i = Some new.
Proof.
  unfold App.modelAt. destruct (i <? 0)%Z; [done|]. intros Hold.
  apply list_lookup_insert_eq. by apply lookup_lt_Some in Hold.
Qed.

(** The end of [Update] of the main model, in good standing. *)
Lemma forward_ok (order : list Z) (h : Heap) (m : App.MainModel) (msg : Msg) :
  appOk m → ranges order (App.activeModel m) →
  match App.forward order h m msg with
  | Ok (h1, m1, cmd) =>
      appOk m1 ∧ length (App.models m1) = length (App.models m) ∧
      App.activeUpdate order h (App.activeModel m) msg =
        Ok (h1, App.activeModel m1, cmd)
  | Panic reason =>
      ∃ d, App.activeModel m = InstallScreen d ∧ Update h d msg = Panic reason
  end.
Proof.
  intros (Hidx & Hat & Hmenu) Horder. unfold App.forward. rewrite Hat.
  assert (∀ updated,
            match updated with MenuScreen d => menuOk d | _ => True end →
            appOk {| App.activeModel := updated;
                     App.models :=
                       <[Z.to_nat (App.currentModelIdx m) := updated]>
                         (App.models m);
                     App.currentModelIdx := App.currentModelIdx m |}) as Hkeep.
  { intros updated Hupdated. split; [|split]; cbn.
    - by rewrite length_insert.
    - by apply (modelAt_insert _ _ (App.activeModel m)).
    - done. }
  destruct (App.activeModel m) as [d | d] eqn:Hactive; cbn [App.activeUpdate].
  - destruct (menuUpdate_ok order d msg Hmenu Horder)
      as (screen & cmd & -> & Hscreen).
    split; [|split; [by cbn; rewrite length_insert | done]].
    apply Hkeep. by destruct screen as [d' | d']; [destruct Hscreen|].
  - destruct (Update h d msg) as [[[h1 m1] cmd] | reason] eqn:Hu.
    + split; [by apply Hkeep|]. split; [by cbn; rewrite length_insert | done].
    + by exists d.
Qed.

(** X15. The main model keeps its good standing: the model on screen is
    the last of its list. Apart from the quit keys, a message goes to the
    model on screen, which is replaced by the model returned, the list
    keeping its length; except for the key "n" on the menu, which appends
    an orchestrator for the selection, puts it on screen and returns its
    probe as command. The branch of "n" that steps to a next model of the
    list is never taken. The main model panics only with the orchestrator
    on screen. *)
Theorem app_update_spec (order : list Z) (h : Heap) (m : App.MainModel)
    (msg : Msg) :
  appOk m → ranges order (App.activeModel m) →
  match App.Update order h m msg with
  | Ok (h1, m1, cmd) =>
      appOk m1 ∧
      ((length (App.models m1) = length (App.models m) ∧
        (msg = KeyMsg "ctrl+c" ∨ msg = KeyMsg "q" ∨
         App.activeUpdate order h (App.activeModel m) msg =
           Ok (h1, App.activeModel m1, cmd))) ∨
       (msg = KeyMsg "n" ∧ h1 = h ∧
        ∃ d selected,
          App.activeModel m = MenuScreen d ∧
          Menu.Selections order d = Ok selected ∧
          App.activeModel m1 = InstallScreen (NewDownloadInstallModel selected) ∧
          App.models m1 = App.models m ++ [App.activeModel m1] ∧
          cmd = [CmdCheck selected]))
  | Panic reason =>
      ∃ d, App.activeModel m = InstallScreen d ∧
           (msg = KeyMsg "n" ∨ Update h d msg = Panic reason)
  end.
Proof.
  intros Hok Horder.
  assert (match App.forward order h m msg with
          | Ok (h1, m1, cmd) =>
              appOk m1 ∧
              ((length (App.models m1) = length (App.models m) ∧
                (msg = KeyMsg "ctrl+c" ∨ msg = KeyMsg "q" ∨
                 App.activeUpdate order h (App.activeModel m) msg =
                   Ok (h1, App.activeModel m1, cmd))) ∨
               (msg = KeyMsg "n" ∧ h1 = h ∧
                ∃ d selected,
                  App.activeModel m = MenuScreen d ∧
                  Menu.Selections order d = Ok selected ∧
                  App.activeModel m1 =
                    InstallScreen (NewDownloadInstallModel selected) ∧
                  App.models m1 = App.models m ++ [App.activeModel m1] ∧
                  cmd = [CmdCheck selected]))
          | Panic reason =>
              ∃ d, App.activeModel m = InstallScreen d ∧
                   (msg = KeyMsg "n" ∨ Update h d msg = Panic reason)
          end) as Hforward.
  { pose proof (forward_ok order h m msg Hok Horder) as Hf.
    destruct (App.forward order h m msg) as [[[h1 m1] cmd] | reason].
    - destruct Hf as (Hok1 & Hlen & Hu). split; [done|]. left. by auto.
    - destruct Hf as (d & Hd & Hu). exists d. by auto. }
  destruct msg as [key| | | | | | |]; try exact Hforward.
  unfold App.Update.
  destruct ((key =? "ctrl+c") || (key =? "q")) eqn:Hquit.
  { split; [done|]. left. split; [done|].
    apply orb_true_iff in Hquit as [Hq | Hq]; apply String.eqb_eq in Hq as ->;
      by auto. }
  destruct (key =? "n") eqn:Hn; [|exact Hforward].
  apply String.eqb_eq in Hn as ->.
  pose proof Hok as (Hidx & Hat & Hmenu). rewrite Hidx.
  destruct (Z.gtb_spec (Z.of_nat (length (App.models m)) - 1 + 1)
              (Z.of_nat (length (App.models m)) - 1)) as [_ | Hle]; [|lia].
  destruct (App.activeModel m) as [d | d] eqn:Hactive.
  - destruct (Selections_names order d (ranges_in_bounds order d Hmenu Horder))
      as (selected & Hselected & _).
    rewrite Hselected. split.
    + split; [|split]; cbn; [done | | done].
      unfold App.modelAt. rewrite length_app. cbn.
      destruct (Z.ltb_spec (Z.of_nat (length (App.models m) + 1) - 1) 0)
        as [Hneg | _]; [lia|].
      apply list_lookup_middle. lia.
    + right. split; [done|]. split; [done|]. by exists d, selected.
  - exists d. by auto.
Qed.

(** Key "n" on the initial main model with its first choice selected. *)
Lemma app_update_spec_next :
  ∃ m1, App.Update [] [] App.InitialModel (KeyMsg "n") =
          Ok ([], m1, [CmdCheck []]) ∧ appOk m1.
Proof.
  assert (appOk App.InitialModel) as Hok.
  { split; [done|]. split; [done|]. split; [|split]; cbn.
    - repeat (constructor;
              [rewrite ?elem_of_cons, ?elem_of_nil; intuition discriminate|]).
      constructor.
    - lia.
    - intros i Hi. by apply elem_of_empty in Hi. }
  assert (ranges [] (App.activeModel App.InitialModel)) as Horder.
  { cbn. by rewrite elements_empty. }
  pose proof (app_update_spec [] [] App.InitialModel (KeyMsg "n") Hok Horder)
    as Hspec.
  eexists. split; [reflexivity|]. by destruct Hspec as [Hok1 _].
Defined.

(** X16. With the orchestrator on screen the key "n" never reaches it:
    the main model asserts the model on screen to be the menu, and
    panics. So under the main model no item can be skipped with "n". *)
Theorem install_screen_n_panics (order : list Z) (h : Heap)
    (m : App.MainModel) (d : DownloadInstallModel) :
  appOk m → App.activeModel m = InstallScreen d →
  App.Update order h m (KeyMsg "n") =
    Panic "interface conversion: tea.Model is models.DownloadInstallModel, not models.Decor".
Proof.
  intros (Hidx & _ & _) Hactive. unfold App.Update. cbn [String.eqb orb].
  change ((("n" =? "ctrl+c") || ("n" =? "q"))) with false. cbv iota.
  change ("n" =? "n") with true. cbv iota. rewrite Hidx, Hactive.
  by destruct (Z.gtb_spec (Z.of_nat (length (App.models m)) - 1 + 1)
                 (Z.of_nat (length (App.models m)) - 1)) as [_ | Hle]; [|lia].
Qed.

(** The main model once the menu has handed over an empty selection. *)
Lemma install_screen_n_panics_after_menu :
  ∃ m1,
    App.Update [] [] App.InitialModel (KeyMsg "n") = Ok ([], m1, [CmdCheck []]) ∧
    App.Update [] [] m1 (KeyMsg "n") =
      Panic "interface conversion: tea.Model is models.DownloadInstallModel, not models.Decor".
Proof.
  eexists. split; [reflexivity|].
  by apply (install_screen_n_panics [] [] _ (NewDownloadInstallModel [])).
Defined.

(** ** Further properties: the trackers *)

Lemma nonSkipped_cons (choices : gmap string string) (lang : string)
    (rest : list string) :
  nonSkipped choices (lang :: rest) =
    if choiceOf choices lang =? "skip" then nonSkipped choices rest
    else lang :: nonSkipped choices rest.
Proof.
  unfold nonSkipped.
  destruct (String.eqb_spec (choiceOf choices lang) "skip") as [Hskip | Hskip].
  - by rewrite filter_cons_False by (by intros Hne).
  - by rewrite filter_cons_True.
Qed.

Lemma elem_of_nonSkipped (choices : gmap string string)
    (languages : list string) (l : string) :
  l ∈ nonSkipped choices languages ↔
  l ∈ languages ∧ choiceOf choices l ≠ "skip".
Proof. unfold nonSkipped. rewrite list_elem_of_filter. tauto. Qed.

(** The first loop of the install closure, from any heap and map. *)
Lemma createTrackers_fold (languages : list string)
    (choices : gmap string string) (h0 : Heap) (t0 : gmap string ptr) :
  let r := foldl (λ acc lang,
                    if choiceOf choices lang =? "skip" then acc
                    else (acc.1 ++ [newTracker lang],
                          <[lang := length acc.1]> acc.2))
                 (h0, t0) languages in
  h0 `prefix_of` r.1 ∧
  length r.1 = (length h0 + length (nonSkipped choices languages))%nat ∧
  dom r.2 = dom t0 ∪ list_to_set (nonSkipped choices languages) ∧
  ∀ l p, r.2 !! l = Some p →
         t0 !! l = Some p ∨
         ((length h0 ≤ p)%nat ∧ r.1 !! p = Some (newTracker l)).
Proof.
  revert h0 t0. induction languages as [|lang rest IH]; intros h0 t0.
  { cbn. split; [done|]. split; [lia|]. split; [|by auto].
    by rewrite union_empty_r_L. }
  cbn [foldl]. rewrite nonSkipped_cons.
  destruct (choiceOf choices lang =? "skip"); [apply IH|].
  cbn [fst snd].
  destruct (IH (h0 ++ [newTracker lang]) (<[lang := length h0]> t0))
    as (Hprefix & Hlen & Hdom & Hlookup).
  cbv zeta. split; [|split; [|split]].
  - etrans; [|exact Hprefix]. by apply prefix_app_r.
  - rewrite Hlen, length_app. cbn. lia.
  - rewrite Hdom, dom_insert_L. cbn [list_to_set].
    rewrite !(assoc_L (∪)). f_equal. apply (comm_L (∪)).
  - intros l p Hl. destruct (Hlookup l p Hl) as [Hold | [Hge Hnew]].
    + destruct (decide (lang = l)) as [-> | Hne].
      * rewrite lookup_insert_eq in Hold. injection Hold as <-.
        right. split; [done|].
        eapply prefix_lookup_Some; [|exact Hprefix].
        by apply list_lookup_middle.
      * rewrite lookup_insert_ne in Hold by done. by left.
    + right. split; [|done]. rewrite length_app in Hge. cbn in Hge. lia.
Qed.

(** X17. The first loop of the install closure leaves the heap it
    finds in place and appends one fresh tracker for each selected
    language it does not skip; the map it returns has exactly those
    languages as keys, each pointing at a tracker that is new, carries
    the language's name, and stands at progress 0 in step "starting". *)
Theorem createTrackers_spec (languages : list string)
    (choices : gmap string string) (h : Heap) :
  let r := createTrackers languages choices h in
  h `prefix_of` r.1 ∧
  length r.1 = (length h + length (nonSkipped choices languages))%nat ∧
  dom r.2 = list_to_set (nonSkipped choices languages) ∧
  ∀ l p, r.2 !! l = Some p →
         (length h ≤ p < length r.1)%nat ∧ r.1 !! p = Some (newTracker l) ∧
         l ∈ languages ∧ choiceOf choices l ≠ "skip".
Proof.
  destruct (createTrackers_fold languages choices h ∅)
    as (Hprefix & Hlen & Hdom & Hlookup).
  cbv zeta. unfold createTrackers. split; [done|]. split; [done|].
  rewrite dom_empty_L, union_empty_l_L in Hdom. split; [done|].
  intros l p Hl. destruct (Hlookup l p Hl) as [Hold | [Hge Hnew]]; [done|].
  split; [split; [done | by apply lookup_lt_Some in Hnew]|]. split; [done|].
  apply elem_of_nonSkipped. apply (elem_of_list_to_set (C := gset string)).
  rewrite <- Hdom. apply elem_of_dom. by eexists.
Qed.

Lemma createTrackers_valid (languages : list string)
    (choices : gmap string string) (h : Heap) :
  valid (createTrackers languages choices h).1
        (createTrackers languages choices h).2.
Proof.
  destruct (createTrackers_fold languages choices h ∅) as (_ & _ & _ & Hlookup).
  intros l p Hl. destruct (Hlookup l p Hl) as [Hold | [_ Hnew]]; [done|].
  by apply lookup_lt_Some in Hnew.
Qed.

Lemma createTrackers_covers (languages : list string)
    (choices : gmap string string) (h : Heap) (l : string) :
  l ∈ nonSkipped choices languages →
  ∃ p, (createTrackers languages choices h).2 !! l = Some p ∧
       (p < length (createTrackers languages choices h).1)%nat.
Proof.
  intros Hl.
  destruct (createTrackers_fold languages choices h ∅) as (_ & _ & Hdom & _).
  rewrite dom_empty_L, union_empty_l_L in Hdom.
  assert (l ∈ dom (createTrackers languages choices h).2) as Hin.
  { unfold createTrackers. rewrite Hdom. by apply elem_of_list_to_set. }
  apply elem_of_dom in Hin as [p Hp]. exists p. split; [done|].
  by apply createTrackers_valid in Hp.
Qed.

Lemma renderProgressBar_reason `{GoEnv} (progress : float) (width : nat)
    (reason : string) :
  renderProgressBar progress width = Panic reason →
  reason = "strings: negative Repeat count".
Proof.
  unfold renderProgressBar. cbv zeta.
  repeat match goal with |- context [if ?c then _ else _] => destruct c end;
    by intros [= <-].
Qed.

Lemma steady_cases (t : LanguageProgress) :
  steady t →
  Progress t = (float64 0 / float64 3)%float ∨
  Progress t = (float64 1 / float64 3)%float ∨
  Progress t = (float64 2 / float64 3)%float ∨ Progress t = 1%float.
Proof.
  unfold steady, thirds. rewrite !elem_of_cons, elem_of_nil. tauto.
Qed.

(** The bar of each of the progress values the runners write can be
    drawn, whatever the platform. *)
Lemma steady_drawable `{GoEnv} (t : LanguageProgress) : steady t → drawable t.
Proof.
  intros Ht. unfold drawable.
  destruct (steady_cases t Ht) as [-> | [-> | [-> | ->]]]; by eexists.
Qed.

Lemma newTracker_steady (lang : string) : steady (newTracker lang).
Proof. unfold steady, thirds. cbn. by left. Qed.

(** What the loop of the progress view has done when it has not
    panicked. *)
Lemma renderTrackers_effect `{GoEnv} (langs : list string)
    (choices : gmap string string) (h h' : Heap)
    (trackers trackers' : gmap string ptr) :
  valid h trackers →
  renderTrackers langs choices h trackers = Ok (h', trackers') →
  (∃ fresh, h' = h ++ (newTracker <$> fresh)) ∧
  valid h' trackers' ∧ trackers ⊆ trackers' ∧
  dom trackers' = dom trackers ∪ list_to_set (nonSkipped choices langs) ∧
  ∀ l p, trackers' !! l = Some p →
         trackers !! l = Some p ∨
         ((length h ≤ p)%nat ∧ h' !! p = Some (newTracker l)).
Proof.
  revert h trackers. induction langs as [|lang rest IH]; intros h trackers Hvalid.
  { intros [= <- <-]. split; [exists []; by rewrite app_nil_r|].
    split; [done|]. split; [done|]. split; [|by auto].
    cbn. by rewrite union_empty_r_L. }
  cbn [renderTrackers]. rewrite nonSkipped_cons.
  destruct (choiceOf choices lang =? "skip"); [by apply IH|].
  destruct (trackers !! lang) as [p|] eqn:Hlang.
  - rewrite Hlang. cbn.
    destruct (h !! p) as [t|]; [|done].
    destruct (renderProgressBar (Progress t) 30); [|done].
    intros Hrest.
    destruct (IH h trackers Hvalid Hrest) as (Hfresh & Hv & Hsub & Hdom & Hchar).
    split; [done|]. split; [done|]. split; [done|]. split; [|done].
    rewrite Hdom. cbn [list_to_set].
    assert (lang ∈ dom trackers) as Hin by (apply elem_of_dom; by eexists).
    apply set_eq. intros l. rewrite !elem_of_union, elem_of_singleton.
    split; [tauto|]. intros [Hl | [-> | Hl]]; tauto.
  - rewrite lookup_insert_eq. cbn. rewrite list_lookup_middle by done.
    destruct (renderProgressBar (Progress (newTracker lang)) 30); [|done].
    intros Hrest.
    assert (valid (h ++ [newTracker lang]) (<[lang := length h]> trackers))
      as Hvalid1.
    { intros l p. rewrite length_app. cbn.
      destruct (decide (lang = l)) as [-> | Hne].
      - rewrite lookup_insert_eq. intros [= <-]. lia.
      - rewrite lookup_insert_ne by done. intros Hl%Hvalid. lia. }
    destruct (IH _ _ Hvalid1 Hrest)
      as ([fresh Hfresh] & Hv & Hsub & Hdom & Hchar).
    split; [exists (lang :: fresh); by rewrite Hfresh, <- app_assoc|].
    split; [done|]. split; [|split].
    + etrans; [|exact Hsub]. by apply insert_subseteq.
    + rewrite Hdom, dom_insert_L. cbn [list_to_set].
      rewrite !(assoc_L (∪)). f_equal. apply (comm_L (∪)).
    + intros l p Hl. destruct (Hchar l p Hl) as [Hold | [Hge Hnew]].
      * destruct (decide (lang = l)) as [-> | Hne].
        -- rewrite lookup_insert_eq in Hold. injection Hold as <-.
           right. split; [done|]. rewrite Hfresh, <- app_assoc.
           by apply list_lookup_middle.
        -- rewrite lookup_insert_ne in Hold by done. by left.
      * right. split; [|done]. rewrite length_app in Hge. cbn in Hge. lia.
Qed.

(** The loop of the progress view does not panic on valid pointers when
    the bars of the trackers it draws can be drawn. *)
Lemma renderTrackers_total `{GoEnv} (langs : list string)
    (choices : gmap string string) (h : Heap) (trackers : gmap string ptr) :
  valid h trackers →
  (∀ l p t, l ∈ nonSkipped choices langs → trackers !! l = Some p →
            h !! p = Some t → drawable t) →
  ∃ r, renderTrackers langs choices h trackers = Ok r.
Proof.
  revert h trackers. induction langs as [|lang rest IH];
    intros h trackers Hvalid Hdraw; [by eexists|].
  cbn [renderTrackers]. rewrite nonSkipped_cons in Hdraw.
  destruct (choiceOf choices lang =? "skip"); [by apply IH|].
  destruct (trackers !! lang) as [p|] eqn:Hlang.
  - rewrite Hlang. cbn.
    destruct (lookup_lt_is_Some_2 h p (Hvalid _ _ Hlang)) as [t Ht].
    rewrite Ht. destruct (Hdraw lang p t) as [counts ->]; [by left | done..|].
    apply IH; [done|]. intros l q t' Hl. apply Hdraw. by right.
  - rewrite lookup_insert_eq. cbn. rewrite list_lookup_middle by done.
    destruct (steady_drawable _ (newTracker_steady lang)) as [counts ->].
    apply IH.
    + intros l q. rewrite length_app. cbn.
      destruct (decide (lang = l)) as [-> | Hne].
      * rewrite lookup_insert_eq. intros [= <-]. lia.
      * rewrite lookup_insert_ne by done. intros Hl%Hvalid. lia.
    + intros l q t Hl. destruct (decide (lang = l)) as [-> | Hne].
      * rewrite lookup_insert_eq. intros [= <-].
        rewrite list_lookup_middle by done. intros [= <-].
        apply steady_drawable, newTracker_steady.
      * rewrite lookup_insert_ne by done. intros Hq Ht.
        apply (Hdraw l q t); [by right | done|].
        rewrite lookup_app_l in Ht; [done | by eapply Hvalid].
Qed.

(** Nothing is created for a language that has its tracker. *)
Lemma renderTrackers_covered `{GoEnv} (langs : list string)
    (choices : gmap string string) (h : Heap) (trackers : gmap string ptr) :
  valid h trackers →
  (∀ l p t, l ∈ nonSkipped choices langs → trackers !! l = Some p →
            h !! p = Some t → drawable t) →
  (∀ l, l ∈ nonSkipped choices langs → is_Some (trackers !! l)) →
  renderTrackers langs choices h trackers = Ok (h, trackers).
Proof.
  intros Hvalid. induction langs as [|lang rest IH]; intros Hdraw Hcover; [done|].
  cbn [renderTrackers]. rewrite nonSkipped_cons in Hcover, Hdraw.
  destruct (choiceOf choices lang =? "skip"); [by apply IH|].
  destruct (Hcover lang) as [p Hlang]; [by left|].
  rewrite Hlang. cbn. rewrite Hlang. cbn.
  destruct (lookup_lt_is_Some_2 h p (Hvalid _ _ Hlang)) as [t Ht]. rewrite Ht.
  destruct (Hdraw lang p t) as [counts ->]; [by left | done..|].
  apply IH.
  - intros l q t' Hl. apply Hdraw. by right.
  - intros l Hl. apply Hcover. by right.
Qed.

(** The loop panics at the first tracker whose bar cannot be drawn. *)
Lemma renderTrackers_panics `{GoEnv} (langs : list string)
    (choices : gmap string string) (h : Heap) (trackers : gmap string ptr)
    (l : string) (p : ptr) (t : LanguageProgress) :
  valid h trackers →
  l ∈ nonSkipped choices langs → trackers !! l = Some p → h !! p = Some t →
  (∃ reason, renderProgressBar (Progress t) 30 = Panic reason) →
  renderTrackers langs choices h trackers =
    Panic "strings: negative Repeat count".
Proof.
  intros Hvalid Hl Hp Ht [reason Hbad]. revert h trackers Hvalid Hl Hp Ht.
  induction langs as [|lang rest IH]; intros h trackers Hvalid Hl Hp Ht.
  { by apply elem_of_nil in Hl. }
  cbn [renderTrackers]. rewrite nonSkipped_cons in Hl.
  destruct (choiceOf choices lang =? "skip"); [by apply IH|].
  destruct (trackers !! lang) as [q|] eqn:Hlang.
  - rewrite Hlang. cbn.
    destruct (lookup_lt_is_Some_2 h q (Hvalid _ _ Hlang)) as [u Hu]. rewrite Hu.
    destruct (renderProgressBar (Progress u) 30) as [counts | reason'] eqn:Hbar.
    + apply IH; [done | | done..].
      apply elem_of_cons in Hl as [-> | Hl]; [|done].
      rewrite Hlang in Hp. injection Hp as <-. rewrite Hu in Ht.
      injection Ht as <-. by rewrite Hbar in Hbad.
    + by rewrite (renderProgressBar_reason _ _ _ Hbar).
  - rewrite lookup_insert_eq. cbn. rewrite list_lookup_middle by done.
    destruct (steady_drawable _ (newTracker_steady lang)) as [counts ->].
    assert (l ≠ lang) as Hne by (intros ->; by rewrite Hlang in Hp).
    apply IH.
    + intros l' q. rewrite length_app. cbn.
      destruct (decide (lang = l')) as [-> | Hne'].
      * rewrite lookup_insert_eq. intros [= <-]. lia.
      * rewrite lookup_insert_ne by done. intros Hl'%Hvalid. lia.
    + by apply elem_of_cons in Hl as [-> | Hl].
    + by rewrite lookup_insert_ne.
    + rewrite lookup_app_l; [done | by eapply Hvalid].
Qed.

(** X18. The progress view on a map of trackers that all exist panics
    in one case only: when the bar of a tracker it draws, that of a
    selected language that is not skipped, gets a negative count, which
    is the panic of [strings.Repeat]. When the bar of every such tracker
    can be drawn, as it can for each progress value the runners write,
    the view keeps the heap and the map it finds, adds one fresh tracker
    for each selected language that is not skipped and has none, so that
    afterwards the map has a tracker for every such language; and
    rendering once more changes nothing. *)
Theorem renderTrackers_spec `{GoEnv} (langs : list string)
    (choices : gmap string string) (h : Heap) (trackers : gmap string ptr) :
  valid h trackers →
  ((∀ l p t, l ∈ nonSkipped choices langs → trackers !! l = Some p →
             h !! p = Some t → drawable t) →
   ∃ h' trackers',
     renderTrackers langs choices h trackers = Ok (h', trackers') ∧
     h `prefix_of` h' ∧ valid h' trackers' ∧ trackers ⊆ trackers' ∧
     dom trackers' = dom trackers ∪ list_to_set (nonSkipped choices langs) ∧
     renderTrackers langs choices h' trackers' = Ok (h', trackers')) ∧
  (∀ l p t, l ∈ nonSkipped choices langs → trackers !! l = Some p →
            h !! p = Some t → ¬ drawable t →
            renderTrackers langs choices h trackers =
              Panic "strings: negative Repeat count") ∧
  (∀ t, steady t → drawable t).
Proof.
  intros Hvalid. split; [|split; [|apply steady_drawable]].
  - intros Hdraw.
    destruct (renderTrackers_total langs choices h trackers Hvalid Hdraw)
      as [[h' t'] Hr].
    destruct (renderTrackers_effect _ _ _ _ _ _ Hvalid Hr)
      as ([fresh Hfresh] & Hv & Hsub & Hdom & Hchar).
    exists h', t'. split; [done|].
    split; [rewrite Hfresh; by apply prefix_app_r|].
    split; [done|]. split; [done|]. split; [done|].
    apply renderTrackers_covered; [done | |].
    + intros l p t Hl Hp Ht. destruct (Hchar l p Hp) as [Hold | [Hge Hnew]].
      * apply (Hdraw l p t); [done..|].
        rewrite Hfresh, lookup_app_l in Ht; [done | by eapply Hvalid].
      * rewrite Hnew in Ht. injection Ht as <-.
        apply steady_drawable, newTracker_steady.
    + intros l Hl. apply elem_of_dom.
      rewrite Hdom, elem_of_union, elem_of_list_to_set. by right.
  - intros l p t Hl Hp Ht Hbad.
    apply (renderTrackers_panics langs choices h trackers l p t); [done..|].
    unfold drawable in Hbad.
    destruct (renderProgressBar (Progress t) 30) as [counts | reason];
      [by destruct Hbad; eexists | by eexists].
Qed.

(** A tracker of Go, to be installed, whose progress is -1, on the Linux
    machine. *)
Lemma renderTrackers_spec_negative :
  @renderTrackers Linux.env ["Go"] {["Go" := "install"]}
    [setTracker (newTracker "Go") (-1) "starting" EmptyString] {["Go" := 0]} =
    Panic "strings: negative Repeat count".
Proof.
  assert (valid [setTracker (newTracker "Go") (-1) "starting" EmptyString]
            ({["Go" := 0]} : gmap string ptr)) as Hvalid.
  { intros l p Hl. apply lookup_singleton_Some in Hl as [_ <-]. cbn. lia. }
  destruct (@renderTrackers_spec Linux.env ["Go"] {["Go" := "install"]}
              [setTracker (newTracker "Go") (-1) "starting" EmptyString]
              {["Go" := 0]} Hvalid) as (_ & Hpanic & _).
  apply (Hpanic "Go" 0 (setTracker (newTracker "Go") (-1) "starting" EmptyString)).
  - unfold nonSkipped. by apply list_elem_of_singleton.
  - done.
  - done.
  - by intros [counts Hcounts].
Defined.

(** ** Further properties: the whole program along a run *)

Lemma installsIn_app (a b : list Command1) :
  installsIn (a ++ b) = (installsIn a + installsIn b)%nat.
Proof. induction a as [|c a IH]; cbn; [done | rewrite IH; lia]. Qed.

Lemma installsIn_delete (cmds : list Command1) (i : nat) (c : Command1) :
  cmds !! i = Some c →
  installsIn cmds =
    ((if isInstallCmd c then 1 else 0) + installsIn (delete i cmds))%nat.
Proof.
  revert i. induction cmds as [|c' cmds IH]; intros i Hi; [done|].
  destruct i as [|i]; cbn in Hi.
  - by injection Hi as ->.
  - cbn [installsIn delete list_delete]. rewrite (IH i Hi).
    by destruct (isInstallCmd c), (isInstallCmd c').
Qed.

Lemma installsIn_quits (cmds : list Command1) :
  Forall isQuit cmds → installsIn cmds = 0%nat.
Proof. induction 1 as [|c cmds -> _ IH]; [done | by cbn]. Qed.

Lemma installOk_quits (languages : list string) (m : DownloadInstallModel)
    (cmds : list Command1) :
  Forall isQuit cmds → Forall (installOk languages m) cmds.
Proof. intros Hq. eapply Forall_impl; [done|]. by intros c ->. Qed.

Lemma installOk_choices (languages : list string) (m m' : DownloadInstallModel)
    (cmds : list Command1) :
  userChoices m' = userChoices m →
  Forall (installOk languages m) cmds → Forall (installOk languages m') cmds.
Proof.
  intros Hc Hall. eapply Forall_impl; [done|].
  intros [] ?; unfold installOk in *; by rewrite ?Hc.
Qed.

Lemma goroutineOk_heap `{GoEnv} (languages : list string)
    (choices : gmap string string) (h h' : Heap) (gs : list Goroutine) :
  (length h ≤ length h')%nat →
  Forall (goroutineOk languages choices h) gs →
  Forall (goroutineOk languages choices h') gs.
Proof.
  intros Hlen Hall. eapply Forall_impl; [done|].
  intros g (Hp & Hrest). split; [lia | done].
Qed.

(** What [View] does to the heap and the model. *)
Lemma View_effect `{GoEnv} (h h' : Heap) (m m' : DownloadInstallModel) :
  valid h (languageProgress m) → View h m = Ok (h', m') →
  m' = withTrackers m (languageProgress m') ∧
  (∃ fresh, h' = h ++ (newTracker <$> fresh)) ∧
  valid h' (languageProgress m').
Proof.
  intros Hvalid Hview. split; [by eapply View_fields|]. revert Hview.
  assert (∃ fresh : list string, h = h ++ (newTracker <$> fresh)) as Hsame.
  { exists []. by rewrite app_nil_r. }
  unfold View.
  destruct (state m =? "checking"); [by intros [= <- <-]|].
  destruct (state m =? "prompting").
  { destruct (selectedLanguages m !! currentIndex m) as [lang|];
      [|by intros [= <- <-]].
    destruct (installationStatus m !! lang); [by intros [= <- <-] | done]. }
  destruct (state m =? "installing"); [|by intros [= <- <-]].
  unfold renderInstallationProgress.
  destruct (renderTrackers (selectedLanguages m) (userChoices m) h
              (languageProgress m)) as [[h1 t1] | reason] eqn:Hr; [|done].
  destruct (renderTrackers_effect _ _ _ _ _ _ Hvalid Hr)
    as (Hfresh & Hv & _).
  by intros [= <- <-].
Qed.

(** [View] does not panic on a model in good standing whose trackers
    stand at progress values of the runners. *)
Lemma View_ok `{GoEnv} (languages : list string) (h : Heap)
    (m : DownloadInstallModel) (cmds : list Command1) :
  Inv languages m cmds → valid h (languageProgress m) → Forall steady h →
  ∃ h' m', View h m = Ok (h', m').
Proof.
  intros HInv Hvalid Hsteady. unfold View.
  destruct (state m =? "checking"); [by eexists _, _|].
  destruct (state m =? "prompting") eqn:Hst.
  { apply String.eqb_eq in Hst.
    destruct (Inv_prompting _ _ _ HInv Hst) as (Hsel & _ & Hstatus & _).
    destruct (selectedLanguages m !! currentIndex m) as [lang|] eqn:Hlang;
      [|by eexists _, _].
    destruct (checkInstalledLanguages_total languages lang) as [st Hstat].
    { rewrite <- Hsel. by eapply list_elem_of_lookup_2. }
    rewrite Hstatus, Hstat. by eexists _, _. }
  destruct (state m =? "installing"); [|by eexists _, _].
  unfold renderInstallationProgress.
  destruct (renderTrackers_total (selectedLanguages m) (userChoices m) h
              (languageProgress m) Hvalid) as [[h1 t1] ->]; [|by eexists _, _].
  intros l p t _ _ Ht. apply steady_drawable.
  by apply (proj1 (Forall_lookup _ _) Hsteady p).
Qed.

Lemma Wf_view `{GoEnv} (languages : list string) (h h' : Heap)
    (m m' : DownloadInstallModel) (cmds : list Command1)
    (gs : list Goroutine) (res : list (gmap string string)) :
  Wf languages m h cmds gs res → View h m = Ok (h', m') →
  Wf languages m' h' cmds gs res.
Proof.
  intros (Hchoices & Hvalid & Hgs & Hcmds & Hphase & Hsteady & Hjobs) Hview.
  destruct (View_effect _ _ _ _ Hvalid Hview) as (-> & [fresh ->] & Hvalid').
  split; [done|]. split; [done|].
  split; [eapply goroutineOk_heap; [|done]; rewrite length_app; lia|].
  split; [done|]. split; [done|]. split; [|done].
  apply Forall_app. split; [done|]. apply Forall_fmap, Forall_forall.
  intros l _. apply newTracker_steady.
Qed.

(** A message goes through once [Update] has accepted it. *)
Lemma handle_sound `{GoEnv} (languages : list string) (s : System)
    (pending : list Command1) (msg : Msg) (h1 : Heap)
    (m1 : DownloadInstallModel) (cmd : list Command1) :
  Update (heap s) (model s) msg = Ok (h1, m1, cmd) →
  Inv languages m1 (pending ++ cmd) →
  Wf languages m1 h1 (pending ++ cmd) (goroutines s) (results s) →
  ∃ s', handle s pending msg = Running s' ∧ Sound languages s'.
Proof.
  intros Hu HInv HWf. unfold handle. rewrite Hu.
  pose proof HWf as (_ & Hvalid & _ & _ & _ & Hsteady & _).
  destruct (View_ok languages h1 m1 _ HInv Hvalid Hsteady) as (h2 & m2 & Hview).
  rewrite Hview. eexists. split; [done|]. split; cbn.
  - pose proof (View_fields _ _ _ _ Hview) as ->. by apply Inv_withTrackers.
  - by eapply Wf_view.
Qed.

Lemma getDefaultChoice_decision (status : InstallationStatus) :
  getDefaultChoice status ∈ decisions.
Proof.
  unfold getDefaultChoice, decisions.
  destruct (Installed status); cbn; [|set_solver].
  destruct (Version status =? LatestVersion status); cbn; set_solver.
Qed.

(** The three prompting handlers, on the invariant of the run. *)
Lemma prompt_sound `{GoEnv} (languages : list string) (h : Heap)
    (m : DownloadInstallModel) (cmds : list Command1) (gs : list Goroutine)
    (res : list (gmap string string)) (choose : string → Result string)
    (h1 : Heap) (m1 : DownloadInstallModel) (cmd : list Command1) :
  Inv languages m cmds → Wf languages m h cmds gs res →
  (∀ lang c, choose lang = Ok c → c ∈ decisions) →
  prompt h m choose = Ok (h1, m1, cmd) →
  Wf languages m1 h1 (cmds ++ cmd) gs res.
Proof.
  intros HInv HWf Hchoose. unfold prompt.
  destruct (state m =? "prompting") eqn:Hst; cycle 1.
  { intros [= <- <- <-]. by rewrite app_nil_r. }
  apply String.eqb_eq in Hst.
  destruct (Inv_prompting _ _ _ HInv Hst)
    as (Hsel & Hquits & Hstatus & Hlt & Hle & Hdom).
  destruct HWf as (Hchoices & Hvalid & Hgs & Hcmds & Hphase & Hsteady & Hjobs).
  destruct Hphase as [(_ & Hnone & -> & ->) | ([Hst' | Hst'] & _)];
    [ | by rewrite Hst in Hst' | by rewrite Hst in Hst' ].
  destruct (selectedLanguages m !! currentIndex m) as [lang|] eqn:Hlang; [|done].
  destruct (choose lang) as [choice|] eqn:Hchoice; [|done].
  apply Hchoose in Hchoice.
  assert (lang ∈ languages) as Hin.
  { rewrite <- Hsel. by eapply list_elem_of_lookup_2. }
  assert (choicesOk languages (<[lang := choice]> (userChoices m))) as Hchoices'.
  { intros l c. destruct (decide (lang = l)) as [-> | Hne].
    - rewrite lookup_insert_eq. by intros [= <-].
    - rewrite lookup_insert_ne by done. apply Hchoices. }
  unfold recordChoice. cbn [withChoice selectedLanguages currentIndex].
  destruct (length (selectedLanguages m) <=? S (currentIndex m))%nat eqn:Hlen;
    intros [= <- <- <-].
  - apply Nat.leb_le in Hlen. rewrite Hsel in Hlen, Hlang.
    split; [done|]. split; [done|]. split; [done|]. split; [|split; [|done]].
    + apply Forall_app. split; [by apply installOk_quits|].
      constructor; [by cbn | by repeat constructor].
    + right. split; [by left|]. split.
      * cbn. rewrite dom_insert_L, Hdom.
        rewrite <- (take_ge languages (S (currentIndex m))) at 2 by done.
        rewrite (take_S_r _ _ _ Hlang), list_to_set_app_L.
        cbn. rewrite union_empty_r_L. apply (comm_L (∪)).
      * left. split; [|done]. rewrite installsIn_app, Hnone. by cbn.
  - rewrite app_nil_r.
    split; [done|]. split; [done|]. split; [done|].
    split; [by apply installOk_quits|]. split; [|done].
    left. split; [by right|]. done.
Qed.

Lemma Update_key_sound `{GoEnv} (languages : list string) (h : Heap)
    (m : DownloadInstallModel) (cmds : list Command1) (gs : list Goroutine)
    (res : list (gmap string string)) (key : string)
    (h1 : Heap) (m1 : DownloadInstallModel) (cmd : list Command1) :
  Inv languages m cmds → Wf languages m h cmds gs res →
  Update h m (KeyMsg key) = Ok (h1, m1, cmd) →
  Wf languages m1 h1 (cmds ++ cmd) gs res.
Proof.
  intros HInv HWf. cbn [Update].
  destruct ((key =? "ctrl+c") || (key =? "q")).
  { intros [= <- <- <-].
    destruct HWf as (Hchoices & Hvalid & Hgs & Hcmds & Hphase & Hsteady & Hjobs).
    split; [done|]. split; [done|]. split; [done|]. split; [|split; [|done]].
    - apply Forall_app. split; [done | by repeat constructor].
    - unfold phaseOk. rewrite installsIn_app. cbn. by rewrite !Nat.add_0_r. }
  destruct ((key =? "y") || (key =? "enter")).
  { apply prompt_sound; [done..|]. intros lang c. unfold defaultChoice.
    destruct (installationStatus m !! lang); [|done].
    intros [= <-]. apply getDefaultChoice_decision. }
  destruct (key =? "n").
  { apply prompt_sound; [done..|]. intros lang c [= <-].
    unfold decisions. set_solver. }
  destruct (key =? "u").
  { apply prompt_sound; [done..|]. intros lang c [= <-].
    unfold decisions. set_solver. }
  intros [= <- <- <-]. by rewrite app_nil_r.
Qed.

(** With an item at the cursor, no key makes [Update] panic. *)
Lemma Update_key_ok `{GoEnv} (languages : list string) (h : Heap)
    (m : DownloadInstallModel) (cmds : list Command1) (key : string) :
  languages ≠ [] → Inv languages m cmds →
  ∃ h1 m1 cmd, Update h m (KeyMsg key) = Ok (h1, m1, cmd).
Proof.
  intros Hne HInv.
  assert (∀ choose,
            (state m = "prompting" →
             ∀ lang, lang ∈ languages → ∃ c, choose lang = Ok c) →
            ∃ h1 m1 cmd, prompt h m choose = Ok (h1, m1, cmd)) as Hprompt.
  { intros choose Hchoose. unfold prompt.
    destruct (state m =? "prompting") eqn:Hst; [|by eexists _, _, _].
    apply String.eqb_eq in Hst.
    destruct (Inv_prompting _ _ _ HInv Hst) as (Hsel & _ & _ & Hlt & _).
    destruct (lookup_lt_is_Some_2 (selectedLanguages m) (currentIndex m))
      as [lang Hlang]; [rewrite Hsel; by apply Hlt|].
    rewrite Hlang. destruct (Hchoose Hst lang) as [c ->].
    { rewrite <- Hsel. by eapply list_elem_of_lookup_2. }
    destruct (recordChoice m lang c) as [m1 cmd]. by eexists _, _, _. }
  cbn [Update].
  destruct ((key =? "ctrl+c") || (key =? "q")); [by eexists _, _, _|].
  destruct ((key =? "y") || (key =? "enter")).
  { apply Hprompt. intros Hst lang Hlang. unfold defaultChoice.
    destruct (Inv_prompting _ _ _ HInv Hst) as (_ & _ & -> & _).
    destruct (checkInstalledLanguages_total languages lang Hlang) as [st ->].
    by eexists. }
  destruct (key =? "n"); [apply Hprompt; by eexists|].
  destruct (key =? "u"); [apply Hprompt; by eexists|].
  by eexists _, _, _.
Qed.

Lemma spawnWorkers_languages `{GoEnv} (j : nat) (languages : list string)
    (choices : gmap string string) (h : Heap) (trackers : gmap string ptr) :
  language <$> spawnWorkers j languages choices h trackers =
    nonSkipped choices languages ∧
  prog <$> spawnWorkers j languages choices h trackers =
    (λ l, default (length h) (trackers !! l)) <$> nonSkipped choices languages.
Proof.
  induction languages as [|lang rest [IHl IHp]]; [done|].
  unfold spawnWorkers. cbn [flat_map]. rewrite !fmap_app, nonSkipped_cons.
  fold (spawnWorkers j rest choices h trackers). rewrite IHl, IHp.
  by destruct (choiceOf choices lang =? "skip").
Qed.

Lemma decided_not_skipped (languages : list string)
    (choices : gmap string string) (l : string) :
  choicesOk languages choices → dom choices = list_to_set languages →
  l ∈ nonSkipped choices languages →
  choiceOf choices l ∈ ["install"; "update"].
Proof.
  intros Hchoices Hdom [Hl Hskip]%elem_of_nonSkipped.
  assert (l ∈ dom choices) as Hin.
  { rewrite Hdom. by apply elem_of_list_to_set. }
  apply elem_of_dom in Hin as [c Hc]. unfold choiceOf in *.
  rewrite Hc in *. cbn in *. destruct (Hchoices l c Hc) as [_ Hdec].
  revert Hdec. unfold decisions. rewrite !elem_of_cons, elem_of_nil.
  intros [-> | [-> | [-> | []]]]; auto; done.
Qed.

(** The workers the install closure starts. *)
Lemma spawnWorkers_ok `{GoEnv} (languages : list string)
    (choices : gmap string string) (h : Heap) :
  choicesOk languages choices → dom choices = list_to_set languages →
  let r := createTrackers languages choices h in
  let gs := spawnWorkers 0 languages choices r.1 r.2 in
  Forall (goroutineOk languages choices r.1) gs ∧
  language <$> gs = nonSkipped choices languages ∧
  (NoDup languages → NoDup (prog <$> gs)).
Proof.
  intros Hchoices Hdom r gs.
  destruct (spawnWorkers_languages 0 languages choices r.1 r.2) as [Hl Hp].
  split; [|split; [done|]].
  - apply Forall_forall. intros g Hg.
    destruct (spawnWorkers_todo _ _ _ _ _ _ Hg) as [Hin Htodo].
    assert (language g ∈ nonSkipped choices languages) as Hns.
    { rewrite <- Hl. apply list_elem_of_fmap. by exists g. }
    assert (prog g ∈ prog <$> gs) as Hprog.
    { apply list_elem_of_fmap. by exists g. }
    unfold gs in Hprog. rewrite Hp in Hprog.
    apply list_elem_of_fmap in Hprog as (l & Hpg & Hlns).
    destruct (createTrackers_covers languages choices h l Hlns) as (p & Hp' & Hlt).
    split; [by rewrite Hpg; unfold r; rewrite Hp'|]. split; [done|].
    split; [by eapply decided_not_skipped|]. by rewrite Htodo.
  - intros Hnodup. unfold gs. rewrite Hp.
    apply NoDup_fmap_2_strong; [|by apply NoDup_filter].
    intros l1 l2 Hl1 Hl2 Heq.
    destruct (createTrackers_covers languages choices h l1 Hl1) as (p & Hp1 & _).
    destruct (createTrackers_covers languages choices h l2 Hl2) as (q & Hp2 & _).
    unfold r in Heq. rewrite Hp1, Hp2 in Heq. cbn in Heq. subst q.
    destruct (decide (l1 = l2)) as [|Hne]; [done|].
    by destruct (createTrackers_distinct languages choices h l1 l2 p p Hne Hp1 Hp2).
Qed.

Lemma valid_noNil (h : Heap) (m : DownloadInstallModel) :
  valid h (languageProgress m) → noNilTracker h m.
Proof. intros Hvalid l p Hl. apply lookup_lt_is_Some_2. by eapply Hvalid. Qed.

Lemma spawnWorkers_fresh `{GoEnv} (j : nat) (languages : list string)
    (choices : gmap string string) (h : Heap) (trackers : gmap string ptr) :
  Forall (λ g, job g = j ∧ writing g = false)
         (spawnWorkers j languages choices h trackers).
Proof.
  induction languages as [|lang rest IH]; [by constructor|].
  unfold spawnWorkers. cbn [flat_map]. apply Forall_app. split; [|exact IH].
  destruct (choiceOf choices lang =? "skip"); by repeat constructor.
Qed.

Lemma createTrackers_heap (languages : list string)
    (choices : gmap string string) (h : Heap) :
  (createTrackers languages choices h).1 =
    h ++ (newTracker <$> nonSkipped choices languages).
Proof.
  unfold createTrackers. generalize (∅ : gmap string ptr). revert h.
  induction languages as [|lang rest IH]; intros h t.
  { cbn. by rewrite app_nil_r. }
  cbn [foldl]. rewrite nonSkipped_cons.
  destruct (choiceOf choices lang =? "skip"); [apply IH|].
  cbn [fst snd]. rewrite IH. by rewrite <- app_assoc.
Qed.

(** The writes of a worker keep its tracker at a progress value of the
    runners. *)
Lemma worker_steady `{GoEnv} (language choice : string) (a : Action)
    (t : LanguageProgress) :
  a ∈ worker language choice → steady t → steady (applyAction t a).
Proof.
  assert (∀ p s, p ∈ thirds → steady (applyAction t (Locked p s))) as Hlocked
    by (by intros p s Hp).
  assert (1%float ∈ thirds) as Hone.
  { unfold thirds. rewrite !elem_of_cons. tauto. }
  assert (∀ s0 s1 s2 b, b ∈ announce [s0; s1; s2] → steady t →
                        steady (applyAction t b)) as Hannounce.
  { intros s0 s1 s2 b. rewrite announce_three, !elem_of_cons, elem_of_nil.
    intros [-> | [-> | [-> | [-> | [-> | [-> | []]]]]]] Ht; try done;
      apply Hlocked; unfold thirds; rewrite !elem_of_cons; tauto. }
  assert (∀ done err b, b ∈ conclude language done err → steady t →
                        steady (applyAction t b)) as Hconclude.
  { intros done [e|] b; unfold conclude; rewrite !elem_of_cons, elem_of_nil;
      by intros [-> | [-> | [-> | []]]] Ht. }
  assert (∀ before b, Forall (λ a, ∃ line, a = Println line) before →
                      b ∈ before → steady t → steady (applyAction t b))
    as Hbefore.
  { intros before b Hall Hb Ht.
    by destruct (proj1 (Forall_forall _ _) Hall b Hb) as [line ->]. }
  destruct (decide (choice ∈ ["install"; "update"])) as [Hc | Hc]; cycle 1.
  { unfold worker. destruct (String.eqb_spec choice "install") as [-> | _];
      [by destruct Hc; left|].
    destruct (String.eqb_spec choice "update") as [-> | _];
      [by destruct Hc; right; left|].
    by intros ?%elem_of_nil. }
  rewrite (worker_runnerOf _ _ Hc), elem_of_app.
  intros [Ha | Ha] Ht; [|by eapply Hconclude].
  destruct (decide (ToLower language ∈ toolchains)) as [Hl | Hl]; cycle 1.
  { rewrite (unsupported_runner _ _ Hl) in Ha. by apply elem_of_nil in Ha. }
  destruct (runnerOf_shape language choice Hl Hc)
    as (s0 & s1 & s2 & before & cmd & Hprint &
        [[Hr Hgo] | (r0 & r1 & r2 & Hr & Hgo & ->)]);
    rewrite Hr in Ha; unfold withProgress in Ha; cbn [fst snd] in Ha.
  - rewrite elem_of_app, elem_of_cons, elem_of_app, list_elem_of_singleton in Ha.
    destruct Ha as [Ha | [-> | [Ha | ->]]];
      [by eapply Hannounce | by apply Hlocked | by eapply Hbefore | done].
  - rewrite elem_of_app, elem_of_cons, elem_of_app, elem_of_cons, elem_of_app,
      list_elem_of_singleton in Ha.
    destruct Ha as [Ha | [-> | [Ha | [-> | [Ha | ->]]]]];
      [ by eapply Hannounce | by apply Hlocked | by eapply Hannounce
      | by apply Hlocked | by eapply Hbefore | done ].
Qed.

Lemma fmap_insert_same {A : Type} (f : Goroutine → A) (gs : list Goroutine)
    (j : nat) (g g1 : Goroutine) :
  gs !! j = Some g → f g1 = f g → f <$> <[j := g1]> gs = f <$> gs.
Proof.
  intros Hj Hf. rewrite list_fmap_insert, Hf.
  apply list_insert_id. by rewrite list_lookup_fmap, Hj.
Qed.

(** One event on a program in good standing: it goes on in good standing,
    or the event cannot happen, or the program aborts; on a selection that
    is not empty it aborts only on a collision of two workers. *)
Lemma step_sound `{GoEnv} (languages : list string) (s : System) (e : Event) :
  Sound languages s →
  (∀ s', step s e = Running s' → Sound languages s') ∧
  (languages ≠ [] → ∀ reason, step s e = Crashed reason →
   reason = "concurrent map writes" ∧ collision s e).
Proof.
  intros [HInv HWf].
  assert (∀ pending msg h1 m1 cmd,
            Update (heap s) (model s) msg = Ok (h1, m1, cmd) →
            Inv languages m1 (pending ++ cmd) →
            Wf languages m1 h1 (pending ++ cmd) (goroutines s) (results s) →
            (∀ s', handle s pending msg = Running s' → Sound languages s') ∧
            (∀ reason, handle s pending msg ≠ Crashed reason)) as Hhandle.
  { intros pending msg h1 m1 cmd Hu HInv1 HWf1.
    destruct (handle_sound languages s pending msg h1 m1 cmd Hu HInv1 HWf1)
      as (s1 & -> & Hs1).
    split; [by intros s' [= <-] | done]. }
  unfold step. destruct (exited s); [done|].
  pose proof HWf as (Hchoices & Hvalid & Hgs & Hcmds & Hphase & Hsteady & Hjobs).
  destruct e as [key | i | j |].
  - (* a key *)
    split.
    + intros s' Hs'. pose proof Hs' as Hrun.
      apply handle_Running in Hrun as (h1 & m1 & cmd & Hu & _).
      eapply Hhandle; [exact Hu | | | exact Hs'].
      * by eapply Update_key_inv.
      * by eapply Update_key_sound.
    + intros Hne reason Hcrash. exfalso.
      destruct (Update_key_ok languages (heap s) (model s) (commands s) key Hne HInv)
        as (h1 & m1 & cmd & Hu).
      eapply (proj2 (Hhandle (commands s) (KeyMsg key) _ _ _ Hu
                       ltac:(by eapply Update_key_inv)
                       ltac:(by eapply Update_key_sound))); exact Hcrash.
  - (* a command completes *)
    destruct (commands s !! i) as [c|] eqn:Hi; [|done].
    pose proof (Inv_lookup _ _ _ _ _ HInv Hi) as Hc.
    pose proof (installsIn_delete _ _ _ Hi) as Hcount.
    pose proof (Forall_delete _ _ i Hcmds) as Hcmds'.
    pose proof HInv as [Hsel _].
    destruct c as [| l | l choices status |]; cbn [deliver isInstallCmd] in *.
    + (* quit *)
      split; [|done]. intros s' [= <-]. split; cbn.
      * by apply Inv_delete_quit.
      * split; [done|]. split; [done|]. split; [done|]. split; [done|].
        split; [|done]. cbn in Hcount. unfold phaseOk. by rewrite <- Hcount.
    + (* the probe *)
      destruct Hc as (-> & -> & Hst & Hq).
      assert (Wf languages
                (withState (withStatus (model s)
                              (checkInstalledLanguages languages)) "prompting")
                (heap s) (delete 0 (commands s) ++ [])
                (goroutines s) (results s)) as HWf1.
      { destruct Hphase as [(_ & Hnone & Hres & Hg) | ([Hst' | Hst'] & _)];
          [ | by rewrite Hst in Hst' | by rewrite Hst in Hst' ].
        rewrite app_nil_r.
        split; [done|]. split; [done|]. split; [done|].
        split; [by eapply installOk_choices|]. split; [|done].
        left. split; [by right|]. split; [|done]. cbn in Hcount. lia. }
      assert (Inv languages
                (withState (withStatus (model s)
                              (checkInstalledLanguages languages)) "prompting")
                (delete 0 (commands s) ++ [])) as HInv1.
      { rewrite app_nil_r. split; [done|]. right. left. cbn.
        destruct HInv as [_ [(_ & _ & -> & ->) | [(Hst' & _) | [Hst' _]]]];
          [ | by rewrite Hst in Hst'
            | by destruct Hst' as [Hst' | Hst']; rewrite Hst in Hst' ].
        repeat split; try done; try lia.
        intros Hne. destruct languages; [done | cbn; lia]. }
      destruct (Hhandle (delete 0 (commands s))
                  (InstallationStatusMsg (checkInstalledLanguages languages))
                  _ _ _ eq_refl HInv1 HWf1) as [Hrun Hsafe].
      split; [done|]. intros _ reason Hcrash. by destruct (Hsafe reason).
    + (* the install closure *)
      destruct Hc as [Hst Hnotcheck].
      pose proof (proj1 (Forall_lookup _ _) Hcmds _ _ Hi) as [-> ->].
      destruct Hphase as [([Hst' | Hst'] & _) | (_ & Hdom & Hrun)];
        [ by destruct Hst as [Hst | Hst]; rewrite Hst in Hst'
        | by destruct Hst as [Hst | Hst]; rewrite Hst in Hst' | ].
      destruct Hrun as [(Hone & Hres & Hg) | (Hnone & _)]; [|lia].
      destruct (spawnWorkers_ok languages (userChoices (model s)) (heap s)
                  Hchoices Hdom) as (Hok & Hlangs & Hnodup).
      pose proof (createTrackers_valid languages (userChoices (model s)) (heap s))
        as Hvalid'.
      pose proof (createTrackers_heap languages (userChoices (model s)) (heap s))
        as Hheap.
      destruct (createTrackers languages (userChoices (model s)) (heap s))
        as [h1 trackers] eqn:Hcreate.
      cbn [fst snd] in *.
      match goal with
      | |- context [handle ?started _ _] => set (st := started)
      end.
      assert (Wf languages (withTrackers (model s) trackers) h1
                (delete i (commands s) ++ progressUpdateTicker)
                (goroutines st) (results st)) as HWf1.
      { unfold st. cbn [goroutines results]. rewrite Hg, Hres. cbn [app].
        split; [done|]. split; [done|]. split; [done|]. split; [|split; [|split]].
        - apply Forall_app. split; [done | by repeat constructor].
        - right. split; [done|]. split; [done|]. right.
          rewrite installsIn_app. cbn. split; [lia|]. done.
        - rewrite Hheap. apply Forall_app. split; [done|].
          apply Forall_fmap, Forall_forall. intros l' _. apply newTracker_steady.
        - eapply Forall_impl; [apply spawnWorkers_fresh|]. by intros g [? _]. }
      assert (Inv languages (withTrackers (model s) trackers)
                (delete i (commands s) ++ progressUpdateTicker)) as HInv1.
      { apply Inv_later; [done..|].
        apply Forall_app. split; [done | by repeat constructor]. }
      destruct (handle_sound languages st (delete i (commands s))
                  (InitProgressMsg trackers) h1 _ _ eq_refl HInv1 HWf1)
        as (s1 & -> & Hs1).
      split; [by intros s' [= <-] | done].
    + (* the ticker *)
      destruct Hc as [Hst Hnotcheck].
      destruct (trackersOf_spec (heap s) (model s) (valid_noNil _ _ Hvalid))
        as (progs & Hprogs & _).
      destruct Hphase as [([Hst' | Hst'] & _) | (_ & Hdom & Hrun)];
        [ by destruct Hst as [Hst | Hst]; rewrite Hst in Hst'
        | by destruct Hst as [Hst | Hst]; rewrite Hst in Hst' | ].
      cbn in Hcount.
      destruct (forallb (λ prog, negb (stillInstalling prog)) progs) eqn:Hall.
      * assert (Update (heap s) (model s) ProgressTickMsg =
                Ok (heap s, withState (model s) "complete", [])) as Hu.
        { cbn [Update]. by rewrite Hprogs, Hall. }
        destruct (Hhandle (delete i (commands s)) _ _ _ _ Hu) as [Hrun' Hsafe].
        -- rewrite app_nil_r. apply Inv_later; [done | by right | done].
        -- rewrite app_nil_r. split; [done|]. split; [done|]. split; [done|].
           split; [by eapply installOk_choices|]. split; [|done].
           right. split; [by right|]. split; [done|]. by rewrite <- Hcount.
        -- split; [done|]. intros _ reason Hcrash. by destruct (Hsafe reason).
      * assert (Update (heap s) (model s) ProgressTickMsg =
                Ok (heap s, model s, progressUpdateTicker)) as Hu.
        { cbn [Update]. by rewrite Hprogs, Hall. }
        destruct (Hhandle (delete i (commands s)) _ _ _ _ Hu) as [Hrun' Hsafe].
        -- apply Inv_later; [done..|].
           apply Forall_app. split; [done | by repeat constructor].
        -- split; [done|]. split; [done|]. split; [done|].
           split; [|split; [|done]].
           ++ apply Forall_app. split; [done | by repeat constructor].
           ++ right. split; [done|]. split; [done|].
              rewrite installsIn_app. cbn. rewrite Nat.add_0_r.
              by rewrite <- Hcount.
        -- split; [done|]. intros _ reason Hcrash. by destruct (Hsafe reason).
  - (* a worker advances *)
    unfold work. destruct (goroutines s !! j) as [g|] eqn:Hj; [|done].
    destruct (todo g) as [|a rest] eqn:Htodo; [done|].
    pose proof (proj1 (Forall_lookup _ _) Hgs _ _ Hj)
      as (Hp & Hlang & Hchoice & Hsuffix).
    pose proof (proj1 (Forall_lookup _ _) Hjobs _ _ Hj) as Hjob.
    rewrite Htodo in Hsuffix.
    assert (∀ g1, language g1 = language g → prog g1 = prog g →
                  phaseOk languages (model s) (commands s)
                    (<[j := g1]> (goroutines s)) (results s)) as Hphase1.
    { intros g1 Hl1 Hp1.
      destruct Hphase as [(Hst & Hnone & Hres & Hg) | (Hst & Hdom & Hrun)];
        [by rewrite Hg in Hj|].
      right. split; [done|]. split; [done|].
      destruct Hrun as [(_ & _ & Hg) | (Hnone & Hlen & Hlangs & Hnodup)];
        [by rewrite Hg in Hj|].
      right. split; [done|]. split; [done|].
      by rewrite !(fmap_insert_same _ _ _ g g1). }
    destruct (isResultWrite a && negb (writing g)) eqn:Hbegin.
    { (* entering the assignment of the result *)
      apply andb_true_iff in Hbegin as [Ha Hw]. apply negb_true_iff in Hw.
      destruct (hashWriting (goroutines s) (job g)) eqn:Hflag.
      - split; [done|]. intros _ reason [= <-]. split; [done|].
        destruct a; try done. by eexists j, g, _, _, rest.
      - split; [|done]. intros s' [= <-]. split; cbn; [done|].
        split; [done|]. split; [done|]. split; [|split; [done|]].
        + by apply Forall_insert.
        + split; [by apply Hphase1|]. split; [done|].
          by apply Forall_insert. }
    assert (steady (applyAction (default (newTracker EmptyString)
                                   (heap s !! prog g)) a)) as Hwrite.
    { destruct (lookup_lt_is_Some_2 (heap s) (prog g) Hp) as [t Ht].
      rewrite Ht. cbn.
      apply (worker_steady (language g)
               (choiceOf (userChoices (model s)) (language g))).
      - destruct Hsuffix as [before ->]. rewrite elem_of_app. right. by left.
      - by apply (proj1 (Forall_lookup _ _) Hsteady (prog g)). }
    destruct (lookup_lt_is_Some_2 (heap s) (prog g) Hp) as [t Ht].
    rewrite Ht in Hwrite |- *. cbn in Hwrite.
    split; [|done]. intros s' [= <-]. split; cbn; [done|].
    split; [done|]. split; [by intros l p Hl; rewrite length_insert; eapply Hvalid|].
    split; [|split; [done|]].
    + apply Forall_insert.
      * eapply Forall_impl; [exact Hgs|].
        intros g' (Hp' & Hrest). split; [by rewrite length_insert | done].
      * split; [by rewrite length_insert|]. split; [done|]. split; [done|].
        cbn. by eapply suffix_cons_l.
    + split; [|split].
      * destruct Hphase as [(Hst & Hnone & Hres & Hg) | (Hst & Hdom & Hrun)];
          [by rewrite Hg in Hj|].
        right. split; [done|]. split; [done|].
        destruct Hrun as [(_ & _ & Hg) | (Hnone & Hlen & Hlangs & Hnodup)];
          [by rewrite Hg in Hj|].
        right. split; [done|]. split; [by rewrite length_alter|].
        by rewrite !(fmap_insert_same _ _ _ g _ Hj).
      * by apply Forall_insert.
      * by apply Forall_insert.
  - (* a message with no case *)
    destruct (Hhandle (commands s) OtherMsg _ _ _ eq_refl) as [Hrun Hsafe].
    + by rewrite app_nil_r.
    + by rewrite app_nil_r.
    + split; [done|]. intros _ reason Hcrash. by destruct (Hsafe reason).
Qed.

Lemma start_sound `{GoEnv} (languages : list string) :
  Sound languages (start languages).
Proof.
  split; [apply start_inv|].
  split.
  { intros l c Hl. change ((∅ : gmap string string) !! l = Some c) in Hl.
    by rewrite lookup_empty in Hl. }
  split.
  { intros l p Hl. change ((∅ : gmap string ptr) !! l = Some p) in Hl.
    by rewrite lookup_empty in Hl. }
  split; [done|]. split; [by repeat constructor|].
  split; [|done]. left. split; [by left | done].
Qed.

(** Along a run from a program in good standing: the program stays in
    good standing, and on a selection that is not empty the run aborts
    only at a collision of two workers. *)
Lemma exec_sound `{GoEnv} (languages : list string) (events : list Event)
    (s : System) :
  Sound languages s →
  (∀ s', exec s events = Running s' → Sound languages s') ∧
  (languages ≠ [] → ∀ reason, exec s events = Crashed reason →
   reason = "concurrent map writes" ∧
   ∃ before e after s1,
     events = before ++ e :: after ∧ exec s before = Running s1 ∧
     collision s1 e).
Proof.
  revert s. induction events as [|e rest IH]; intros s Hs; cbn [exec].
  { split; [by intros s' [= <-] | done]. }
  destruct (step_sound languages s e Hs) as [Hrun Hsafe].
  destruct (step s e) as [s1 | reason |] eqn:Hstep.
  - destruct (IH s1 (Hrun s1 eq_refl)) as [IHrun IHsafe].
    split; [done|]. intros Hne reason Hcrash.
    destruct (IHsafe Hne reason Hcrash)
      as (-> & before & e' & after & s2 & -> & Hbefore & Hcollide).
    split; [done|]. exists (e :: before), e', after, s2.
    split; [done|]. split; [|done]. cbn [exec]. by rewrite Hstep.
  - split; [done|]. intros Hne reason' [= <-].
    destruct (Hsafe Hne reason eq_refl) as [-> Hcollide].
    split; [done|]. by exists [], e, rest, s.
  - split; [done | done].
Qed.

Lemma reachable_sound `{GoEnv} (languages : list string) (events : list Event)
    (s : System) :
  exec (start languages) events = Running s → Sound languages s.
Proof.
  intros Hexec.
  by apply (proj1 (exec_sound languages events _ (start_sound languages))).
Qed.



(** X20. All along a run, the decisions recorded are decisions on
    selected languages and are install, update or skip. The install
    closure is issued once, on entering the installing state, when every
    selected language is decided: before, none is in flight and none has
    run; afterwards, exactly one is in flight or has run, and it carries
    the selection and the decisions of the model. *)
Theorem decisions_recorded `{GoEnv} (languages : list string)
    (events : list Event) (s : System) :
  exec (start languages) events = Running s →
  choicesOk languages (userChoices (model s)) ∧
  Forall (installOk languages (model s)) (commands s) ∧
  (state (model s) = "checking" ∨ state (model s) = "prompting" →
   (installsIn (commands s) + length (results s) = 0)%nat) ∧
  (state (model s) = "installing" ∨ state (model s) = "complete" →
   dom (userChoices (model s)) = list_to_set languages ∧
   (installsIn (commands s) + length (results s) = 1)%nat).
Proof.
  intros Hexec.
  destruct (reachable_sound _ _ _ Hexec)
    as (HInv & Hchoices & _ & _ & Hcmds & Hphase & _).
  split; [done|]. split; [done|].
  destruct Hphase as [(Hst & Hnone & -> & _) | (Hst & Hdom & Hrun)].
  - split; [intros _; cbn; lia|].
    intros [Hst' | Hst']; destruct Hst as [Hst | Hst]; by rewrite Hst in Hst'.
  - split.
    { intros [Hst' | Hst']; destruct Hst as [Hst | Hst]; by rewrite Hst in Hst'. }
    intros _. split; [done|].
    destruct Hrun as [(Hone & -> & _) | (Hnone & Hlen & _)]; cbn; lia.
Qed.

(** Go on the Linux machine, decided by default: an update. *)
Lemma decisions_recorded_go :
  ∃ s, @exec Linux.env (start ["Go"]) [EvCommand 0; EvKey "enter"] = Running s ∧
       userChoices (model s) !! "Go" = Some "update" ∧
       choicesOk ["Go"] (userChoices (model s)).
Proof.
  eexists. split; [reflexivity|]. split; [reflexivity|].
  by apply (@decisions_recorded Linux.env ["Go"] [EvCommand 0; EvKey "enter"]).
Defined.

(** X21. All along a run, no worker runs before the install closure
    has; once it has, the workers are those of the selected languages not
    skipped, one for each in the order of the selection, and they stay so
    for the rest of the run. Every worker is on a tracker that exists, has
    an install or update decision, and has still to do an end piece of the
    worker of its language and decision. When the selection has no
    repetition no two workers share a tracker. The trackers the model
    holds exist as well. *)
Theorem workers_started_once `{GoEnv} (languages : list string)
    (events : list Event) (s : System) :
  exec (start languages) events = Running s →
  valid (heap s) (languageProgress (model s)) ∧
  Forall (goroutineOk languages (userChoices (model s)) (heap s))
         (goroutines s) ∧
  (length (results s) ≤ 1)%nat ∧
  (results s = [] → goroutines s = []) ∧
  (results s ≠ [] →
   language <$> goroutines s = nonSkipped (userChoices (model s)) languages ∧
   (NoDup languages → NoDup (prog <$> goroutines s))).
Proof.
  intros Hexec.
  destruct (reachable_sound _ _ _ Hexec)
    as (HInv & Hchoices & Hvalid & Hgs & Hcmds & Hphase & _).
  split; [done|]. split; [done|].
  assert (∀ gs : list Goroutine,
            (length (@nil (gmap string string)) ≤ 1)%nat ∧
            (@nil (gmap string string) = [] → @nil Goroutine = []) ∧
            (@nil (gmap string string) ≠ [] →
             language <$> gs = nonSkipped (userChoices (model s)) languages ∧
             (NoDup languages → NoDup (prog <$> gs)))) as Hnil.
  { intros gs. split; [cbn; lia|]. split; [done|]. by intros Hres. }
  destruct Hphase as [(Hst & Hnone & -> & ->) | (Hst & Hdom & Hrun)];
    [apply Hnil|].
  destruct Hrun as [(Hone & -> & ->) | (Hnone & Hlen & Hlangs & Hnodup)];
    [apply Hnil|].
  split; [lia|]. split; [|done].
  intros Hres. by rewrite Hres in Hlen.
Qed.

(** Go updated and Rust skipped on the Linux machine. *)
Lemma workers_started_once_go_rust :
  ∃ s, @exec Linux.env (start ["Go"; "Rust"])
         [EvCommand 0; EvKey "enter"; EvKey "n"; EvCommand 0; EvWork 0] =
         Running s ∧
       language <$> goroutines s = ["Go"] ∧
       valid (heap s) (languageProgress (model s)).
Proof.
  eexists. split; [reflexivity|]. split; [reflexivity|].
  by apply (@workers_started_once Linux.env ["Go"; "Rust"]
              [EvCommand 0; EvKey "enter"; EvKey "n"; EvCommand 0; EvWork 0]).
Defined.

(** ** Unsupported toolchains along a run *)

Lemma hashWriting_false (gs : list Goroutine) (j0 k : nat) (g : Goroutine) :
  hashWriting gs j0 = false → gs !! k = Some g → job g = j0 →
  writing g = false.
Proof.
  unfold hashWriting. revert k.
  induction gs as [|x gs IH]; intros k Hflag Hk Hjob; [done|].
  cbn in Hflag. apply orb_false_iff in Hflag as [Hx Hrest].
  destruct k as [|k]; cbn in Hk.
  - injection Hk as ->. by rewrite Hjob, Nat.eqb_refl in Hx.
  - by eapply IH.
Qed.

Lemma hashWriting_true (gs : list Goroutine) (j0 k : nat) (g : Goroutine) :
  gs !! k = Some g → job g = j0 → writing g = true → hashWriting gs j0 = true.
Proof.
  unfold hashWriting. revert k.
  induction gs as [|x gs IH]; intros k Hk Hjob Hw; [done|].
  cbn. destruct k as [|k]; cbn in Hk.
  - injection Hk as ->. by rewrite Hjob, Nat.eqb_refl, Hw.
  - rewrite (IH k Hk Hjob Hw). by rewrite orb_true_r.
Qed.

(** A worker enters the assignment of its result. *)
Lemma work_enter (s : System) (j : nat) (g : Goroutine) (l r : string)
    (rest : list Action) :
  goroutines s !! j = Some g → todo g = SetResult l r :: rest →
  writing g = false → hashWriting (goroutines s) (job g) = false →
  work s j =
    Running {| model := model s; heap := heap s; commands := commands s;
               goroutines :=
                 <[j := {| language := language g; prog := prog g;
                           job := job g; todo := SetResult l r :: rest;
                           writing := true |}]> (goroutines s);
               results := results s; exited := false |}.
Proof.
  intros Hj Htodo Hw Hflag. unfold work. rewrite Hj, Htodo.
  cbn [isResultWrite]. by rewrite Hw, Hflag.
Qed.

(** A worker enters the assignment while another one is inside. *)
Lemma work_collide (s : System) (j : nat) (g : Goroutine) (l r : string)
    (rest : list Action) :
  goroutines s !! j = Some g → todo g = SetResult l r :: rest →
  writing g = false → hashWriting (goroutines s) (job g) = true →
  work s j = Crashed "concurrent map writes".
Proof.
  intros Hj Htodo Hw Hflag. unfold work. rewrite Hj, Htodo.
  cbn [isResultWrite]. by rewrite Hw, Hflag.
Qed.

(** A worker performs an action on its tracker, or leaves the assignment
    of its result. *)
Lemma work_act (s : System) (j : nat) (g : Goroutine) (a : Action)
    (rest : list Action) (t : LanguageProgress) :
  goroutines s !! j = Some g → todo g = a :: rest →
  isResultWrite a && negb (writing g) = false → heap s !! prog g = Some t →
  work s j =
    Running {| model := model s;
               heap := <[prog g := applyAction t a]> (heap s);
               commands := commands s;
               goroutines :=
                 <[j := {| language := language g; prog := prog g;
                           job := job g; todo := rest; writing := false |}]>
                   (goroutines s);
               results := alter (λ r, applyResult r a) (job g) (results s);
               exited := false |}.
Proof.
  intros Hj Htodo Hact Ht. unfold work. by rewrite Hj, Htodo, Hact, Ht.
Qed.

(** C8. In a run on a selection without repetition, take a worker of a
    language that has no runner, about to start, at a moment when no
    worker is writing to the results. Left to run alone, it fails for its
    item and for that item only: after its four steps the result of its
    language is "error: unsupported language: ..." and its tracker has
    the error step and that message, while the model, the commands in
    flight, the results of the other languages, the other workers and
    their trackers, which are other trackers, are as they were. But the
    results are one map, written by every worker without a lock: when
    another worker is at the assignment of its own result, the one of them
    enters it, the other follows, and the runtime aborts the program with
    "concurrent map writes"; the items of the other workers are lost with
    it. *)
Theorem unsupported_fails_alone `{GoEnv} (languages : list string)
    (events : list Event) (s : System) (j : nat) (g : Goroutine) :
  NoDup languages →
  exec (start languages) events = Running s → exited s = false →
  goroutines s !! j = Some g →
  ToLower (language g) ∉ toolchains →
  todo g = worker (language g) (choiceOf (userChoices (model s)) (language g)) →
  hashWriting (goroutines s) (job g) = false →
  (∃ s' t r,
     exec s (repeat (EvWork j) 4) = Running s' ∧
     heap s !! prog g = Some t ∧ results s !! job g = Some r ∧
     model s' = model s ∧ commands s' = commands s ∧
     heap s' =
       <[prog g := setTracker t (Progress t) "error" (unsupported (language g))]>
         (heap s) ∧
     results s' =
       <[job g := <[language g := errorResult (unsupported (language g))]> r]>
         (results s) ∧
     goroutines s' =
       <[j := {| language := language g; prog := prog g; job := job g;
                 todo := []; writing := false |}]> (goroutines s) ∧
     ∀ k g', k ≠ j → goroutines s !! k = Some g' →
             prog g' ≠ prog g ∧ language g' ≠ language g) ∧
  (∀ k g' l r rest,
     k ≠ j → goroutines s !! k = Some g' → todo g' = SetResult l r :: rest →
     exec s [EvWork k; EvWork j] = Crashed "concurrent map writes" ∧
     exec s [EvWork j; EvWork k] = Crashed "concurrent map writes").
Proof.
  intros Hnodup Hexec Hexit Hj Hno Htodo Hflag.
  destruct (reachable_sound _ _ _ Hexec)
    as (HInv & Hchoices & Hvalid & Hgs & Hcmds & Hphase & Hsteady & Hjobs).
  pose proof (proj1 (Forall_lookup _ _) Hgs _ _ Hj) as (Hp & Hlang & Hchoice & _).
  pose proof (proj1 (Forall_lookup _ _) Hjobs _ _ Hj) as Hjob. cbn beta in Hjob.
  rewrite (worker_runnerOf _ _ Hchoice), (unsupported_runner _ _ Hno) in Htodo.
  cbn [fst snd app] in Htodo. unfold conclude in Htodo.
  destruct (lookup_lt_is_Some_2 (heap s) (prog g) Hp) as [t Ht].
  assert (writing g = false) as Hwg by (by eapply hashWriting_false).
  assert (j < length (goroutines s))%nat as Hjlt by (by eapply lookup_lt_Some).
  assert (length (results s) = 1 ∧
          NoDup (language <$> goroutines s) ∧ NoDup (prog <$> goroutines s))
    as (Hlen & Hlangs & Hprogs).
  { destruct Hphase as [(_ & _ & _ & Hg) | (_ & _ & Hrun)];
      [by rewrite Hg in Hj|].
    destruct Hrun as [(_ & _ & Hg) | (_ & Hlen & Hlangs & Hprogs)];
      [by rewrite Hg in Hj|].
    split; [done|]. split; [|by apply Hprogs].
    rewrite Hlangs. by apply NoDup_filter. }
  destruct (lookup_lt_is_Some_2 (results s) (job g)) as [r Hr]; [lia|].
  split.
  - exists {| model := model s;
              heap := <[prog g := setTracker t (Progress t) "error"
                                    (unsupported (language g))]> (heap s);
              commands := commands s;
              goroutines :=
                <[j := {| language := language g; prog := prog g;
                          job := job g; todo := []; writing := false |}]>
                  (goroutines s);
              results :=
                <[job g := <[language g := errorResult (unsupported (language g))]> r]>
                  (results s);
              exited := false |}, t, r.
    split; cycle 1.
    { do 7 (split; [done|]). intros k g' Hk Hg'. split; intros Heq; apply Hk.
      - apply (NoDup_lookup (prog <$> goroutines s) k j (prog g) Hprogs);
          rewrite list_lookup_fmap; [by rewrite Hg', <- Heq | by rewrite Hj].
      - apply (NoDup_lookup (language <$> goroutines s) k j (language g) Hlangs);
          rewrite list_lookup_fmap; [by rewrite Hg', <- Heq | by rewrite Hj]. }
    cbn [repeat exec]. unfold step at 1. rewrite Hexit.
    rewrite (work_enter s j g _ _ _ Hj Htodo Hwg Hflag).
    unfold step at 1. cbn [exited].
    erewrite (work_act _ j _ _ _ t); cycle 1.
    { cbn [goroutines]. by apply list_lookup_insert_eq. }
    { done. }
    { done. }
    { done. }
    unfold step at 1. cbn [exited].
    erewrite (work_act _ j _ _ _ _); cycle 1.
    { cbn [goroutines]. by apply list_lookup_insert_eq; rewrite length_insert. }
    { done. }
    { done. }
    { cbn [heap prog]. by apply list_lookup_insert_eq. }
    unfold step at 1. cbn [exited].
    erewrite (work_act _ j _ _ _ _); cycle 1.
    { cbn [goroutines].
      by apply list_lookup_insert_eq; rewrite !length_insert. }
    { done. }
    { done. }
    { cbn [heap prog].
      by apply list_lookup_insert_eq; rewrite length_insert. }
    cbn [model heap commands goroutines results language prog job].
    rewrite !list_insert_insert_eq.
    rewrite (list_alter_id (λ r0, applyResult r0 (SetErrorMessage _)))
      by done.
    rewrite (list_alter_id (λ r0, applyResult r0 (SetCurrentStep _)))
      by done.
    do 2 f_equal. rewrite list_insert_alter. apply list_alter_ext; [|done].
    intros x Hx. rewrite Hr in Hx. by injection Hx as <-.
  - intros k g' l r' rest Hk Hg' Htodo'.
    pose proof (proj1 (Forall_lookup _ _) Hjobs _ _ Hg') as Hjob'.
    cbn beta in Hjob'.
    assert (writing g' = false) as Hwg'.
    { eapply hashWriting_false; [exact Hflag | exact Hg' | congruence]. }
    assert (k < length (goroutines s))%nat as Hklt by (by eapply lookup_lt_Some).
    split; cbn [exec]; unfold step at 1; rewrite Hexit.
    + rewrite (work_enter s k g' _ _ _ Hg' Htodo' Hwg');
        [|by rewrite Hjob', <- Hjob].
      unfold step. cbn [exited].
      erewrite (work_collide _ j g _ _ _); [done| |done..|].
      * cbn [goroutines]. by rewrite list_lookup_insert_ne.
      * cbn [goroutines].
        eapply (hashWriting_true _ _ k); [by apply list_lookup_insert_eq | |done].
        cbn. congruence.
    + rewrite (work_enter s j g _ _ _ Hj Htodo Hwg Hflag).
      unfold step. cbn [exited].
      erewrite (work_collide _ k g' _ _ _); [done| |done..|].
      * cbn [goroutines]. by rewrite list_lookup_insert_ne.
      * cbn [goroutines].
        eapply (hashWriting_true _ _ j); [by apply list_lookup_insert_eq | |done].
        cbn. congruence.
Qed.

(** Ruby and Perl, which have no runner, both to be updated, on the Linux
    machine: once the install closure has run, the two workers collide. *)
Lemma unsupported_collide :
  ∃ s, @exec Linux.env (start ["Ruby"; "Perl"])
         [EvCommand 0; EvKey "u"; EvKey "u"; EvCommand 0] = Running s ∧
       @exec Linux.env s [EvWork 1; EvWork 0] =
         Crashed "concurrent map writes".
Proof.
  eexists. split; [reflexivity|].
  refine (proj1 (proj2 (@unsupported_fails_alone Linux.env ["Ruby"; "Perl"]
                          [EvCommand 0; EvKey "u"; EvKey "u"; EvCommand 0]
                          _ 0 _ _ eq_refl eq_refl eq_refl _ eq_refl eq_refl)
                   1 _ _ _ _ _ eq_refl eq_refl)).
  - repeat constructor; rewrite ?elem_of_cons, ?elem_of_nil;
      intuition discriminate.
  - cbn. unfold toolchains. rewrite !elem_of_cons, elem_of_nil.
    intros [? | [? | [? | [? | [? | []]]]]]; discriminate.
  - discriminate.
Defined.
